(** * Roadmap navigation (examples/Roadmap.cc): visibility roadmap,
      multi-goal Dijkstra, steering policy and termination test.

    The example is written against the RVO2 library.  The library's
    [float] arithmetic, its [Vector2] helpers ([operator-], [abs],
    [absSq], [normalize]) and the simulator's [queryVisibility] are not
    part of this file of the program, so they are interfaces of the
    development ([FloatArith], [VectorLib], [Environment]); every law that
    a proof needs about them is an explicit hypothesis ([FloatLaws],
    [WeightLaws], [finiteLengths]).  The laws are the ones that
    round-to-nearest arithmetic enjoys away from NaN (a strict weak
    order, monotone addition), so no exactness of the arithmetic is
    assumed.

    Vectors of the program ([std::vector]) are lists, read with a default
    outside their range and updated in place with [alter] and [insert];
    the program reads or writes outside a vector only on inputs that the
    theorems exclude.  The [int] indices of the program are natural
    numbers, except for the [-1] sentinel of [minVertex], which is kept as
    an integer.  The OpenMP loops are run in index order: their
    iterations write disjoint parts of the roadmap, and the last part of
    the development proves that every other order gives the same
    roadmap.  The loop of [setPreferredVelocities] takes the agents one
    at a time; the steering of an agent is proved not to depend on the
    order, the random numbers that an agent draws do depend on it.

    The steering on a vertex is proved for roadmaps whose vertices have
    pairwise distinct positions, as the one that [setupScenario] makes
    has; what [abs], [absSq] and [normalize] are assumed to do there is
    again explicit ([ZeroLaws], [PointLaws], [separating],
    [normalizing]).

    The scenario, the drawing and the main loop are modelled as well.
    The obstacle store, the window, the solver step and the [float]
    literals of the scenario are further interfaces ([Obstacles],
    [Display], [Solver], [Literals]); what the program prints and draws
    is a list of [Output] events, and [std::rand] is a stream of
    integers that the steering pass consumes. *)

From Stdlib Require Import ZArith List Bool Lia Sorting.Sorted.
From stdpp Require Import base option list.

Set Default Proof Using "Type".

(** * The library interface *)

(** The program's [float]: [0.0F], [std::numeric_limits<float>::infinity()],
    [400.0F], and [+], [<], [==]; [a > b] is [Fltb b a]. *)
Class FloatArith : Type := {
  F : Type;
  F0 : F;
  Finf : F;
  F400 : F;
  Fadd : F -> F -> F;
  Fltb : F -> F -> bool;
  Feqb : F -> F -> bool
}.

(** [RVO::Vector2]: two [float] coordinates. *)
Record Vector2 `{FloatArith} : Type := mkVector2 { vx : F; vy : F }.

Arguments mkVector2 {_} _ _.
Arguments vx {_} _.
Arguments vy {_} _.

(** [operator-], [RVO::abs], [RVO::absSq], [RVO::normalize] and
    [operator+] of Vector2.h. *)
Class VectorLib `{FloatArith} : Type := {
  vsub : Vector2 -> Vector2 -> Vector2;
  vabs : Vector2 -> F;
  vabsSq : Vector2 -> F;
  normalize : Vector2 -> Vector2;
  vadd : Vector2 -> Vector2 -> Vector2
}.

(** What the example uses of the simulator beyond the agents:
    [simulator->queryVisibility(a, b, radius)] (the obstacles are fixed
    before the roadmap is built, so the test is a function of its three
    arguments), and the perturbation
    [dist * Vector2(cos(angle), sin(angle))] as a function of the two
    [std::rand()] draws it is computed from. *)
Class Environment `{FloatArith} : Type := {
  queryVisibility : Vector2 -> Vector2 -> F -> bool;
  perturbation : Z -> Z -> Vector2
}.

(** * The program *)

Section Program.

Context {FA : FloatArith} {VL : VectorLib} {ENV : Environment}.

(** [a <= b] in the sense "not [b < a]". *)
Definition Fle (a b : F) : Prop := Fltb b a = false.

(** [RVO::Vector2()] and [RVO::Vector2(0.0F, 0.0F)]: the zero vector. *)
Definition vzero : Vector2 := mkVector2 F0 F0.

(** ** Data *)

Record RoadmapVertex : Type := mkRoadmapVertex {
  position : Vector2;
  neighbors : list nat;
  distToGoal : list F
}.

(** The part of an agent that the example reads or writes. *)
Record Agent : Type := mkAgent {
  agentPosition : Vector2;
  agentRadius : F;
  agentPrefVelocity : Vector2
}.

Definition RVOSimulator : Type := list Agent.

Definition getNumAgents (simulator : RVOSimulator) : nat := length simulator.

(** The getters are total: reading an agent that does not exist, which
    the program never does on the inputs the theorems consider, gives a
    default. *)
Definition getAgentPosition (simulator : RVOSimulator) (i : nat) : Vector2 :=
  default vzero (agentPosition <$> simulator !! i).

Definition getAgentRadius (simulator : RVOSimulator) (i : nat) : F :=
  default F0 (agentRadius <$> simulator !! i).

Definition getAgentPrefVelocity (simulator : RVOSimulator) (i : nat) : Vector2 :=
  default vzero (agentPrefVelocity <$> simulator !! i).

Definition setAgentPrefVelocity (simulator : RVOSimulator) (i : nat)
    (v : Vector2) : RVOSimulator :=
  alter (fun a => mkAgent (agentPosition a) (agentRadius a) v) i simulator.

(** [roadmap[i]]; the program never reads outside the vector on the
    inputs the theorems consider, the default only makes the read
    total. *)
Definition getVertex (roadmap : list RoadmapVertex) (i : nat) : RoadmapVertex :=
  default (mkRoadmapVertex vzero [] []) (roadmap !! i).

(** [roadmap[v].distToGoal[i]]. *)
Definition getDist (roadmap : list RoadmapVertex) (v i : nat) : F :=
  default Finf (distToGoal (getVertex roadmap v) !! i).

(** [roadmap[v].distToGoal[i] = x]. *)
Definition setDist (roadmap : list RoadmapVertex) (v i : nat) (x : F)
    : list RoadmapVertex :=
  alter (fun r => mkRoadmapVertex (position r) (neighbors r)
                    (<[i:=x]> (distToGoal r))) v roadmap.

(** [roadmap[i].neighbors.push_back(j)]. *)
Definition pushNeighbor (roadmap : list RoadmapVertex) (i j : nat)
    : list RoadmapVertex :=
  alter (fun r => mkRoadmapVertex (position r) (neighbors r ++ [j])
                    (distToGoal r)) i roadmap.

(** [std::vector::resize(n, x)]: truncate, or pad with copies of [x]. *)
Definition resize (n : nat) (x : F) (l : list F) : list F :=
  take n l ++ replicate (n - length l) x.

(** [roadmap[i].distToGoal.resize(4U, infinity)]. *)
Definition initDist (roadmap : list RoadmapVertex) (i : nat)
    : list RoadmapVertex :=
  alter (fun r => mkRoadmapVertex (position r) (neighbors r)
                    (resize 4 Finf (distToGoal r))) i roadmap.

(** ** buildRoadmap, first phase: the visibility graph *)

(** The inner loop over [j] for a fixed row [i]. *)
Fixpoint connectRow (simulator : RVOSimulator) (roadmap : list RoadmapVertex)
    (i : nat) (js : list nat) : list RoadmapVertex :=
  match js with
  | [] => roadmap
  | j :: js' =>
      connectRow simulator
        (if queryVisibility (position (getVertex roadmap i))
                            (position (getVertex roadmap j))
                            (getAgentRadius simulator 0)
         then pushNeighbor roadmap i j
         else roadmap)
        i js'
  end.

(** The outer loop over [i]: connect row [i], then initialise its
    distances. *)
Fixpoint connectRoadmap (simulator : RVOSimulator)
    (roadmap : list RoadmapVertex) (ids : list nat) : list RoadmapVertex :=
  match ids with
  | [] => roadmap
  | i :: ids' =>
      connectRoadmap simulator
        (initDist (connectRow simulator roadmap i (seq 0 (length roadmap))) i)
        ids'
  end.

(** ** buildRoadmap, second phase: Dijkstra from each of the four goals *)

(** [std::multimap<float, int>]: the entries in key order; entries with
    equivalent keys stay in insertion order. *)
Definition Queue : Type := list (F * nat).

(** [Q.insert(std::make_pair(k, v))]: before the first entry whose key
    is greater than [k]. *)
Fixpoint qinsert (k : F) (v : nat) (Q : Queue) : Queue :=
  match Q with
  | [] => [(k, v)]
  | (k', v') :: Q' =>
      if Fltb k k' then (k, v) :: Q else (k', v') :: qinsert k v Q'
  end.

(** [Q.erase(posInQ[v])]: [posInQ[v]] points to the entry of vertex [v];
    the queue never holds two entries of one vertex ([qo_nodup] below). *)
Fixpoint qerase (v : nat) (Q : Queue) : Queue :=
  match Q with
  | [] => []
  | (k', v') :: Q' =>
      if Nat.eqb v v' then Q' else (k', v') :: qerase v Q'
  end.

(** The state of one run of the [while] loop.  [dsPosInQ[v]] is [true]
    when [posInQ[v]] is an iterator to an entry and [false] when it is
    [Q.end()]. *)
Record DijkstraState : Type := mkDijkstraState {
  dsRoadmap : list RoadmapVertex;
  dsQ : Queue;
  dsPosInQ : list bool
}.

(** [RVO::abs(roadmap[v].position - roadmap[u].position)]. *)
Definition distUV (roadmap : list RoadmapVertex) (u v : nat) : F :=
  vabs (vsub (position (getVertex roadmap v)) (position (getVertex roadmap u))).

(** The body of the loop over the neighbours of [u], for neighbour [v]. *)
Definition relaxEdge (i u v : nat) (st : DijkstraState) : DijkstraState :=
  let roadmap := dsRoadmap st in
  if Fltb (Fadd (getDist roadmap u i) (distUV roadmap u v)) (getDist roadmap v i)
  then
    let roadmap' :=
      setDist roadmap v i (Fadd (getDist roadmap u i) (distUV roadmap u v)) in
    if negb (default false (dsPosInQ st !! v))
    then mkDijkstraState roadmap'
           (qinsert (getDist roadmap' v i) v (dsQ st))
           (<[v:=true]> (dsPosInQ st))
    else mkDijkstraState roadmap'
           (qinsert (getDist roadmap' v i) v (qerase v (dsQ st)))
           (<[v:=true]> (dsPosInQ st))
  else st.

Definition relaxNeighbors (i u : nat) (vs : list nat) (st : DijkstraState)
    : DijkstraState :=
  foldl (fun st v => relaxEdge i u v st) st vs.

(** [while (!Q.empty())]; every iteration takes one unit of [fuel]. *)
Fixpoint dijkstraLoop (fuel : nat) (i : nat) (st : DijkstraState)
    : option DijkstraState :=
  match dsQ st with
  | [] => Some st
  | (_, u) :: Q' =>
      match fuel with
      | O => None
      | S fuel' =>
          dijkstraLoop fuel' i
            (relaxNeighbors i u (neighbors (getVertex (dsRoadmap st) u))
               (mkDijkstraState (dsRoadmap st) Q'
                  (<[u:=false]> (dsPosInQ st))))
      end
  end.

(** One iteration of [for (int i = 0; i < 4; ++i)]. *)
Definition dijkstraInit (i : nat) (roadmap : list RoadmapVertex)
    : DijkstraState :=
  mkDijkstraState (setDist roadmap i i F0) (qinsert F0 i [])
    (<[i:=true]> (replicate (length roadmap) false)).

Definition dijkstraFromGoal (fuel : nat) (i : nat)
    (roadmap : list RoadmapVertex) : option (list RoadmapVertex) :=
  dsRoadmap <$> dijkstraLoop fuel i (dijkstraInit i roadmap).

Fixpoint shortestPaths (fuel : nat) (roadmap : list RoadmapVertex)
    (ids : list nat) : option (list RoadmapVertex) :=
  match ids with
  | [] => Some roadmap
  | i :: ids' =>
      match dijkstraFromGoal fuel i roadmap with
      | Some roadmap' => shortestPaths fuel roadmap' ids'
      | None => None
      end
  end.

Definition buildRoadmap (fuel : nat) (simulator : RVOSimulator)
    (roadmap : list RoadmapVertex) : option (list RoadmapVertex) :=
  shortestPaths fuel
    (connectRoadmap simulator roadmap (seq 0 (length roadmap)))
    (seq 0 4).

(** ** setPreferredVelocities *)

(** [goals[i]]. *)
Definition goalOf (goals : list nat) (i : nat) : nat := default 0 (goals !! i).

(** [RVO::abs(roadmap[j].position - simulator->getAgentPosition(i)) +
     roadmap[j].distToGoal[goals[i]]]. *)
Definition vertexCost (simulator : RVOSimulator) (roadmap : list RoadmapVertex)
    (goals : list nat) (i j : nat) : F :=
  Fadd (vabs (vsub (position (getVertex roadmap j)) (getAgentPosition simulator i)))
       (getDist roadmap j (goalOf goals i)).

(** [simulator->queryVisibility(simulator->getAgentPosition(i),
     roadmap[j].position, simulator->getAgentRadius(i))]. *)
Definition agentSees (simulator : RVOSimulator) (roadmap : list RoadmapVertex)
    (i j : nat) : bool :=
  queryVisibility (getAgentPosition simulator i)
                  (position (getVertex roadmap j))
                  (getAgentRadius simulator i).

(** The loop over [j]; the state is [(minDist, minVertex)]. *)
Fixpoint selectVertex (simulator : RVOSimulator) (roadmap : list RoadmapVertex)
    (goals : list nat) (i : nat) (js : list nat) (st : F * Z) : F * Z :=
  match js with
  | [] => st
  | j :: js' =>
      selectVertex simulator roadmap goals i js'
        (if Fltb (vertexCost simulator roadmap goals i j) (fst st)
            && agentSees simulator roadmap i j
         then (vertexCost simulator roadmap goals i j, Z.of_nat j)
         else st)
  end.

Definition minVertexOf (simulator : RVOSimulator) (roadmap : list RoadmapVertex)
    (goals : list nat) (i : nat) : Z :=
  snd (selectVertex simulator roadmap goals i (seq 0 (length roadmap))
         (Finf, (-1)%Z)).

(** The argument of the first [setAgentPrefVelocity] call for agent [i]:
    the preferred velocity before the perturbation is added. *)
Definition steer (simulator : RVOSimulator) (roadmap : list RoadmapVertex)
    (goals : list nat) (i : nat) : Vector2 :=
  let minVertex := minVertexOf simulator roadmap goals i in
  if (minVertex =? -1)%Z then mkVector2 F0 F0
  else
    if Feqb (vabsSq (vsub (position (getVertex roadmap (Z.to_nat minVertex)))
                          (getAgentPosition simulator i))) F0
    then
      if (minVertex =? Z.of_nat (goalOf goals i))%Z then vzero
      else normalize (vsub (position (getVertex roadmap (goalOf goals i)))
                           (getAgentPosition simulator i))
    else normalize (vsub (position (getVertex roadmap (Z.to_nat minVertex)))
                         (getAgentPosition simulator i)).

(** The loop over the agents [ids], one iteration at a time; [rands] is
    the stream of [std::rand()] results, two of which are used per
    agent.  The program takes the agents in index order, or under OpenMP
    in an order that is not fixed: what is proved of the steering holds
    for every order, and only the numbers an agent draws depend on it. *)
Fixpoint setPreferredVelocitiesLoop (simulator : RVOSimulator)
    (roadmap : list RoadmapVertex) (goals : list nat) (ids : list nat)
    (rands : list Z) : RVOSimulator * list Z :=
  match ids with
  | [] => (simulator, rands)
  | i :: ids' =>
      let simulator1 :=
        setAgentPrefVelocity simulator i (steer simulator roadmap goals i) in
      let angle := default 0%Z (rands !! 0) in
      let dist := default 0%Z (rands !! 1) in
      let simulator2 :=
        setAgentPrefVelocity simulator1 i
          (vadd (getAgentPrefVelocity simulator1 i) (perturbation angle dist)) in
      setPreferredVelocitiesLoop simulator2 roadmap goals ids' (drop 2 rands)
  end.

Definition setPreferredVelocities (simulator : RVOSimulator)
    (roadmap : list RoadmapVertex) (goals : list nat) (rands : list Z)
    : RVOSimulator * list Z :=
  setPreferredVelocitiesLoop simulator roadmap goals
    (seq 0 (getNumAgents simulator)) rands.

(** ** reachedGoal *)

Fixpoint reachedGoalLoop (simulator : RVOSimulator)
    (roadmap : list RoadmapVertex) (goals : list nat) (ids : list nat) : bool :=
  match ids with
  | [] => true
  | i :: ids' =>
      if Fltb F400
           (vabsSq (vsub (getAgentPosition simulator i)
                         (position (getVertex roadmap (goalOf goals i)))))
      then false
      else reachedGoalLoop simulator roadmap goals ids'
  end.

Definition reachedGoal (simulator : RVOSimulator)
    (roadmap : list RoadmapVertex) (goals : list nat) : bool :=
  reachedGoalLoop simulator roadmap goals (seq 0 (getNumAgents simulator)).

(** ** Auxiliary definitions for the visibility graph *)

Definition positionsOf (roadmap : list RoadmapVertex) : list Vector2 :=
  position <$> roadmap.

Definition addNeighbors (l : list nat) (r : RoadmapVertex) : RoadmapVertex :=
  mkRoadmapVertex (position r) (neighbors r ++ l) (distToGoal r).

Definition resizeDist (r : RoadmapVertex) : RoadmapVertex :=
  mkRoadmapVertex (position r) (neighbors r) (resize 4 Finf (distToGoal r)).

(** The vertices that pass the visibility test from vertex [i], in
    index order. *)
Definition visibleFrom (simulator : RVOSimulator) (ps : list Vector2)
    (i : nat) (js : list nat) : list nat :=
  List.filter
    (fun j => queryVisibility (default vzero (ps !! i)) (default vzero (ps !! j))
                (getAgentRadius simulator 0))
    js.

(** What [roadmap[k]] is after its row has been processed. *)
Definition builtVertex (simulator : RVOSimulator) (roadmap : list RoadmapVertex)
    (k : nat) : RoadmapVertex :=
  resizeDist
    (addNeighbors
       (visibleFrom simulator (positionsOf roadmap) k (seq 0 (length roadmap)))
       (getVertex roadmap k)).

(** The roadmap after the first phase of [buildRoadmap]. *)
Definition connected (simulator : RVOSimulator) (roadmap : list RoadmapVertex)
    : list RoadmapVertex :=
  connectRoadmap simulator roadmap (seq 0 (length roadmap)).

(** A vertex as [setupScenario] pushes it: no neighbours and no
    distances yet. *)
Definition freshVertex (r : RoadmapVertex) : Prop :=
  neighbors r = [] /\ distToGoal r = [].

(** ** Specification of the shortest-path phase *)

(** The laws of [<] and [+] that the proofs rely on: [<] is a strict weak
    order with [infinity] on top, and adding the same number on the right
    is monotone. *)
Record FloatLaws : Prop := {
  Fltb_irrefl : forall a, Fltb a a = false;
  Fltb_trans : forall a b c, Fltb a b = true -> Fltb b c = true -> Fltb a c = true;
  Fle_trans : forall a b c, Fle a b -> Fle b c -> Fle a c;
  Fle_inf : forall a, Fle a Finf;
  Fadd_mono : forall a b w, Fle a b -> Fle (Fadd a w) (Fadd b w)
}.

(** Edge weights are lengths: adding one never makes a number smaller. *)
Record WeightLaws : Prop := {
  Fadd_vabs : forall a v, Fle a (Fadd a (vabs v))
}.

(** [walk roadmap g v c]: some path of the graph leads from [g] to [v]
    along neighbour edges, and [c] is its length, the edge lengths added
    up in the order of the path, starting from [0.0F]. *)
Inductive walk (roadmap : list RoadmapVertex) (g : nat) : nat -> F -> Prop :=
| walk_here : walk roadmap g g F0
| walk_step u v c :
    walk roadmap g u c ->
    v ∈ neighbors (getVertex roadmap u) ->
    walk roadmap g v (Fadd c (distUV roadmap u v)).

Definition reachable (roadmap : list RoadmapVertex) (g v : nat) : Prop :=
  exists c, walk roadmap g v c.

(** [d] is the length of a shortest path from [g] to [v]. *)
Definition shortestDist (roadmap : list RoadmapVertex) (g v : nat) (d : F) : Prop :=
  walk roadmap g v d /\ forall c, walk roadmap g v c -> Fle d c.

(** The edges of the roadmap have finite lengths: adding one to a number
    below [infinity] gives a number below [infinity]. *)
Definition finiteLengths (roadmap : list RoadmapVertex) : Prop :=
  Fltb F0 Finf = true /\
  forall a u v,
    Fltb a Finf = true -> Fltb (Fadd a (distUV roadmap u v)) Finf = true.

(** The roadmap the second phase starts from, for goal [i]: [i] is a
    vertex, neighbours are vertices, and every vertex has a slot [i]. *)
Definition wfRoadmap (i : nat) (roadmap : list RoadmapVertex) : Prop :=
  i < length roadmap /\
  (forall u v, v ∈ neighbors (getVertex roadmap u) -> v < length roadmap) /\
  (forall v, v < length roadmap -> i < length (distToGoal (getVertex roadmap v))).

(** Two roadmaps that differ at most in the distances to goal [i]. *)
Definition sameGraph (i : nat) (roadmap0 roadmap : list RoadmapVertex) : Prop :=
  length roadmap = length roadmap0 /\
  forall v,
    position (getVertex roadmap v) = position (getVertex roadmap0 v) /\
    neighbors (getVertex roadmap v) = neighbors (getVertex roadmap0 v) /\
    length (distToGoal (getVertex roadmap v)) =
      length (distToGoal (getVertex roadmap0 v)) /\
    forall c, c <> i -> getDist roadmap v c = getDist roadmap0 v c.

Definition keyLe (a b : F * nat) : Prop := Fle a.1 b.1.

(** The queue is in key order, holds each vertex at most once with its
    current distance as key, and [posInQ] tells which vertices it holds. *)
Record QueueOk (i n : nat) (settled : list nat) (st : DijkstraState) : Prop := {
  qo_sorted : StronglySorted keyLe (dsQ st);
  qo_nodup : NoDup (snd <$> dsQ st);
  qo_entry : forall k v, (k, v) ∈ dsQ st ->
      k = getDist (dsRoadmap st) v i /\ v < n /\ v ∉ settled;
  qo_len : length (dsPosInQ st) = n;
  qo_pos : forall v, dsPosInQ st !! v = Some true <-> v ∈ (snd <$> dsQ st)
}.

(** What holds throughout a run from goal [i]; [settled] are the vertices
    that have left the queue. *)
Record Core (i : nat) (roadmap0 : list RoadmapVertex) (settled : list nat)
    (st : DijkstraState) : Prop := {
  core_graph : sameGraph i roadmap0 (dsRoadmap st);
  core_queue : QueueOk i (length roadmap0) settled st;
  core_nodup : NoDup settled;
  core_range : forall u, u ∈ settled -> u < length roadmap0;
  core_prov : forall v, v < length roadmap0 ->
      (getDist (dsRoadmap st) v i = Finf /\ (v ∉ settled) /\ (v ∉ snd <$> dsQ st)) \/
      (walk roadmap0 i v (getDist (dsRoadmap st) v i) /\
       (v ∈ settled \/ v ∈ (snd <$> dsQ st)));
  core_goal : getDist (dsRoadmap st) i i = F0
}.

(** The edges from [u] to the vertices [vs] cannot improve a distance. *)
Definition Relaxed (i : nat) (roadmap : list RoadmapVertex) (u : nat)
    (vs : list nat) : Prop :=
  forall v, v ∈ vs ->
    Fle (getDist roadmap v i) (Fadd (getDist roadmap u i) (distUV roadmap u v)).

(** Invariant of the [while] loop. *)
Record LoopInv (i : nat) (roadmap0 : list RoadmapVertex) (settled : list nat)
    (st : DijkstraState) : Prop := {
  li_core : Core i roadmap0 settled st;
  li_relaxed : forall u, u ∈ settled ->
      Relaxed i (dsRoadmap st) u (neighbors (getVertex roadmap0 u));
  li_below : forall u k v, u ∈ settled -> (k, v) ∈ dsQ st ->
      Fle (getDist (dsRoadmap st) u i) k
}.

(** Invariant of the loop over the neighbours of [u]; [seen] are the
    neighbours already handled. *)
Record RelaxInv (i : nat) (roadmap0 : list RoadmapVertex) (settled : list nat)
    (u : nat) (seen : list nat) (st : DijkstraState) : Prop := {
  ri_core : Core i roadmap0 (u :: settled) st;
  ri_relaxed : forall s, s ∈ settled ->
      Relaxed i (dsRoadmap st) s (neighbors (getVertex roadmap0 s));
  ri_seen : Relaxed i (dsRoadmap st) u seen;
  ri_below : forall s, s ∈ settled ->
      Fle (getDist (dsRoadmap st) s i) (getDist (dsRoadmap st) u i);
  ri_above : forall k v, (k, v) ∈ dsQ st -> Fle (getDist (dsRoadmap st) u i) k
}.

(** What one run from goal [i] establishes, in terms of the graph
    [roadmap0] it ran on: the goal is at distance [0.0F], no path is
    shorter than the recorded distance, and a recorded distance is either
    the untouched [infinity] or the length of a path. *)
Record GoalSpec (i : nat) (roadmap0 roadmap : list RoadmapVertex) : Prop := {
  gs_goal : getDist roadmap i i = F0;
  gs_lower : forall v c, walk roadmap0 i v c -> Fle (getDist roadmap v i) c;
  gs_path : forall v, v < length roadmap0 ->
      getDist roadmap v i = Finf \/ walk roadmap0 i v (getDist roadmap v i)
}.

(** Two roadmaps that differ at most in the distances to the goals [ids]. *)
Definition sameExcept (ids : list nat) (roadmap0 roadmap : list RoadmapVertex)
    : Prop :=
  length roadmap = length roadmap0 /\
  forall v,
    position (getVertex roadmap v) = position (getVertex roadmap0 v) /\
    neighbors (getVertex roadmap v) = neighbors (getVertex roadmap0 v) /\
    length (distToGoal (getVertex roadmap v)) =
      length (distToGoal (getVertex roadmap0 v)) /\
    forall c, c ∉ ids -> getDist roadmap v c = getDist roadmap0 v c.

(** ** Specification of the vertex selection *)

(** The state of the selection loop after the vertices below [a] have
    been examined: either nothing was selected, and no examined vertex is
    visible with a cost below [infinity]; or vertex [m] is selected, it is
    visible, no examined visible vertex is cheaper, and every visible
    vertex before [m] is strictly more expensive. *)
Definition SelectInv (simulator : RVOSimulator) (roadmap : list RoadmapVertex)
    (goals : list nat) (i : nat) (a : nat) (st : F * Z) : Prop :=
  (st = (Finf, (-1)%Z) /\
   forall k, k < a -> agentSees simulator roadmap i k = true ->
     Fltb (vertexCost simulator roadmap goals i k) Finf = false) \/
  (exists m, m < a /\
     st = (vertexCost simulator roadmap goals i m, Z.of_nat m) /\
     agentSees simulator roadmap i m = true /\
     Fltb (vertexCost simulator roadmap goals i m) Finf = true /\
     (forall k, k < a -> agentSees simulator roadmap i k = true ->
        Fle (vertexCost simulator roadmap goals i m)
            (vertexCost simulator roadmap goals i k)) /\
     (forall k, k < m -> agentSees simulator roadmap i k = true ->
        Fltb (vertexCost simulator roadmap goals i m)
             (vertexCost simulator roadmap goals i k) = true)).

End Program.

(** * The rest of the example: scenario, drawing and driver *)

(** What the rest of the example uses of the simulator and of the window:
    the obstacle vertices ([getNumObstacleVertices], [getObstacleVertex],
    [getNextObstacleVertexNo]; fixed once the obstacles are processed),
    the centre of the window
    ([{GetScreenWidth() / 2.0f, GetScreenHeight() / 2.0f}]), and
    [doStep], which advances the global time and the agents. *)
Class Obstacles `{FloatArith} : Type := {
  getNumObstacleVertices : nat;
  getObstacleVertex : nat -> Vector2;
  getNextObstacleVertexNo : nat -> nat
}.

Class Display `{FloatArith} : Type := {
  screenOrigin : Vector2
}.

Class Solver `{FloatArith} : Type := {
  doStep : F * RVOSimulator -> F * RVOSimulator
}.

(** The arithmetic of [setupScenario]: a [float] of integer value (a
    literal such as [-75.0F], or [static_cast<float>(i)]), the time step
    [0.25F], and [-], [*]. *)
Class Literals `{FloatArith} : Type := {
  FofZ : Z -> F;
  F025 : F;
  Fsub : F -> F -> F;
  Fmul : F -> F -> F
}.

(** What the example writes: to [std::cout], and to the window; the
    numbers of [DrawCircle] and [DrawLine] are recorded as they are
    passed, before the call converts them. *)
Inductive Output `{FloatArith} : Type :=
| PrintTime (t : F)
| PrintPosition (p : Vector2)
| PrintEndl
| DrawCircle (x y r : F)
| DrawLine (x1 y1 x2 y2 : F)
| BeginDrawing
| ClearBackground
| EndDrawing.

Section Driver.

Context {FA : FloatArith} {VL : VectorLib} {ENV : Environment}.
Context {OBS : Obstacles} {DISP : Display} {SOL : Solver} {LIT : Literals}.

(** ** updateVisualization *)

(** The loop over the agents: print the position, draw the circle. *)
Definition drawAgents (simulator : RVOSimulator) (ids : list nat)
    (out : list Output) : list Output :=
  foldl (fun out i =>
           out ++ [PrintPosition (getAgentPosition simulator i);
                   DrawCircle (Fadd (vx (getAgentPosition simulator i)) (vx screenOrigin))
                              (Fadd (vy (getAgentPosition simulator i)) (vy screenOrigin))
                              (getAgentRadius simulator i)])
        out ids.

(** The line from obstacle vertex [v] to the next one. *)
Definition obstacleLine (v : nat) : Output :=
  DrawLine (Fadd (vx (getObstacleVertex v)) (vx screenOrigin))
           (Fadd (vy (getObstacleVertex v)) (vy screenOrigin))
           (Fadd (vx (getObstacleVertex (getNextObstacleVertexNo v))) (vx screenOrigin))
           (Fadd (vy (getObstacleVertex (getNextObstacleVertexNo v))) (vy screenOrigin)).

(** The [do ... while (currentVertex != startVertex)] loop; the state is
    [(drawnVertices, output)], every iteration takes one unit of [fuel]. *)
Fixpoint drawPolygon (fuel : nat) (startVertex currentVertex : nat)
    (st : list bool * list Output) : option (list bool * list Output) :=
  match fuel with
  | O => None
  | S fuel' =>
      let nextVertex := getNextObstacleVertexNo currentVertex in
      let st' := (<[currentVertex:=true]> (fst st),
                  snd st ++ [obstacleLine currentVertex]) in
      if Nat.eqb nextVertex startVertex then Some st'
      else drawPolygon fuel' startVertex nextVertex st'
  end.

(** The loop over the obstacle vertices. *)
Fixpoint drawObstacles (fuel : nat) (ids : list nat)
    (st : list bool * list Output) : option (list bool * list Output) :=
  match ids with
  | [] => Some st
  | i :: ids' =>
      if negb (default false (fst st !! i))
      then match drawPolygon fuel i i st with
           | Some st' => drawObstacles fuel ids' st'
           | None => None
           end
      else drawObstacles fuel ids' st
  end.

(** [updateVisualization], with [globalTime] the simulator's global time;
    the result is what it writes. *)
Definition updateVisualization (fuel : nat) (globalTime : F)
    (simulator : RVOSimulator) : option (list Output) :=
  match drawObstacles fuel (seq 0 getNumObstacleVertices)
          (replicate getNumObstacleVertices false,
           drawAgents simulator (seq 0 (getNumAgents simulator))
             [PrintTime globalTime]) with
  | Some st => Some (snd st ++ [PrintEndl])
  | None => None
  end.

(** ** The loop of main *)

(** One pass of the body, without its output: preferred velocities, then
    one step of the solver. *)
Definition tick (roadmap : list RoadmapVertex) (goals : list nat)
    (st : F * RVOSimulator * list Z) : F * RVOSimulator * list Z :=
  let sr := setPreferredVelocities (snd (fst st)) roadmap goals (snd st) in
  (doStep (fst (fst st), fst sr), snd sr).

(** [do { ... } while (!reachedGoal(simulator, roadmap, goals))]; [fuel]
    bounds the passes and [drawFuel] the loops of each drawing. *)
Fixpoint mainLoop (fuel drawFuel : nat) (roadmap : list RoadmapVertex)
    (goals : list nat) (st : F * RVOSimulator * list Z) (out : list Output)
    : option (F * RVOSimulator * list Z * list Output) :=
  match fuel with
  | O => None
  | S fuel' =>
      match updateVisualization drawFuel (fst (fst st)) (snd (fst st)) with
      | None => None
      | Some drawing =>
          let st' := tick roadmap goals st in
          let out' := out ++ [BeginDrawing; ClearBackground] ++ drawing ++ [EndDrawing] in
          if reachedGoal (snd (fst st')) roadmap goals
          then Some (st', out')
          else mainLoop fuel' drawFuel roadmap goals st' out'
      end
  end.

(** ** setupScenario *)

(** What [setupScenario] hands to the simulator and to its two reference
    parameters. *)
Record Scenario : Type := mkScenario {
  scTimeStep : F;
  scObstacles : list (list Vector2);
  scAgentDefaults : F * nat * F * F * F * F;
  scAgents : RVOSimulator;
  scRoadmap : list RoadmapVertex;
  scGoals : list nat
}.

Definition lit2 (x y : Z) : Vector2 := mkVector2 (FofZ x) (FofZ y).

(** [v.position = RVO::Vector2(x, y); roadmap.push_back(v);] with [v]
    default-constructed. *)
Definition pushVertex (roadmap : list RoadmapVertex) (x y : Z)
    : list RoadmapVertex :=
  roadmap ++ [mkRoadmapVertex (lit2 x y) [] []].

(** [simulator->addAgent(position)] after
    [setAgentDefaults(15.0F, 10U, 5.0F, 5.0F, 2.0F, 2.0F)]: radius
    [2.0F], no preferred velocity yet. *)
Definition addAgent (simulator : RVOSimulator) (p : Vector2) : RVOSimulator :=
  simulator ++ [mkAgent p (FofZ 2) vzero].

(** [55.0F + static_cast<float>(i) * 10.0F] and
    [-55.0F - static_cast<float>(i) * 10.0F]. *)
Definition farCoord (i : nat) : F :=
  Fadd (FofZ 55) (Fmul (FofZ (Z.of_nat i)) (FofZ 10)).

Definition nearCoord (i : nat) : F :=
  Fsub (FofZ (-55)) (Fmul (FofZ (Z.of_nat i)) (FofZ 10)).

(** The body of the two loops over [i] and [j]: four agents, one per
    goal. *)
Definition addFourAgents (i j : nat) (st : RVOSimulator * list nat)
    : RVOSimulator * list nat :=
  let s1 := addAgent (fst st) (mkVector2 (farCoord i) (farCoord j)) in
  let g1 := snd st ++ [0] in
  let s2 := addAgent s1 (mkVector2 (nearCoord i) (farCoord j)) in
  let g2 := g1 ++ [1] in
  let s3 := addAgent s2 (mkVector2 (farCoord i) (nearCoord j)) in
  let g3 := g2 ++ [2] in
  let s4 := addAgent s3 (mkVector2 (nearCoord i) (nearCoord j)) in
  let g4 := g3 ++ [3] in
  (s4, g4).

Definition addAgents (st : RVOSimulator * list nat) : RVOSimulator * list nat :=
  foldl (fun st i => foldl (fun st j => addFourAgents i j st) st (seq 0 5))
        st (seq 0 5).

Definition setupScenario (simulator : RVOSimulator)
    (roadmap : list RoadmapVertex) (goals : list nat) : Scenario :=
  let obstacle1 := [lit2 (-10) 40; lit2 (-40) 40; lit2 (-40) 10; lit2 (-10) 10] in
  let obstacle2 := [lit2 10 40; lit2 10 10; lit2 40 10; lit2 40 40] in
  let obstacle3 := [lit2 10 (-40); lit2 40 (-40); lit2 40 (-10); lit2 10 (-10)] in
  let obstacle4 := [lit2 (-10) (-40); lit2 (-10) (-10); lit2 (-40) (-10);
                    lit2 (-40) (-40)] in
  let roadmap1 :=
    foldl (fun r xy => pushVertex r (fst xy) (snd xy)) roadmap
      [(-75, -75); (75, -75); (-75, 75); (75, 75);
       (-42, -42); (-42, -8); (-42, 8); (-42, 42);
       (-8, -42); (-8, -8); (-8, 8); (-8, 42);
       (8, -42); (8, -8); (8, 8); (8, 42);
       (42, -42); (42, -8); (42, 8); (42, 42)]%Z in
  let ag := addAgents (simulator, goals) in
  mkScenario F025 [obstacle1; obstacle2; obstacle3; obstacle4]
    (FofZ 15, 10, FofZ 5, FofZ 5, FofZ 2, FofZ 2)
    (fst ag) roadmap1 (snd ag).

(** ** Specification of the drawing *)

(** What the loop over the agents writes for agent [i]. *)
Definition agentDrawing (simulator : RVOSimulator) (i : nat) : list Output :=
  [PrintPosition (getAgentPosition simulator i);
   DrawCircle (Fadd (vx (getAgentPosition simulator i)) (vx screenOrigin))
              (Fadd (vy (getAgentPosition simulator i)) (vy screenOrigin))
              (getAgentRadius simulator i)].

(** The obstacle vertices form closed polygons: the next vertex of a
    vertex is a vertex, and no two vertices have the same next vertex. *)
Definition closedPolygons : Prop :=
  (forall v, v < getNumObstacleVertices ->
     getNextObstacleVertexNo v < getNumObstacleVertices) /\
  (forall u v, u < getNumObstacleVertices -> v < getNumObstacleVertices ->
     getNextObstacleVertexNo u = getNextObstacleVertexNo v -> u = v).

(** The vertices met from [s] in [k] steps along the polygon. *)
Definition orbit (s k : nat) : list nat :=
  (fun j => Nat.iter j getNextObstacleVertexNo s) <$> seq 0 k.

(** The state of the drawing when the vertices [vs] have been drawn. *)
Definition DrawnInv (out0 : list Output) (vs : list nat)
    (st : list bool * list Output) : Prop :=
  length (fst st) = getNumObstacleVertices /\
  snd st = out0 ++ (obstacleLine <$> vs) /\
  NoDup vs /\
  (forall v, v ∈ vs <-> fst st !! v = Some true) /\
  (forall v, v ∈ vs -> v < getNumObstacleVertices) /\
  (forall v, v < getNumObstacleVertices ->
     (v ∈ vs <-> getNextObstacleVertexNo v ∈ vs)).

End Driver.

(** * Specification of the independence of the loop iterations *)

Section Independence.

Context {FA : FloatArith}.

(** Two roadmaps with the same graph and the same distances to goal
    [i]. *)
Definition agreeOn (i : nat) (roadmap1 roadmap2 : list RoadmapVertex) : Prop :=
  length roadmap2 = length roadmap1 /\
  forall v,
    position (getVertex roadmap2 v) = position (getVertex roadmap1 v) /\
    neighbors (getVertex roadmap2 v) = neighbors (getVertex roadmap1 v) /\
    length (distToGoal (getVertex roadmap2 v)) =
      length (distToGoal (getVertex roadmap1 v)) /\
    getDist roadmap2 v i = getDist roadmap1 v i.

(** Two states of a run from goal [i] with the same queue and
    bookkeeping, on roadmaps that agree on goal [i]. *)
Definition stateAgree (i : nat) (st1 st2 : DijkstraState) : Prop :=
  dsQ st2 = dsQ st1 /\ dsPosInQ st2 = dsPosInQ st1 /\
  agreeOn i (dsRoadmap st1) (dsRoadmap st2).

(** Two results of a run from goal [i]: both out of fuel, or both there
    and related by [R]. *)
Definition bothOr {A : Type} (R : A -> A -> Prop) (r1 r2 : option A) : Prop :=
  match r1, r2 with
  | Some a1, Some a2 => R a1 a2
  | None, None => True
  | _, _ => False
  end.

End Independence.

(** * Laws for an agent that stands on a vertex *)

Section PointLaws.

Context {FA : FloatArith} {VL : VectorLib}.

(** The laws of [0.0F] that the proofs about an agent on its goal rely
    on: it is below [infinity], [0.0F + 0.0F] is [0.0F], and adding a
    number that is not below [0.0F] never makes a number smaller. *)
Record ZeroLaws : Prop := {
  F0_finite : Fltb F0 Finf = true;
  Fadd_F0_F0 : Fadd F0 F0 = F0;
  Fadd_nonneg : forall a w, Fle F0 w -> Fle a (Fadd a w)
}.

(** The positions of the roadmap are points of the plane for [abs] and
    [absSq]: a position is at distance [0.0F] from itself, and two
    positions that differ are at a distance above [0.0F]. *)
Record PointLaws (roadmap : list RoadmapVertex) : Prop := {
  vabs_self : forall u, u < length roadmap ->
      vabs (vsub (position (getVertex roadmap u))
                 (position (getVertex roadmap u))) = F0;
  vabsSq_self : forall u, u < length roadmap ->
      Feqb (vabsSq (vsub (position (getVertex roadmap u))
                         (position (getVertex roadmap u)))) F0 = true;
  vabs_apart : forall u v, u < length roadmap -> v < length roadmap ->
      position (getVertex roadmap u) <> position (getVertex roadmap v) ->
      Fltb F0 (vabs (vsub (position (getVertex roadmap u))
                          (position (getVertex roadmap v)))) = true
}.

(** [absSq] tells points apart: only a point itself is at squared
    distance [0.0F] from it. *)
Definition separating : Prop :=
  forall p q, Feqb (vabsSq (vsub p q)) F0 = true -> p = q.

(** [normalize] gives a vector of length [one] on every vector whose
    squared length is neither [0.0F] nor [infinity]. *)
Definition normalizing (one : F) : Prop :=
  forall v, Feqb (vabsSq v) F0 = false -> Fltb (vabsSq v) Finf = true ->
    vabs (normalize v) = one.

End PointLaws.

(** * A concrete library: integer coordinates *)

(** Integers with a point at infinity stand for the numbers; lengths are
    rounded down to an integer. *)
Inductive ExtZ : Type := Num (z : Z) | Infty.

Definition addExt (a b : ExtZ) : ExtZ :=
  match a, b with
  | Num x, Num y => Num (x + y)
  | _, _ => Infty
  end.

Definition subExt (a b : ExtZ) : ExtZ :=
  match a, b with
  | Num x, Num y => Num (x - y)
  | _, _ => Infty
  end.

Definition ltbExt (a b : ExtZ) : bool :=
  match a, b with
  | Num x, Num y => (x <? y)%Z
  | Num _, Infty => true
  | Infty, _ => false
  end.

Definition eqbExt (a b : ExtZ) : bool :=
  match a, b with
  | Num x, Num y => (x =? y)%Z
  | Infty, Infty => true
  | _, _ => false
  end.

Definition gridArith : FloatArith :=
  {| F := ExtZ; F0 := Num 0; Finf := Infty; F400 := Num 400;
     Fadd := addExt; Fltb := ltbExt; Feqb := eqbExt |}.

Definition gridVector (x y : Z) : @Vector2 gridArith :=
  @mkVector2 gridArith (Num x) (Num y).

Definition gridSub (a b : @Vector2 gridArith) : @Vector2 gridArith :=
  @mkVector2 gridArith (subExt (vx a) (vx b)) (subExt (vy a) (vy b)).

Definition gridAdd (a b : @Vector2 gridArith) : @Vector2 gridArith :=
  @mkVector2 gridArith (addExt (vx a) (vx b)) (addExt (vy a) (vy b)).

Definition gridAbsSq (v : @Vector2 gridArith) : ExtZ :=
  match vx v, vy v with
  | Num x, Num y => Num (x * x + y * y)
  | _, _ => Infty
  end.

Definition gridAbs (v : @Vector2 gridArith) : ExtZ :=
  match vx v, vy v with
  | Num x, Num y => Num (Z.sqrt (x * x + y * y))
  | _, _ => Infty
  end.

(** The vector operations, for any choice of [normalize]. *)
Definition gridVectors (nrm : @Vector2 gridArith -> @Vector2 gridArith)
    : @VectorLib gridArith :=
  {| vsub := gridSub; vabs := gridAbs; vabsSq := gridAbsSq;
     normalize := nrm; vadd := gridAdd |}.

Definition signExt (a : ExtZ) : ExtZ :=
  match a with
  | Num x => Num (Z.sgn x)
  | Infty => Num 0
  end.

(** A [normalize] for the grid: the direction to the nearest of the eight
    neighbouring grid points. *)
Definition gridNormalize (v : @Vector2 gridArith) : @Vector2 gridArith :=
  @mkVector2 gridArith (signExt (vx v)) (signExt (vy v)).

(** No obstacles: every point is visible from every point. *)
Definition openField : @Environment gridArith :=
  {| queryVisibility := fun _ _ _ => true;
     perturbation := fun _ _ => gridVector 0 0 |}.

(** A wall along the line [x = 0]: two points are visible from each
    other when they are on the same side of it. *)
Definition walledField : @Environment gridArith :=
  {| queryVisibility := fun (a b : @Vector2 gridArith) _ =>
       match vx a, vx b with
       | Num x, Num y => Bool.eqb (x <? 0)%Z (y <? 0)%Z
       | _, _ => false
       end;
     perturbation := fun _ _ => gridVector 0 0 |}.

(** The wall along [x = 0] with a door that only a point without extent
    passes: with radius [0] every point is visible from every point. *)
Definition doorField : @Environment gridArith :=
  {| queryVisibility := fun (a b : @Vector2 gridArith) (r : ExtZ) =>
       match r with
       | Num 0 => true
       | _ => @queryVisibility gridArith walledField a b r
       end;
     perturbation := fun _ _ => gridVector 1 0 |}.

Definition gridVertex (x y : Z) : @RoadmapVertex gridArith :=
  @mkRoadmapVertex gridArith (gridVector x y) [] [].

Definition gridAgent (x y : Z) : @Agent gridArith :=
  @mkAgent gridArith (gridVector x y) (Num 1) (gridVector 0 0).

(** Four goals in the corners of a rectangle that the wall divides, and
    a waypoint on the right of the wall. *)
Definition twoRooms : list (@RoadmapVertex gridArith) :=
  [gridVertex (-3) 0; gridVertex 3 0; gridVertex (-3) 4; gridVertex 3 4;
   gridVertex 6 8].

(** Vertex 0 and goal vertex 1 at the same position. *)
Definition stacked : list (@RoadmapVertex gridArith) :=
  [gridVertex 0 0; gridVertex 0 0; gridVertex 3 0; gridVertex 0 4].

(** The two roadmaps after [buildRoadmap]. *)
Definition twoRoomsBuilt : list (@RoadmapVertex gridArith) :=
  Eval vm_compute in
    default []
      (buildRoadmap (VL := gridVectors gridNormalize) (ENV := walledField)
         5 [gridAgent 6 0] twoRooms).

Definition stackedBuilt : list (@RoadmapVertex gridArith) :=
  Eval vm_compute in
    default []
      (buildRoadmap (VL := gridVectors gridNormalize) (ENV := openField)
         4 [gridAgent 0 0] stacked).

(** Every coordinate of the roadmap is an integer. *)
Definition gridPositions (roadmap : list (@RoadmapVertex gridArith)) : Prop :=
  Forall (fun r => exists x y, position r = gridVector x y) roadmap.

Definition gridLib : @VectorLib gridArith := gridVectors gridNormalize.

(** ** Obstacles, window, solver and literals on the grid *)

Definition mulExt (a b : ExtZ) : ExtZ :=
  match a, b with
  | Num x, Num y => Num (x * y)
  | _, _ => Infty
  end.

(** A square (vertices 0 to 3) and a triangle (vertices 4 to 6). *)
Definition gridObstacles : @Obstacles gridArith :=
  {| getNumObstacleVertices := 7;
     getObstacleVertex := fun v =>
       nth v [gridVector 1 1; gridVector 2 1; gridVector 2 2; gridVector 1 2;
              gridVector (-1) 0; gridVector (-2) 0; gridVector (-2) 3]
           (gridVector 0 0);
     getNextObstacleVertexNo := fun v => nth v [1; 2; 3; 0; 5; 6; 4] v |}.

Definition gridDisplay : @Display gridArith :=
  {| screenOrigin := gridVector 400 300 |}.

(** A solver without collision avoidance: the time advances by one and
    every agent moves by its preferred velocity. *)
Definition gridSolver : @Solver gridArith :=
  {| doStep := fun (st : @F gridArith * @RVOSimulator gridArith) =>
       (addExt (fst st) (Num 1),
        (fun a => @mkAgent gridArith
                    (gridAdd (agentPosition a) (agentPrefVelocity a))
                    (agentRadius a) (agentPrefVelocity a)) <$> snd st) |}.

Definition gridLiterals : @Literals gridArith :=
  @Build_Literals gridArith Num (Num 0) subExt mulExt.

(** * Properties *)

Section Properties.

Context {FA : FloatArith} {VL : VectorLib} {ENV : Environment}.

(** ** Reading and writing the roadmap *)

Lemma position_getVertex roadmap k :
  position (getVertex roadmap k) = default vzero (positionsOf roadmap !! k).
Proof.
  unfold getVertex, positionsOf. rewrite list_lookup_fmap.
  destruct (roadmap !! k); reflexivity.
Qed.

Lemma positionsOf_alter f i roadmap :
  (forall r, position (f r) = position r) ->
  positionsOf (alter f i roadmap) = positionsOf roadmap.
Proof.
  intros Hf. unfold positionsOf.
  rewrite (list_fmap_alter position f id)
    by (apply Forall_forall; intros; apply Hf).
  apply list_alter_id. reflexivity.
Qed.

Lemma length_positionsOf roadmap : length (positionsOf roadmap) = length roadmap.
Proof. apply length_fmap. Qed.

Lemma getVertex_alter_eq f roadmap k :
  k < length roadmap ->
  getVertex (alter f k roadmap) k = f (getVertex roadmap k).
Proof.
  intros Hk. unfold getVertex. rewrite list_lookup_alter_eq.
  destruct (lookup_lt_is_Some_2 roadmap k Hk) as [r ->]. reflexivity.
Qed.

Lemma getVertex_alter_ne f roadmap i k :
  i <> k -> getVertex (alter f i roadmap) k = getVertex roadmap k.
Proof. intros Hne. unfold getVertex. rewrite list_lookup_alter_ne; auto. Qed.

Lemma getVertex_alter_ge f roadmap i k :
  length roadmap <= k -> getVertex (alter f i roadmap) k = getVertex roadmap k.
Proof.
  intros Hk. unfold getVertex.
  rewrite !lookup_ge_None_2; rewrite ?length_alter; auto.
Qed.

(** ** The visibility graph that the first phase builds *)

Lemma connectRow_alter simulator roadmap i js :
  connectRow simulator roadmap i js =
  alter (addNeighbors (visibleFrom simulator (positionsOf roadmap) i js)) i roadmap.
Proof.
  revert roadmap. induction js as [|j js IH]; intros roadmap; simpl.
  - symmetry. apply list_alter_id. intros [p ns ds].
    unfold addNeighbors; simpl. rewrite app_nil_r. reflexivity.
  - rewrite IH, !position_getVertex. clear IH.
    destruct (queryVisibility _ _ _); [|reflexivity].
    unfold pushNeighbor.
    rewrite positionsOf_alter by reflexivity.
    rewrite list_alter_alter_eq. apply list_alter_ext; [|reflexivity].
    intros [p ns ds] _. unfold addNeighbors; simpl.
    rewrite <- app_assoc. reflexivity.
Qed.

Lemma connectRoadmap_step simulator roadmap i :
  initDist (connectRow simulator roadmap i (seq 0 (length roadmap))) i =
  alter (fun r => resizeDist (addNeighbors
           (visibleFrom simulator (positionsOf roadmap) i (seq 0 (length roadmap))) r))
        i roadmap.
Proof.
  unfold initDist. rewrite connectRow_alter, list_alter_alter_eq. reflexivity.
Qed.

Lemma connectRoadmap_length simulator roadmap ids :
  length (connectRoadmap simulator roadmap ids) = length roadmap.
Proof.
  revert roadmap. induction ids as [|i ids IH]; intros roadmap; simpl; [reflexivity|].
  rewrite IH, connectRoadmap_step, length_alter. reflexivity.
Qed.

Lemma connectRoadmap_positions simulator roadmap ids :
  positionsOf (connectRoadmap simulator roadmap ids) = positionsOf roadmap.
Proof.
  revert roadmap. induction ids as [|i ids IH]; intros roadmap; simpl; [reflexivity|].
  rewrite IH, connectRoadmap_step, positionsOf_alter; reflexivity.
Qed.

Lemma connectRoadmap_other simulator roadmap ids k :
  ~ In k ids ->
  getVertex (connectRoadmap simulator roadmap ids) k = getVertex roadmap k.
Proof.
  revert roadmap. induction ids as [|i ids IH]; intros roadmap Hk; simpl; [reflexivity|].
  rewrite IH, connectRoadmap_step by (intros ?; apply Hk; right; assumption).
  apply getVertex_alter_ne. intros ->. apply Hk. left. reflexivity.
Qed.

Lemma connectRoadmap_vertex simulator roadmap ids k :
  NoDup ids -> In k ids -> k < length roadmap ->
  getVertex (connectRoadmap simulator roadmap ids) k = builtVertex simulator roadmap k.
Proof.
  revert roadmap. induction ids as [|i ids IH]; intros roadmap Hnd Hin Hk.
  { destruct Hin. }
  apply NoDup_cons in Hnd as [Hi Hnd]. simpl. rewrite connectRoadmap_step.
  set (roadmap1 := alter _ i roadmap).
  assert (Hpos : positionsOf roadmap1 = positionsOf roadmap)
    by (apply positionsOf_alter; reflexivity).
  assert (Hlen : length roadmap1 = length roadmap) by apply length_alter.
  destruct (decide (k = i)) as [->|Hne].
  - rewrite connectRoadmap_other by (rewrite <- list_elem_of_In; exact Hi).
    unfold roadmap1. rewrite getVertex_alter_eq by assumption. reflexivity.
  - destruct Hin as [->|Hin]; [congruence|].
    rewrite IH; [|assumption|assumption|lia].
    unfold builtVertex. rewrite Hpos, Hlen. unfold roadmap1.
    rewrite getVertex_alter_ne by congruence. reflexivity.
Qed.

Lemma connected_vertex simulator roadmap k :
  k < length roadmap ->
  getVertex (connected simulator roadmap) k = builtVertex simulator roadmap k.
Proof.
  intros Hk. apply connectRoadmap_vertex; [apply NoDup_seq| |assumption].
  apply in_seq. lia.
Qed.

Lemma connected_neighbors simulator roadmap i j :
  Forall freshVertex roadmap -> i < length roadmap ->
  In j (neighbors (getVertex (connected simulator roadmap) i)) <->
  j < length roadmap /\
  queryVisibility (position (getVertex roadmap i)) (position (getVertex roadmap j))
    (getAgentRadius simulator 0) = true.
Proof.
  intros Hfresh Hi. rewrite connected_vertex by assumption.
  unfold builtVertex, resizeDist, addNeighbors, visibleFrom; simpl.
  destruct (lookup_lt_is_Some_2 roadmap i Hi) as [r Hr].
  assert (Hnil : neighbors (getVertex roadmap i) = []).
  { unfold getVertex. rewrite Hr. simpl.
    eapply (proj1 (Forall_lookup _ _) Hfresh) in Hr. apply Hr. }
  rewrite Hnil, app_nil_l, filter_In, in_seq, !position_getVertex.
  split; intros [H1 H2]; (split; [lia || assumption|lia || assumption]).
Qed.

(** ** The order on numbers *)

Section Order.

Hypothesis HF : FloatLaws.

Lemma Fle_refl a : Fle a a.
Proof using HF. apply (Fltb_irrefl HF). Qed.

Lemma Fltb_Fle a b : Fltb a b = true -> Fle a b.
Proof using HF.
  intros Hab. unfold Fle. destruct (Fltb b a) eqn:Hba; [|reflexivity].
  rewrite <- (Fltb_irrefl HF a). symmetry. eapply (Fltb_trans HF); eassumption.
Qed.

Lemma Fltb_Fle_trans a b c : Fltb a b = true -> Fle b c -> Fltb a c = true.
Proof using HF.
  intros Hab Hbc. destruct (Fltb a c) eqn:Hac; [reflexivity|].
  assert (Hba : Fle b a) by (eapply (Fle_trans HF); eassumption).
  unfold Fle in Hba. congruence.
Qed.

Lemma Fle_Fltb_trans a b c : Fle a b -> Fltb b c = true -> Fltb a c = true.
Proof using HF.
  intros Hab Hbc. destruct (Fltb a c) eqn:Hac; [reflexivity|].
  assert (Hcb : Fle c b) by (eapply (Fle_trans HF); eassumption).
  unfold Fle in Hcb. congruence.
Qed.

Lemma not_Fltb_Fle a b : Fltb a b <> true -> Fle b a.
Proof. unfold Fle. destruct (Fltb a b); congruence. Qed.

Lemma Fle_not_Fltb a b : Fle a b -> Fltb b a = true -> False.
Proof. unfold Fle. congruence. Qed.

End Order.

(** ** Reading and writing distances *)

Lemma length_setDist roadmap v i x : length (setDist roadmap v i x) = length roadmap.
Proof. apply length_alter. Qed.

Lemma getVertex_setDist roadmap v i x k :
  position (getVertex (setDist roadmap v i x) k) = position (getVertex roadmap k) /\
  neighbors (getVertex (setDist roadmap v i x) k) = neighbors (getVertex roadmap k) /\
  length (distToGoal (getVertex (setDist roadmap v i x) k)) =
    length (distToGoal (getVertex roadmap k)).
Proof.
  unfold setDist. destruct (decide (v = k)) as [->|Hne].
  - destruct (decide (k < length roadmap)) as [Hk|Hk].
    + rewrite getVertex_alter_eq by assumption. simpl.
      rewrite length_insert. auto.
    + rewrite getVertex_alter_ge by lia. auto.
  - rewrite getVertex_alter_ne by assumption. auto.
Qed.

Lemma getDist_setDist_eq roadmap v i x :
  v < length roadmap -> i < length (distToGoal (getVertex roadmap v)) ->
  getDist (setDist roadmap v i x) v i = x.
Proof.
  intros Hv Hi. unfold getDist, setDist.
  rewrite getVertex_alter_eq by assumption. simpl.
  rewrite list_lookup_insert_eq by assumption. reflexivity.
Qed.

Lemma getDist_setDist_ne roadmap v i x v' i' :
  v' <> v \/ i' <> i ->
  getDist (setDist roadmap v i x) v' i' = getDist roadmap v' i'.
Proof.
  intros Hne. unfold getDist, setDist.
  destruct (decide (v = v')) as [->|Hv].
  - destruct (decide (v' < length roadmap)) as [Hk|Hk].
    + rewrite getVertex_alter_eq by assumption. simpl.
      rewrite list_lookup_insert_ne; [reflexivity|]. destruct Hne; congruence.
    + rewrite getVertex_alter_ge by lia. reflexivity.
  - rewrite getVertex_alter_ne by assumption. reflexivity.
Qed.

Lemma distUV_setDist roadmap v i x a b :
  distUV (setDist roadmap v i x) a b = distUV roadmap a b.
Proof.
  unfold distUV.
  rewrite (proj1 (getVertex_setDist roadmap v i x a)).
  rewrite (proj1 (getVertex_setDist roadmap v i x b)). reflexivity.
Qed.

Lemma sameGraph_refl i roadmap : sameGraph i roadmap roadmap.
Proof. split; [reflexivity|]. intros v. auto. Qed.

Lemma sameGraph_setDist i roadmap0 roadmap v x :
  sameGraph i roadmap0 roadmap -> sameGraph i roadmap0 (setDist roadmap v i x).
Proof.
  intros [Hlen Hsame]. split; [rewrite length_setDist; assumption|].
  intros k. destruct (Hsame k) as (Hp & Hn & Hl & Hc).
  destruct (getVertex_setDist roadmap v i x k) as (Hp' & Hn' & Hl').
  repeat split; try congruence.
  intros c Hci. rewrite getDist_setDist_ne by auto. auto.
Qed.

Lemma sameGraph_trans i roadmap0 roadmap1 roadmap2 :
  sameGraph i roadmap0 roadmap1 -> sameGraph i roadmap1 roadmap2 ->
  sameGraph i roadmap0 roadmap2.
Proof.
  intros [Hlen1 H1] [Hlen2 H2]. split; [congruence|].
  intros k. destruct (H1 k) as (Hp & Hn & Hl & Hc).
  destruct (H2 k) as (Hp' & Hn' & Hl' & Hc').
  repeat split; try congruence.
  intros c Hci. rewrite Hc', Hc by assumption. reflexivity.
Qed.

Lemma sameGraph_distUV i roadmap0 roadmap u v :
  sameGraph i roadmap0 roadmap -> distUV roadmap u v = distUV roadmap0 u v.
Proof.
  intros [_ Hsame]. unfold distUV.
  rewrite (proj1 (Hsame u)), (proj1 (Hsame v)). reflexivity.
Qed.

Lemma sameGraph_walk i roadmap0 roadmap g v c :
  sameGraph i roadmap0 roadmap -> walk roadmap0 g v c -> walk roadmap g v c.
Proof.
  intros Hsame Hw. induction Hw as [|u v c Hw IH Hv]; [constructor|].
  rewrite <- (sameGraph_distUV i roadmap0 roadmap) by assumption.
  econstructor; [eassumption|].
  destruct Hsame as [_ Hsame]. rewrite (proj1 (proj2 (Hsame u))). assumption.
Qed.

Lemma sameGraph_walk_back i roadmap0 roadmap g v c :
  sameGraph i roadmap0 roadmap -> walk roadmap g v c -> walk roadmap0 g v c.
Proof.
  intros Hsame Hw. induction Hw as [|u v c Hw IH Hv]; [constructor|].
  rewrite (sameGraph_distUV i roadmap0 roadmap) by assumption.
  econstructor; [eassumption|].
  destruct Hsame as [_ Hsame]. rewrite <- (proj1 (proj2 (Hsame u))). assumption.
Qed.

Lemma walk_cost_ge roadmap g v c :
  FloatLaws -> WeightLaws -> walk roadmap g v c -> Fle F0 c.
Proof.
  intros HF HW Hw. induction Hw as [|u v c Hw IH Hv]; [apply Fle_refl; assumption|].
  eapply (Fle_trans HF); [exact IH|]. apply (Fadd_vabs HW).
Qed.

Lemma walk_in_range i roadmap g v c :
  wfRoadmap i roadmap -> g < length roadmap -> walk roadmap g v c ->
  v < length roadmap.
Proof.
  intros (_ & Hnb & _) Hg Hw. destruct Hw as [|u v c Hw Hv]; [assumption|].
  eapply Hnb; eassumption.
Qed.

Lemma walk_finite roadmap g v c :
  finiteLengths roadmap -> walk roadmap g v c -> Fltb c Finf = true.
Proof.
  intros [H0 Hadd] Hw. induction Hw as [|u v c Hw IH Hv]; [exact H0|].
  apply Hadd. assumption.
Qed.

(** ** The priority queue *)

Lemma elem_of_qinsert k v (Q : Queue) x :
  x ∈ qinsert k v Q <-> x = (k, v) \/ x ∈ Q.
Proof.
  induction Q as [|[k' v'] Q IH]; simpl.
  - rewrite list_elem_of_singleton, elem_of_nil. tauto.
  - destruct (Fltb k k').
    + rewrite elem_of_cons. reflexivity.
    + rewrite !elem_of_cons, IH. tauto.
Qed.

Lemma qinsert_vertices k v (Q : Queue) :
  snd <$> qinsert k v Q ≡ₚ v :: (snd <$> Q).
Proof.
  induction Q as [|[k' v'] Q IH]; simpl; [reflexivity|].
  destruct (Fltb k k'); simpl; [reflexivity|].
  rewrite IH. apply Permutation_swap.
Qed.

Lemma qinsert_sorted k v (Q : Queue) :
  FloatLaws -> StronglySorted keyLe Q -> StronglySorted keyLe (qinsert k v Q).
Proof.
  intros HF HQ. induction HQ as [|[k' v'] Q HQ IH Hall]; simpl.
  - repeat constructor.
  - destruct (Fltb k k') eqn:Hlt.
    + constructor; [constructor; assumption|].
      assert (Hkk : Fle k k') by (apply Fltb_Fle; assumption).
      constructor; [exact Hkk|].
      eapply Forall_impl; [exact Hall|]. intros [k2 v2] H2. unfold keyLe in *; simpl in *.
      eapply (Fle_trans HF); eassumption.
    + constructor; [exact IH|].
      apply Forall_forall. intros x Hx. apply elem_of_qinsert in Hx as [->|Hx].
      * exact Hlt.
      * eapply (proj1 (Forall_forall _ _) Hall); assumption.
Qed.

Lemma qerase_spec v (Q : Queue) :
  NoDup (snd <$> Q) -> StronglySorted keyLe Q ->
  StronglySorted keyLe (qerase v Q) /\
  NoDup (snd <$> qerase v Q) /\
  (v ∉ snd <$> qerase v Q) /\
  (forall x, x ∈ qerase v Q -> x ∈ Q) /\
  (forall k' v', (k', v') ∈ Q -> v' <> v -> (k', v') ∈ qerase v Q).
Proof.
  intros Hnd HQ. induction HQ as [|[k1 v1] Q HQ IH Hall]; simpl.
  - repeat split; auto using NoDup_nil_2. { constructor. } apply not_elem_of_nil.
  - simpl in Hnd. apply NoDup_cons in Hnd as [Hv1 Hnd].
    destruct (Nat.eqb_spec v v1) as [->|Hne].
    + repeat split; auto.
      * intros x Hx. apply elem_of_cons. auto.
      * intros k' v' Hin Hv'.
        apply elem_of_cons in Hin as [Heq|Hin]; [congruence|assumption].
    + destruct (IH Hnd) as (Hs & Hn & Hv & Hsub & Hkeep).
      repeat split.
      * constructor; [assumption|]. apply Forall_forall. intros x Hx.
        eapply (proj1 (Forall_forall _ _) Hall). auto.
      * simpl. apply NoDup_cons. split; [|assumption].
        intros Hin. apply Hv1. apply list_elem_of_fmap in Hin as (x & -> & Hx).
        apply list_elem_of_fmap. eauto.
      * simpl. rewrite not_elem_of_cons. auto.
      * intros x Hx. apply elem_of_cons in Hx as [->|Hx]; apply elem_of_cons; auto.
      * intros k' v' Hin Hv'. apply elem_of_cons in Hin as [Heq|Hin];
          apply elem_of_cons; auto.
Qed.

(** ** One edge relaxation preserves the inner invariant *)

Lemma vertices_sub (Q1 Q : Queue) t :
  (forall x, x ∈ Q1 -> x ∈ Q) -> t ∈ snd <$> Q1 -> t ∈ snd <$> Q.
Proof.
  intros Hsub Hin. apply list_elem_of_fmap in Hin as (x & -> & Hx).
  apply list_elem_of_fmap. eauto.
Qed.

Lemma vertices_keep (Q1 Q : Queue) v t :
  (forall k' v', (k', v') ∈ Q -> v' <> v -> (k', v') ∈ Q1) ->
  t <> v -> t ∈ snd <$> Q -> t ∈ snd <$> Q1.
Proof.
  intros Hkeep Hne Hin. apply list_elem_of_fmap in Hin as ([k' t'] & -> & Hx).
  apply list_elem_of_fmap. exists (k', t'). split; [reflexivity|].
  apply Hkeep; assumption.
Qed.

Lemma relaxEdge_inv i roadmap0 settled u seen v st :
  FloatLaws -> WeightLaws -> wfRoadmap i roadmap0 ->
  RelaxInv i roadmap0 settled u seen st ->
  v ∈ neighbors (getVertex roadmap0 u) ->
  RelaxInv i roadmap0 settled u (seen ++ [v]) (relaxEdge i u v st).
Proof.
  intros HF HW Hwf [[Hg [Hsorted Hqnd Hentry Hlen Hpos] Hnd Hrange Hprov Hgoal]
                    Hrel Hseen Hbelow Habove] Hv.
  unfold relaxEdge.
  destruct (Fltb (Fadd (getDist (dsRoadmap st) u i) (distUV (dsRoadmap st) u v))
                 (getDist (dsRoadmap st) v i)) eqn:Hlt.
  2:{ constructor; try assumption.
      - constructor; try assumption. constructor; assumption.
      - intros t Ht. apply elem_of_app in Ht as [Ht|Ht]; [apply Hseen; assumption|].
        apply list_elem_of_singleton in Ht as ->. exact Hlt. }
  set (roadmap := dsRoadmap st) in *.
  set (x := Fadd (getDist roadmap u i) (distUV roadmap u v)) in *.
  assert (Hvn : v < length roadmap0) by (eapply (proj1 (proj2 Hwf)); eassumption).
  assert (Hun : u < length roadmap0) by (apply Hrange; left).
  assert (Hux : Fle (getDist roadmap u i) x) by apply (Fadd_vabs HW).
  assert (Hxv : Fle x (getDist roadmap v i)) by (apply Fltb_Fle; assumption).
  assert (Hvu : v <> u).
  { intros ->. eapply Fle_not_Fltb; eassumption. }
  assert (Hvs : v ∉ settled).
  { intros Hin. eapply Fle_not_Fltb; [|exact Hlt].
    eapply (Fle_trans HF); [apply Hbelow; exact Hin|exact Hux]. }
  assert (Hwu : walk roadmap0 i u (getDist roadmap u i)).
  { destruct (Hprov u Hun) as [(_ & Hnu & _)|[Hw _]]; [|exact Hw].
    exfalso. apply Hnu. left. }
  assert (Hvi : v <> i).
  { intros ->. eapply Fle_not_Fltb; [|exact Hlt]. rewrite Hgoal.
    eapply (Fle_trans HF); [|exact Hux]. eapply walk_cost_ge; eassumption. }
  assert (Hlenrm : length roadmap = length roadmap0) by apply Hg.
  assert (Hcol : i < length (distToGoal (getVertex roadmap v))).
  { rewrite (proj1 (proj2 (proj2 (proj2 Hg v)))). apply Hwf. assumption. }
  assert (Hd_v : getDist (setDist roadmap v i x) v i = x).
  { apply getDist_setDist_eq; [lia|assumption]. }
  assert (Hd_ne : forall t, t <> v ->
            getDist (setDist roadmap v i x) t i = getDist roadmap t i).
  { intros t Ht. apply getDist_setDist_ne. auto. }
  rewrite Hd_v.
  assert (HQ1 : exists Q1,
    (if negb (default false (dsPosInQ st !! v))
     then mkDijkstraState (setDist roadmap v i x) (qinsert x v (dsQ st))
            (<[v:=true]> (dsPosInQ st))
     else mkDijkstraState (setDist roadmap v i x) (qinsert x v (qerase v (dsQ st)))
            (<[v:=true]> (dsPosInQ st))) =
    mkDijkstraState (setDist roadmap v i x) (qinsert x v Q1)
      (<[v:=true]> (dsPosInQ st)) /\
    StronglySorted keyLe Q1 /\ NoDup (snd <$> Q1) /\ (v ∉ snd <$> Q1) /\
    (forall y, y ∈ Q1 -> y ∈ dsQ st) /\
    (forall k' v', (k', v') ∈ dsQ st -> v' <> v -> (k', v') ∈ Q1)).
  { destruct (default false (dsPosInQ st !! v)) eqn:HP; simpl.
    - exists (qerase v (dsQ st)). split; [reflexivity|]. apply qerase_spec; assumption.
    - exists (dsQ st). split; [reflexivity|]. repeat split; auto.
      intros Hin. apply Hpos in Hin. rewrite Hin in HP. discriminate. }
  destruct HQ1 as (Q1 & -> & Hs1 & Hn1 & Hv1 & Hsub & Hkeep).
  constructor; simpl.
  - constructor; simpl.
    + apply sameGraph_setDist. assumption.
    + constructor; simpl.
      * apply qinsert_sorted; assumption.
      * rewrite qinsert_vertices. apply NoDup_cons. split; assumption.
      * intros k t Hin. apply elem_of_qinsert in Hin as [Heq|Hin].
        -- inversion Heq; subst k t. rewrite Hd_v.
           split; [reflexivity|]. split; [assumption|].
           rewrite not_elem_of_cons. split; assumption.
        -- assert (Htv : t <> v).
           { intros ->. apply Hv1. apply list_elem_of_fmap. exists (k, v). split; auto. }
           rewrite Hd_ne by assumption. apply Hentry, Hsub, Hin.
      * rewrite length_insert. assumption.
      * intros t. destruct (decide (t = v)) as [->|Hne].
        -- rewrite list_lookup_insert_eq by lia.
           split; [intros _|reflexivity].
           rewrite qinsert_vertices. apply elem_of_cons. left. reflexivity.
        -- rewrite list_lookup_insert_ne by congruence.
           rewrite Hpos, qinsert_vertices, elem_of_cons. split.
           ++ intros Hin. right. eapply vertices_keep; eassumption.
           ++ intros [?|Hin]; [congruence|]. eapply vertices_sub; eassumption.
    + assumption.
    + assumption.
    + intros t Ht. destruct (decide (t = v)) as [->|Hne].
      * right. rewrite Hd_v. split.
        -- unfold x. rewrite (sameGraph_distUV i roadmap0 roadmap) by assumption.
           econstructor; eassumption.
        -- right. rewrite qinsert_vertices. apply elem_of_cons. left. reflexivity.
      * rewrite Hd_ne by assumption.
        destruct (Hprov t Ht) as [(Hinf & Hns & Hnq)|[Hw Hin]].
        -- left. split; [assumption|]. split; [assumption|].
           rewrite qinsert_vertices, not_elem_of_cons. split; [assumption|].
           intros Hin. apply Hnq. eapply vertices_sub; eassumption.
        -- right. split; [assumption|].
           destruct Hin as [Hin|Hin]; [left; assumption|right].
           rewrite qinsert_vertices. apply elem_of_cons. right.
           eapply vertices_keep; eassumption.
    + rewrite Hd_ne by congruence. assumption.
  - intros s Hs t Ht. rewrite distUV_setDist.
    assert (Hsv : s <> v) by (intros ->; contradiction).
    rewrite (Hd_ne s) by assumption.
    destruct (decide (t = v)) as [->|Hne].
    + rewrite Hd_v. eapply (Fle_trans HF); [exact Hxv|]. apply Hrel; assumption.
    + rewrite Hd_ne by assumption. apply Hrel; assumption.
  - intros t Ht. rewrite distUV_setDist, (Hd_ne u) by congruence.
    apply elem_of_app in Ht as [Ht|Ht].
    + destruct (decide (t = v)) as [->|Hne].
      * rewrite Hd_v. eapply (Fle_trans HF); [exact Hxv|]. apply Hseen; assumption.
      * rewrite Hd_ne by assumption. apply Hseen; assumption.
    + apply list_elem_of_singleton in Ht as ->. rewrite Hd_v. apply Fle_refl; assumption.
  - intros s Hs. assert (Hsv : s <> v) by (intros ->; contradiction).
    rewrite !Hd_ne by congruence. apply Hbelow; assumption.
  - intros k t Hin. rewrite Hd_ne by congruence.
    apply elem_of_qinsert in Hin as [Heq|Hin].
    + inversion Heq; subst. exact Hux.
    + eapply Habove, Hsub, Hin.
Qed.

(** ** The loops of one run *)

Lemma relaxNeighbors_inv i roadmap0 settled u vs seen st :
  FloatLaws -> WeightLaws -> wfRoadmap i roadmap0 ->
  RelaxInv i roadmap0 settled u seen st ->
  (forall v, v ∈ vs -> v ∈ neighbors (getVertex roadmap0 u)) ->
  RelaxInv i roadmap0 settled u (seen ++ vs) (relaxNeighbors i u vs st).
Proof.
  intros HF HW Hwf. revert seen st.
  induction vs as [|v vs IH]; intros seen st Hinv Hvs; simpl.
  - rewrite app_nil_r. assumption.
  - replace (seen ++ v :: vs) with ((seen ++ [v]) ++ vs)
      by (rewrite <- app_assoc; reflexivity).
    apply IH.
    + apply relaxEdge_inv; try assumption. apply Hvs. left.
    + intros t Ht. apply Hvs. right. assumption.
Qed.

Lemma pop_inv i roadmap0 settled st k u Q' :
  FloatLaws ->
  LoopInv i roadmap0 settled st -> dsQ st = (k, u) :: Q' ->
  RelaxInv i roadmap0 settled u []
    (mkDijkstraState (dsRoadmap st) Q' (<[u:=false]> (dsPosInQ st))).
Proof.
  intros HF [[Hg [Hsorted Hqnd Hentry Hlen Hpos] Hnd Hrange Hprov Hgoal] Hrel Hbelow] HQ.
  rewrite HQ in *. simpl in Hqnd.
  apply NoDup_cons in Hqnd as [HuQ Hqnd].
  apply StronglySorted_inv in Hsorted as [Hsorted Hall].
  destruct (Hentry k u) as (Hk & Hun & Hus); [left|].
  assert (Hne : forall k' t, (k', t) ∈ Q' -> t <> u).
  { intros k' t Hin ->. apply HuQ. apply list_elem_of_fmap. exists (k', u). auto. }
  constructor; simpl.
  - constructor; simpl.
    + assumption.
    + constructor; simpl.
      * assumption.
      * assumption.
      * intros k' t Hin. destruct (Hentry k' t) as (Hk' & Ht & Hts); [right; assumption|].
        split; [assumption|]. split; [assumption|].
        rewrite not_elem_of_cons. split; [|assumption]. eapply Hne; eassumption.
      * rewrite length_insert. assumption.
      * intros t. destruct (decide (t = u)) as [->|Htu].
        -- rewrite list_lookup_insert_eq by lia. split; [discriminate|]. contradiction.
        -- rewrite list_lookup_insert_ne by congruence. rewrite Hpos. simpl.
           rewrite elem_of_cons. split; [intros [?|?]; [contradiction|assumption]|auto].
    + apply NoDup_cons. split; assumption.
    + intros t Ht. apply elem_of_cons in Ht as [->|Ht]; [assumption|auto].
    + intros t Ht. destruct (Hprov t Ht) as [(Hinf & Hns & Hnq)|[Hw Hin]].
      * left. simpl in Hnq. rewrite not_elem_of_cons in Hnq. destruct Hnq as [Htu Hnq].
        split; [assumption|]. split; [|assumption].
        rewrite not_elem_of_cons. split; assumption.
      * right. split; [assumption|]. simpl in Hin. rewrite !elem_of_cons in *.
        destruct Hin as [Hin|[->|Hin]]; auto.
    + assumption.
  - assumption.
  - intros t Ht. apply elem_of_nil in Ht. destruct Ht.
  - intros s Hs. rewrite <- Hk. eapply Hbelow; [eassumption|left].
  - intros k' t Hin. rewrite <- Hk.
    apply (proj1 (Forall_forall _ _) Hall (k', t)). assumption.
Qed.

Lemma settle_inv i roadmap0 settled u st :
  FloatLaws ->
  RelaxInv i roadmap0 settled u (neighbors (getVertex roadmap0 u)) st ->
  LoopInv i roadmap0 (u :: settled) st.
Proof.
  intros HF [Hcore Hrel Hseen Hbelow Habove]. constructor.
  - assumption.
  - intros s Hs. apply elem_of_cons in Hs as [->|Hs]; [assumption|auto].
  - intros s k v Hs Hin. apply elem_of_cons in Hs as [->|Hs].
    + eapply Habove; eassumption.
    + eapply (Fle_trans HF); [apply Hbelow; assumption|eapply Habove; eassumption].
Qed.

Lemma settled_bound n (settled : list nat) :
  NoDup settled -> (forall u, u ∈ settled -> u < n) -> length settled <= n.
Proof.
  intros Hnd Hrange. rewrite <- (length_seq n 0).
  apply NoDup_incl_length; [apply NoDup_ListNoDup; assumption|].
  intros u Hu. apply in_seq. apply list_elem_of_In, Hrange in Hu. lia.
Qed.

Lemma dijkstraLoop_inv i roadmap0 fuel settled st :
  FloatLaws -> WeightLaws -> wfRoadmap i roadmap0 ->
  LoopInv i roadmap0 settled st ->
  length roadmap0 <= fuel + length settled ->
  exists settled' st',
    dijkstraLoop fuel i st = Some st' /\
    LoopInv i roadmap0 settled' st' /\ dsQ st' = [].
Proof.
  intros HF HW Hwf. revert settled st.
  induction fuel as [|fuel IH]; intros settled st Hinv Hfuel.
  - destruct (dsQ st) as [|[k u] Q'] eqn:HQ.
    + exists settled, st. simpl. rewrite HQ. auto.
    + exfalso. pose proof (pop_inv _ _ _ _ _ _ _ HF Hinv HQ) as [Hcore _ _ _ _].
      pose proof (settled_bound (length roadmap0) (u :: settled)
                    (core_nodup _ _ _ _ Hcore) (core_range _ _ _ _ Hcore)) as Hb.
      simpl in *. lia.
  - destruct (dsQ st) as [|[k u] Q'] eqn:HQ.
    + exists settled, st. simpl. rewrite HQ. auto.
    + simpl. rewrite HQ.
      pose proof (pop_inv _ _ _ _ _ _ _ HF Hinv HQ) as Hpop.
      assert (Hnb : neighbors (getVertex (dsRoadmap st) u) =
                    neighbors (getVertex roadmap0 u)).
      { apply (proj2 (core_graph _ _ _ _ (li_core _ _ _ _ Hinv))). }
      rewrite Hnb.
      apply (IH (u :: settled)).
      * apply settle_inv; [assumption|].
        apply (relaxNeighbors_inv i roadmap0 settled u _ [] _ HF HW Hwf Hpop).
        auto.
      * simpl. lia.
Qed.

(** ** One run from a goal *)

Lemma dijkstraInit_inv i roadmap0 :
  FloatLaws -> wfRoadmap i roadmap0 ->
  (forall v, v < length roadmap0 -> getDist roadmap0 v i = Finf) ->
  LoopInv i roadmap0 [] (dijkstraInit i roadmap0).
Proof.
  intros HF (Hi & Hnb & Hcol) Hinf. unfold dijkstraInit; simpl.
  assert (Hii : getDist (setDist roadmap0 i i F0) i i = F0)
    by (apply getDist_setDist_eq; auto).
  constructor; simpl.
  - constructor; simpl.
    + apply sameGraph_setDist, sameGraph_refl.
    + constructor; simpl.
      * repeat constructor.
      * apply NoDup_singleton.
      * intros k v Hin. apply list_elem_of_singleton in Hin. inversion Hin; subst.
        rewrite Hii. split; [reflexivity|]. split; [assumption|apply not_elem_of_nil].
      * rewrite length_insert, length_replicate. reflexivity.
      * intros v. rewrite list_elem_of_singleton.
        destruct (decide (v = i)) as [->|Hne].
        -- rewrite list_lookup_insert_eq by (rewrite length_replicate; assumption).
           split; reflexivity.
        -- rewrite list_lookup_insert_ne by congruence.
           rewrite lookup_replicate. split; [intros [? _]; discriminate|contradiction].
    + apply NoDup_nil_2.
    + intros u Hu. apply elem_of_nil in Hu. destruct Hu.
    + intros v Hv. destruct (decide (v = i)) as [->|Hne].
      * right. rewrite Hii. split; [constructor|]. right.
        apply list_elem_of_singleton. reflexivity.
      * left. rewrite getDist_setDist_ne by auto.
        split; [auto|]. split; [apply not_elem_of_nil|].
        rewrite list_elem_of_singleton. assumption.
    + assumption.
  - intros u Hu. apply elem_of_nil in Hu. destruct Hu.
  - intros u k v Hu. apply elem_of_nil in Hu. destruct Hu.
Qed.

Lemma LoopInv_final i roadmap0 settled st :
  FloatLaws -> WeightLaws -> wfRoadmap i roadmap0 ->
  LoopInv i roadmap0 settled st -> dsQ st = [] ->
  GoalSpec i roadmap0 (dsRoadmap st).
Proof.
  intros HF HW Hwf [[Hg _ _ _ Hprov Hgoal] Hrel _] HQ. constructor.
  - assumption.
  - intros v c Hw. induction Hw as [|u v c Hw IH Hv].
    + rewrite Hgoal. apply Fle_refl. assumption.
    + assert (Hu : u < length roadmap0).
      { eapply walk_in_range; [eassumption|apply Hwf|eassumption]. }
      destruct (Hprov u Hu) as [(Hinf & _ & _)|[_ [Hs|Hq]]].
      * eapply (Fle_trans HF); [apply (Fle_inf HF)|].
        rewrite <- Hinf. eapply (Fle_trans HF); [exact IH|]. apply (Fadd_vabs HW).
      * eapply (Fle_trans HF).
        -- apply (Hrel u Hs v Hv).
        -- rewrite (sameGraph_distUV i roadmap0) by assumption.
           apply (Fadd_mono HF). assumption.
      * rewrite HQ in Hq. apply elem_of_nil in Hq. destruct Hq.
  - intros v Hv. destruct (Hprov v Hv) as [(Hinf & _ & _)|[Hw _]]; auto.
Qed.

Lemma dijkstraFromGoal_spec i roadmap0 fuel :
  FloatLaws -> WeightLaws -> wfRoadmap i roadmap0 ->
  (forall v, v < length roadmap0 -> getDist roadmap0 v i = Finf) ->
  length roadmap0 <= fuel ->
  exists roadmap,
    dijkstraFromGoal fuel i roadmap0 = Some roadmap /\
    sameGraph i roadmap0 roadmap /\ GoalSpec i roadmap0 roadmap.
Proof.
  intros HF HW Hwf Hinf Hfuel.
  destruct (dijkstraLoop_inv i roadmap0 fuel [] (dijkstraInit i roadmap0) HF HW Hwf)
    as (settled & st & Hrun & Hinv & HQ).
  - apply dijkstraInit_inv; assumption.
  - simpl. lia.
  - exists (dsRoadmap st). unfold dijkstraFromGoal. rewrite Hrun. simpl.
    split; [reflexivity|]. split.
    + apply Hinv.
    + eapply LoopInv_final; eassumption.
Qed.

(** ** All four runs *)

Lemma sameExcept_refl ids roadmap : sameExcept ids roadmap roadmap.
Proof. split; [reflexivity|]. intros v. auto. Qed.

Lemma sameGraph_sameExcept i ids roadmap0 roadmap1 roadmap :
  sameGraph i roadmap0 roadmap1 -> sameExcept ids roadmap1 roadmap ->
  sameExcept (i :: ids) roadmap0 roadmap.
Proof.
  intros [Hlen1 H1] [Hlen2 H2]. split; [congruence|].
  intros k. destruct (H1 k) as (Hp & Hn & Hl & Hc).
  destruct (H2 k) as (Hp' & Hn' & Hl' & Hc').
  repeat split; try congruence.
  intros c Hci. apply not_elem_of_cons in Hci as [Hci Hcids].
  rewrite Hc', Hc by assumption. reflexivity.
Qed.

Lemma sameExcept_walk ids roadmap0 roadmap g v c :
  sameExcept ids roadmap0 roadmap ->
  walk roadmap0 g v c <-> walk roadmap g v c.
Proof.
  intros [_ Hsame].
  assert (Hd : forall a b, distUV roadmap a b = distUV roadmap0 a b).
  { intros a b. unfold distUV.
    rewrite (proj1 (Hsame a)), (proj1 (Hsame b)). reflexivity. }
  split; intros Hw; induction Hw as [|u w c Hw IH Hv]; try constructor.
  - rewrite <- Hd. econstructor; [eassumption|].
    rewrite (proj1 (proj2 (Hsame u))). assumption.
  - rewrite Hd. econstructor; [eassumption|].
    rewrite <- (proj1 (proj2 (Hsame u))). assumption.
Qed.

Lemma sameGraph_wfRoadmap i j roadmap0 roadmap :
  sameGraph i roadmap0 roadmap -> wfRoadmap j roadmap0 -> wfRoadmap j roadmap.
Proof.
  intros [Hlen Hsame] (Hj & Hnb & Hcol). unfold wfRoadmap. rewrite Hlen.
  split; [assumption|]. split.
  - intros u v. rewrite (proj1 (proj2 (Hsame u))). apply Hnb.
  - intros v Hv. rewrite (proj1 (proj2 (proj2 (Hsame v)))). auto.
Qed.

Lemma shortestPaths_spec fuel ids roadmap0 :
  FloatLaws -> WeightLaws -> NoDup ids ->
  (forall i, i ∈ ids ->
     wfRoadmap i roadmap0 /\
     forall v, v < length roadmap0 -> getDist roadmap0 v i = Finf) ->
  length roadmap0 <= fuel ->
  exists roadmap,
    shortestPaths fuel roadmap0 ids = Some roadmap /\
    sameExcept ids roadmap0 roadmap /\
    forall i, i ∈ ids -> GoalSpec i roadmap0 roadmap.
Proof.
  intros HF HW. revert roadmap0.
  induction ids as [|i ids IH]; intros roadmap0 Hnd Hpre Hfuel; simpl.
  - exists roadmap0. split; [reflexivity|]. split; [apply sameExcept_refl|].
    intros i Hi. apply elem_of_nil in Hi. destruct Hi.
  - apply NoDup_cons in Hnd as [Hi Hnd].
    destruct (Hpre i) as [Hwf Hinf]; [left|].
    destruct (dijkstraFromGoal_spec i roadmap0 fuel HF HW Hwf Hinf Hfuel)
      as (roadmap1 & -> & Hsame1 & Hspec1).
    destruct (IH roadmap1 Hnd) as (roadmap & Hrun & Hsame & Hspec).
    + intros j Hj. destruct (Hpre j) as [Hwfj Hinfj]; [right; assumption|].
      split; [eapply sameGraph_wfRoadmap; eassumption|].
      intros v Hv. rewrite (proj1 Hsame1) in Hv.
      rewrite (proj2 (proj2 (proj2 (proj2 Hsame1 v)))); [auto|].
      intros ->. contradiction.
    + rewrite (proj1 Hsame1). assumption.
    + exists roadmap. split; [assumption|]. split.
      * eapply sameGraph_sameExcept; eassumption.
      * intros j Hj. apply elem_of_cons in Hj as [->|Hj].
        -- assert (Hcol : forall v, getDist roadmap v i = getDist roadmap1 v i).
           { intros v. apply (proj2 Hsame v). assumption. }
           destruct Hspec1 as [Hg Hl Hp]. constructor.
           ++ rewrite Hcol. assumption.
           ++ intros v c Hw. rewrite Hcol. auto.
           ++ intros v Hv. rewrite Hcol. auto.
        -- destruct (Hspec j Hj) as [Hg Hl Hp]. constructor.
           ++ assumption.
           ++ intros v c Hw. apply Hl. eapply sameGraph_walk; eassumption.
           ++ intros v Hv. rewrite <- (proj1 Hsame1) in Hv.
              destruct (Hp v Hv) as [?|Hw]; [left; assumption|right].
              eapply sameGraph_walk_back; eassumption.
Qed.

(** ** buildRoadmap as a whole *)

Lemma fresh_getVertex roadmap v :
  Forall freshVertex roadmap ->
  neighbors (getVertex roadmap v) = [] /\ distToGoal (getVertex roadmap v) = [].
Proof.
  intros Hfresh. unfold getVertex. destruct (roadmap !! v) as [r|] eqn:Hr; simpl.
  - apply (proj1 (Forall_lookup _ _) Hfresh _ _ Hr).
  - auto.
Qed.

Lemma connected_length simulator roadmap :
  length (connected simulator roadmap) = length roadmap.
Proof. apply connectRoadmap_length. Qed.

Lemma connected_getDist simulator roadmap v i :
  Forall freshVertex roadmap ->
  getDist (connected simulator roadmap) v i = Finf.
Proof.
  intros Hfresh. unfold getDist.
  destruct (decide (v < length roadmap)) as [Hv|Hv].
  - rewrite connected_vertex by assumption.
    unfold builtVertex, resizeDist, resize; simpl.
    rewrite (proj2 (fresh_getVertex roadmap v Hfresh)). simpl.
    do 4 (destruct i as [|i]; [reflexivity|]). reflexivity.
  - assert (Hnone : connected simulator roadmap !! v = None).
    { apply lookup_ge_None_2. rewrite connected_length. lia. }
    unfold getVertex. rewrite Hnone. reflexivity.
Qed.

Lemma connected_wfRoadmap simulator roadmap i :
  Forall freshVertex roadmap -> i < 4 -> 4 <= length roadmap ->
  wfRoadmap i (connected simulator roadmap).
Proof.
  intros Hfresh Hi Hn. unfold wfRoadmap. rewrite connected_length.
  split; [lia|]. split.
  - intros u v Hv. destruct (decide (u < length roadmap)) as [Hu|Hu].
    + apply list_elem_of_In, connected_neighbors in Hv; [apply Hv|assumption|assumption].
    + assert (Hnone : connected simulator roadmap !! u = None).
      { apply lookup_ge_None_2. rewrite connected_length. lia. }
      unfold getVertex in Hv. rewrite Hnone in Hv.
      apply elem_of_nil in Hv. destruct Hv.
  - intros v Hv. rewrite connected_vertex by assumption.
    unfold builtVertex, resizeDist, resize; simpl.
    rewrite (proj2 (fresh_getVertex roadmap v Hfresh)). simpl. lia.
Qed.

Lemma connected_finiteLengths simulator roadmap :
  finiteLengths roadmap -> finiteLengths (connected simulator roadmap).
Proof.
  intros [H0 Hadd]. split; [exact H0|]. intros a u v Ha.
  unfold distUV, connected. rewrite !position_getVertex, connectRoadmap_positions.
  rewrite <- !position_getVertex. apply Hadd. assumption.
Qed.

Lemma buildRoadmap_spec fuel simulator roadmap :
  FloatLaws -> WeightLaws ->
  Forall freshVertex roadmap -> 4 <= length roadmap -> length roadmap <= fuel ->
  exists roadmap',
    buildRoadmap fuel simulator roadmap = Some roadmap' /\
    sameExcept (seq 0 4) (connected simulator roadmap) roadmap' /\
    forall g, g < 4 -> GoalSpec g (connected simulator roadmap) roadmap'.
Proof.
  intros HF HW Hfresh Hn Hfuel.
  destruct (shortestPaths_spec fuel (seq 0 4) (connected simulator roadmap) HF HW)
    as (roadmap' & Hrun & Hsame & Hspec).
  - apply NoDup_seq.
  - intros i Hi. apply elem_of_seq in Hi. split.
    + apply connected_wfRoadmap; [assumption|lia|assumption].
    + intros v _. apply connected_getDist. assumption.
  - rewrite connected_length. assumption.
  - exists roadmap'. split; [exact Hrun|]. split; [assumption|].
    intros g Hg. apply Hspec. apply elem_of_seq. lia.
Qed.

(** ** The vertex selection of the steering policy *)

Lemma selectVertex_inv simulator roadmap goals i len a st :
  FloatLaws ->
  SelectInv simulator roadmap goals i a st ->
  SelectInv simulator roadmap goals i (a + len)
    (selectVertex simulator roadmap goals i (seq a len) st).
Proof.
  intros HF. revert a st. induction len as [|len IH]; intros a st Hinv; simpl.
  - rewrite Nat.add_0_r. assumption.
  - replace (a + S len) with (S a + len) by lia. apply IH. clear IH.
    destruct Hinv as [[-> Hnone]|(m & Hm & -> & Hsees & Hfin & Hmin & Hfirst)]; simpl.
    + destruct (Fltb (vertexCost simulator roadmap goals i a) Finf) eqn:Hlt; simpl.
      * destruct (agentSees simulator roadmap i a) eqn:Ha.
        -- right. exists a. split; [lia|]. split; [reflexivity|].
           split; [assumption|]. split; [assumption|]. split.
           ++ intros k Hk Hsk. destruct (decide (k = a)) as [->|Hne].
              ** apply Fle_refl; assumption.
              ** eapply (Fle_trans HF); [apply (Fle_inf HF)|].
                 apply Hnone; [lia|assumption].
           ++ intros k Hk Hsk. eapply Fltb_Fle_trans; [assumption|eassumption|].
              apply Hnone; [lia|assumption].
        -- left. split; [reflexivity|]. intros k Hk Hsk.
           destruct (decide (k = a)) as [->|Hne]; [congruence|].
           apply Hnone; [lia|assumption].
      * left. split; [reflexivity|]. intros k Hk Hsk.
        destruct (decide (k = a)) as [->|Hne]; [assumption|].
        apply Hnone; [lia|assumption].
    + destruct (Fltb (vertexCost simulator roadmap goals i a)
                     (vertexCost simulator roadmap goals i m)) eqn:Hlt; simpl.
      * destruct (agentSees simulator roadmap i a) eqn:Ha.
        -- right. exists a. split; [lia|]. split; [reflexivity|].
           split; [assumption|]. split; [eapply (Fltb_trans HF); eassumption|]. split.
           ++ intros k Hk Hsk. destruct (decide (k = a)) as [->|Hne].
              ** apply Fle_refl; assumption.
              ** eapply (Fle_trans HF); [apply Fltb_Fle; eassumption|].
                 apply Hmin; [lia|assumption].
           ++ intros k Hk Hsk. eapply Fltb_Fle_trans; [assumption|eassumption|].
              apply Hmin; [lia|assumption].
        -- right. exists m. split; [lia|]. split; [reflexivity|].
           split; [assumption|]. split; [assumption|]. split; [|assumption].
           intros k Hk Hsk. destruct (decide (k = a)) as [->|Hne]; [congruence|].
           apply Hmin; [lia|assumption].
      * right. exists m. split; [lia|]. split; [reflexivity|].
        split; [assumption|]. split; [assumption|]. split; [|assumption].
        intros k Hk Hsk. destruct (decide (k = a)) as [->|Hne]; [assumption|].
        apply Hmin; [lia|assumption].
Qed.

Lemma minVertexOf_inv simulator roadmap goals i :
  FloatLaws ->
  SelectInv simulator roadmap goals i (length roadmap)
    (selectVertex simulator roadmap goals i (seq 0 (length roadmap))
       (Finf, (-1)%Z)).
Proof.
  intros HF. apply (selectVertex_inv simulator roadmap goals i (length roadmap) 0).
  - assumption.
  - left. split; [reflexivity|]. intros k Hk. lia.
Qed.

Lemma selectVertex_blind simulator roadmap goals i js st :
  (forall k, k ∈ js -> agentSees simulator roadmap i k = false) ->
  selectVertex simulator roadmap goals i js st = st.
Proof.
  revert st. induction js as [|j js IH]; intros st Hblind; simpl; [reflexivity|].
  rewrite (Hblind j) by left. rewrite andb_false_r.
  apply IH. intros k Hk. apply Hblind. right. assumption.
Qed.

(** ** The termination test *)

Lemma reachedGoalLoop_true simulator roadmap goals ids :
  reachedGoalLoop simulator roadmap goals ids = true <->
  forall i, i ∈ ids ->
    Fle (vabsSq (vsub (getAgentPosition simulator i)
                      (position (getVertex roadmap (goalOf goals i))))) F400.
Proof.
  induction ids as [|i ids IH]; simpl.
  - split; [|reflexivity]. intros _ i Hi. apply elem_of_nil in Hi. destruct Hi.
  - destruct (Fltb F400 _) eqn:Hlt.
    + split; [discriminate|]. intros Hall.
      specialize (Hall i (list_elem_of_here _ _)). unfold Fle in Hall. congruence.
    + rewrite IH. split.
      * intros Hall j Hj. apply elem_of_cons in Hj as [->|Hj]; [exact Hlt|auto].
      * intros Hall j Hj. apply Hall. right. assumption.
Qed.

(** ** The branches of the steering policy *)

Lemma steer_none simulator roadmap goals i :
  minVertexOf simulator roadmap goals i = (-1)%Z ->
  steer simulator roadmap goals i = vzero.
Proof. intros Hmin. unfold steer. rewrite Hmin. reflexivity. Qed.

Lemma steer_arrived simulator roadmap goals i :
  minVertexOf simulator roadmap goals i = Z.of_nat (goalOf goals i) ->
  Feqb (vabsSq (vsub (position (getVertex roadmap (goalOf goals i)))
                     (getAgentPosition simulator i))) F0 = true ->
  steer simulator roadmap goals i = vzero.
Proof.
  intros Hmin Hzero. unfold steer. rewrite Hmin, Nat2Z.id, Hzero, Z.eqb_refl.
  destruct (Z.eqb_spec (Z.of_nat (goalOf goals i)) (-1)); [lia|reflexivity].
Qed.

Lemma steer_on_vertex simulator roadmap goals i m :
  minVertexOf simulator roadmap goals i = Z.of_nat m ->
  Feqb (vabsSq (vsub (position (getVertex roadmap m))
                     (getAgentPosition simulator i))) F0 = true ->
  m <> goalOf goals i ->
  steer simulator roadmap goals i =
  normalize (vsub (position (getVertex roadmap (goalOf goals i)))
                  (getAgentPosition simulator i)).
Proof.
  intros Hmin Hzero Hne. unfold steer. rewrite Hmin, Nat2Z.id, Hzero.
  destruct (Z.eqb_spec (Z.of_nat m) (-1)); [lia|].
  destruct (Z.eqb_spec (Z.of_nat m) (Z.of_nat (goalOf goals i))); [lia|reflexivity].
Qed.

Lemma steer_toward_vertex simulator roadmap goals i m :
  minVertexOf simulator roadmap goals i = Z.of_nat m ->
  Feqb (vabsSq (vsub (position (getVertex roadmap m))
                     (getAgentPosition simulator i))) F0 = false ->
  steer simulator roadmap goals i =
  normalize (vsub (position (getVertex roadmap m)) (getAgentPosition simulator i)).
Proof.
  intros Hmin Hzero. unfold steer. rewrite Hmin, Nat2Z.id, Hzero.
  destruct (Z.eqb_spec (Z.of_nat m) (-1)); [lia|reflexivity].
Qed.

(** The selection is determined: a visible vertex of least value, below
    [infinity], that is strictly cheaper than every visible vertex before
    it, is the selected one. *)
Lemma minVertexOf_least simulator roadmap goals i g :
  FloatLaws ->
  g < length roadmap ->
  agentSees simulator roadmap i g = true ->
  Fltb (vertexCost simulator roadmap goals i g) Finf = true ->
  (forall k, k < length roadmap -> agentSees simulator roadmap i k = true ->
     Fle (vertexCost simulator roadmap goals i g)
         (vertexCost simulator roadmap goals i k)) ->
  (forall k, k < g -> agentSees simulator roadmap i k = true ->
     Fltb (vertexCost simulator roadmap goals i g)
          (vertexCost simulator roadmap goals i k) = true) ->
  minVertexOf simulator roadmap goals i = Z.of_nat g.
Proof.
  intros HF Hg Hsees Hfin Hmin Hfirst. unfold minVertexOf.
  destruct (minVertexOf_inv simulator roadmap goals i HF)
    as [[_ Hnone]|(m & Hm & -> & Hsm & _ & Hmin' & Hfirst')]; simpl.
  - rewrite (Hnone g Hg Hsees) in Hfin. discriminate.
  - f_equal. destruct (Nat.lt_trichotomy m g) as [Hlt|[Heq|Hgt]]; [|assumption|].
    + exfalso. eapply Fle_not_Fltb; [apply (Hmin' g Hg Hsees)|].
      apply Hfirst; assumption.
    + exfalso. eapply Fle_not_Fltb; [apply (Hmin m Hm Hsm)|].
      apply Hfirst'; assumption.
Qed.

(** X10. An agent on its goal vertex gets the zero vector when the goal
    vertex is the selected one: it is visible, its value is below [infinity] and
    least, and every visible vertex before it has a greater value. *)
Lemma steer_at_goal simulator roadmap goals i :
  FloatLaws ->
  goalOf goals i < length roadmap ->
  Feqb (vabsSq (vsub (position (getVertex roadmap (goalOf goals i)))
                     (getAgentPosition simulator i))) F0 = true ->
  agentSees simulator roadmap i (goalOf goals i) = true ->
  Fltb (vertexCost simulator roadmap goals i (goalOf goals i)) Finf = true ->
  (forall k, k < length roadmap -> agentSees simulator roadmap i k = true ->
     Fle (vertexCost simulator roadmap goals i (goalOf goals i))
         (vertexCost simulator roadmap goals i k)) ->
  (forall k, k < goalOf goals i -> agentSees simulator roadmap i k = true ->
     Fltb (vertexCost simulator roadmap goals i (goalOf goals i))
          (vertexCost simulator roadmap goals i k) = true) ->
  steer simulator roadmap goals i = vzero.
Proof.
  intros HF Hg Hon Hsees Hfin Hmin Hfirst.
  apply steer_arrived; [|assumption].
  apply minVertexOf_least; assumption.
Qed.

(** X11. Away from the one unguarded call (the selected vertex and the goal
    both lie on the agent, and the selected vertex is not the goal), the
    output is no longer than [speed], provided the zero vector is not and
    [normalize] of a vector that is not zero is not. *)
Lemma steer_magnitude simulator roadmap goals i speed :
  FloatLaws ->
  Fle (vabs vzero) speed ->
  (forall v, Feqb (vabsSq v) F0 = false -> Fle (vabs (normalize v)) speed) ->
  (forall m, minVertexOf simulator roadmap goals i = Z.of_nat m ->
     m <> goalOf goals i ->
     Feqb (vabsSq (vsub (position (getVertex roadmap m))
                        (getAgentPosition simulator i))) F0 = true ->
     Feqb (vabsSq (vsub (position (getVertex roadmap (goalOf goals i)))
                        (getAgentPosition simulator i))) F0 = false) ->
  Fle (vabs (steer simulator roadmap goals i)) speed.
Proof.
  intros HF Hzero Hunit Hguard.
  destruct (minVertexOf_inv simulator roadmap goals i HF)
    as [[Hst _]|(m & _ & Hst & _)].
  - rewrite steer_none; [assumption|]. unfold minVertexOf. rewrite Hst. reflexivity.
  - assert (Hmin : minVertexOf simulator roadmap goals i = Z.of_nat m)
      by (unfold minVertexOf; rewrite Hst; reflexivity).
    destruct (Feqb (vabsSq (vsub (position (getVertex roadmap m))
                (getAgentPosition simulator i))) F0) eqn:Hon.
    + destruct (decide (m = goalOf goals i)) as [->|Hne].
      * rewrite steer_arrived; assumption.
      * rewrite (steer_on_vertex _ _ _ _ m) by assumption.
        apply Hunit, (Hguard m); assumption.
    + rewrite (steer_toward_vertex _ _ _ _ m) by assumption. apply Hunit. assumption.
Qed.

(** ** The loop over the agents *)

Lemma getAgent_setAgentPrefVelocity simulator i v k :
  getAgentPosition (setAgentPrefVelocity simulator i v) k = getAgentPosition simulator k /\
  getAgentRadius (setAgentPrefVelocity simulator i v) k = getAgentRadius simulator k.
Proof.
  unfold getAgentPosition, getAgentRadius, setAgentPrefVelocity, RVOSimulator in *.
  rewrite list_lookup_alter.
  destruct (decide (i = k)) as [->|Hne]; [|split; reflexivity].
  destruct (simulator !! k); split; reflexivity.
Qed.

Lemma getAgentPrefVelocity_set_eq simulator i v :
  i < length simulator ->
  getAgentPrefVelocity (setAgentPrefVelocity simulator i v) i = v.
Proof.
  intros Hi. unfold getAgentPrefVelocity, setAgentPrefVelocity, RVOSimulator in *.
  rewrite list_lookup_alter_eq.
  destruct (lookup_lt_is_Some_2 simulator i Hi) as [a ->]. reflexivity.
Qed.

Lemma getAgentPrefVelocity_set_ne simulator i v k :
  i <> k ->
  getAgentPrefVelocity (setAgentPrefVelocity simulator i v) k =
  getAgentPrefVelocity simulator k.
Proof.
  intros Hne. unfold getAgentPrefVelocity, setAgentPrefVelocity, RVOSimulator in *.
  rewrite list_lookup_alter_ne by assumption. reflexivity.
Qed.

Lemma length_setAgentPrefVelocity simulator i v :
  length (setAgentPrefVelocity simulator i v) = length simulator.
Proof. apply length_alter. Qed.

Lemma selectVertex_ext simulator simulator' roadmap goals i js st :
  (forall k, getAgentPosition simulator' k = getAgentPosition simulator k) ->
  (forall k, getAgentRadius simulator' k = getAgentRadius simulator k) ->
  selectVertex simulator' roadmap goals i js st =
  selectVertex simulator roadmap goals i js st.
Proof.
  intros Hpos Hrad. revert st. induction js as [|j js IH]; intros st; simpl.
  - reflexivity.
  - unfold vertexCost, agentSees. rewrite !Hpos, !Hrad. apply IH.
Qed.

(** The steering of an agent depends on the simulator only through the
    positions and radii of the agents. *)
Lemma steer_ext simulator simulator' roadmap goals i :
  (forall k, getAgentPosition simulator' k = getAgentPosition simulator k) ->
  (forall k, getAgentRadius simulator' k = getAgentRadius simulator k) ->
  steer simulator' roadmap goals i = steer simulator roadmap goals i.
Proof.
  intros Hpos Hrad. unfold steer, minVertexOf.
  rewrite (selectVertex_ext simulator simulator') by assumption.
  rewrite !Hpos. reflexivity.
Qed.

(** The iterations of the loop over the agents, taken one at a time in
    any order [ids]: the iteration of agent [i] reads no preferred
    velocity, so its steering is the one of the simulator at entry. *)
Lemma setPreferredVelocitiesLoop_order simulator roadmap goals ids :
  forall simulator' rands,
    (forall k, getAgentPosition simulator' k = getAgentPosition simulator k) ->
    (forall k, getAgentRadius simulator' k = getAgentRadius simulator k) ->
    length simulator' = length simulator ->
    NoDup ids -> (forall k, k ∈ ids -> k < length simulator) ->
    forall i,
      (forall p, ids !! p = Some i ->
         getAgentPrefVelocity
           (fst (setPreferredVelocitiesLoop simulator' roadmap goals ids rands)) i =
         vadd (steer simulator roadmap goals i)
              (perturbation (default 0%Z (rands !! (2 * p)))
                            (default 0%Z (rands !! (2 * p + 1))))) /\
      (i ∉ ids ->
       getAgentPrefVelocity
         (fst (setPreferredVelocitiesLoop simulator' roadmap goals ids rands)) i =
       getAgentPrefVelocity simulator' i).
Proof.
  induction ids as [|a ids IH];
    intros simulator' rands Hpos Hrad Hlen Hnd Hrange i; simpl.
  - split; [intros p Hp; discriminate|reflexivity].
  - apply NoDup_cons in Hnd as [Ha Hnd].
    assert (Halen : a < length simulator) by (apply Hrange; left).
    set (simulator1 := setAgentPrefVelocity simulator' a
                         (steer simulator' roadmap goals a)).
    set (simulator2 := setAgentPrefVelocity simulator1 a _).
    assert (Hpos2 : forall k, getAgentPosition simulator2 k = getAgentPosition simulator k).
    { intros k. unfold simulator2, simulator1.
      rewrite !(proj1 (getAgent_setAgentPrefVelocity _ _ _ _)). apply Hpos. }
    assert (Hrad2 : forall k, getAgentRadius simulator2 k = getAgentRadius simulator k).
    { intros k. unfold simulator2, simulator1.
      rewrite !(proj2 (getAgent_setAgentPrefVelocity _ _ _ _)). apply Hrad. }
    assert (Hlen2 : length simulator2 = length simulator).
    { unfold simulator2, simulator1. rewrite !length_setAgentPrefVelocity. assumption. }
    destruct (IH simulator2 (drop 2 rands) Hpos2 Hrad2 Hlen2 Hnd
                (fun k Hk => Hrange k (list_elem_of_further _ _ _ Hk)) i)
      as [Hin Hout].
    split.
    + intros [|p] Hp; simpl in Hp.
      * injection Hp as ->. rewrite Hout by assumption. unfold simulator2.
        rewrite getAgentPrefVelocity_set_eq
          by (unfold simulator1; rewrite length_setAgentPrefVelocity; lia).
        unfold simulator1. rewrite getAgentPrefVelocity_set_eq by lia.
        rewrite (steer_ext simulator simulator') by assumption.
        reflexivity.
      * rewrite (Hin p Hp), !lookup_drop.
        replace (2 + 2 * p) with (2 * S p) by lia.
        replace (2 + (2 * p + 1)) with (2 * S p + 1) by lia.
        reflexivity.
    + intros Hi. apply not_elem_of_cons in Hi as [Hia Hi].
      rewrite Hout by assumption. unfold simulator2, simulator1.
      rewrite !getAgentPrefVelocity_set_ne by auto. reflexivity.
Qed.

(** X1. Whatever order the loop of [setPreferredVelocities] takes the
    agents in, one at a time, the preferred velocity it leaves agent [i]
    with is [steer] of the simulator as it was at entry, plus the
    perturbation made of the two random numbers drawn in the iteration of
    agent [i]: the steering does not depend on the order, which numbers
    the agent draws does (the [p]-th iteration draws the numbers [2 p]
    and [2 p + 1] of the stream). *)
Theorem setPreferredVelocities_any_order simulator roadmap goals ids rands p i :
  ids ≡ₚ seq 0 (getNumAgents simulator) -> ids !! p = Some i ->
  getAgentPrefVelocity
    (fst (setPreferredVelocitiesLoop simulator roadmap goals ids rands)) i =
  vadd (steer simulator roadmap goals i)
       (perturbation (default 0%Z (rands !! (2 * p)))
                     (default 0%Z (rands !! (2 * p + 1)))).
Proof.
  intros Hperm Hp.
  apply (setPreferredVelocitiesLoop_order simulator roadmap goals ids
           simulator rands); auto.
  - rewrite Hperm. apply NoDup_seq.
  - intros k Hk. rewrite Hperm in Hk. apply elem_of_seq in Hk.
    unfold getNumAgents in Hk. lia.
Qed.

(** A selected vertex is a vertex of the roadmap. *)
Lemma selectVertex_range simulator roadmap goals i len a st :
  (snd st = (-1)%Z \/ (0 <= snd st < Z.of_nat a)%Z) ->
  snd (selectVertex simulator roadmap goals i (seq a len) st) = (-1)%Z \/
  (0 <= snd (selectVertex simulator roadmap goals i (seq a len) st)
   < Z.of_nat (a + len))%Z.
Proof.
  revert a st. induction len as [|len IH]; intros a st Hst; simpl.
  - rewrite Nat.add_0_r. assumption.
  - replace (a + S len) with (S a + len) by lia. apply IH.
    destruct (_ && _); simpl; [right; lia|].
    destruct Hst as [Hst|Hst]; [left; assumption|right; lia].
Qed.

Lemma minVertexOf_range simulator roadmap goals i m :
  minVertexOf simulator roadmap goals i = Z.of_nat m -> m < length roadmap.
Proof.
  unfold minVertexOf. intros Hm.
  destruct (selectVertex_range simulator roadmap goals i (length roadmap) 0
              (Finf, (-1)%Z)) as [H|H];
    [left; reflexivity| |]; rewrite Hm in H; simpl in H; lia.
Qed.

Lemma distinct_positions roadmap u v :
  NoDup (positionsOf roadmap) -> u < length roadmap -> v < length roadmap ->
  position (getVertex roadmap u) = position (getVertex roadmap v) -> u = v.
Proof.
  intros Hnd Hu Hv. rewrite !position_getVertex.
  destruct (lookup_lt_is_Some_2 (positionsOf roadmap) u) as [p Hp];
    [rewrite length_positionsOf; assumption|].
  destruct (lookup_lt_is_Some_2 (positionsOf roadmap) v) as [q Hq];
    [rewrite length_positionsOf; assumption|].
  rewrite Hp, Hq. simpl. intros ->. eapply NoDup_lookup; eassumption.
Qed.

(** When the positions of the roadmap are distinct and the selected
    vertex lies on the agent without being its goal, the goal does not
    lie on the agent. *)
Lemma goal_off_agent simulator roadmap goals i m :
  separating -> NoDup (positionsOf roadmap) ->
  goalOf goals i < length roadmap ->
  minVertexOf simulator roadmap goals i = Z.of_nat m ->
  Feqb (vabsSq (vsub (position (getVertex roadmap m))
                     (getAgentPosition simulator i))) F0 = true ->
  m <> goalOf goals i ->
  Feqb (vabsSq (vsub (position (getVertex roadmap (goalOf goals i)))
                     (getAgentPosition simulator i))) F0 = false.
Proof.
  intros Hsep Hnd Hg Hmin Hon Hne.
  destruct (Feqb (vabsSq (vsub (position (getVertex roadmap (goalOf goals i)))
              (getAgentPosition simulator i))) F0) eqn:Hgoal; [|reflexivity].
  exfalso. apply Hne. apply (distinct_positions roadmap); try assumption.
  - eapply minVertexOf_range. eassumption.
  - apply Hsep in Hon. apply Hsep in Hgoal. congruence.
Qed.

(** With distinct positions every branch of the steering policy gives
    the zero vector or [normalize] of a vector that is not zero. *)
Lemma steer_branches simulator roadmap goals i :
  separating -> NoDup (positionsOf roadmap) ->
  goalOf goals i < length roadmap ->
  steer simulator roadmap goals i = vzero \/
  exists v, Feqb (vabsSq v) F0 = false /\
            steer simulator roadmap goals i = normalize v.
Proof.
  intros Hsep Hnd Hg.
  destruct (selectVertex_range simulator roadmap goals i (length roadmap) 0
              (Finf, (-1)%Z)) as [Hmin|Hmin]; [left; reflexivity| |].
  - left. apply steer_none. exact Hmin.
  - assert (Hm : minVertexOf simulator roadmap goals i =
                 Z.of_nat (Z.to_nat (minVertexOf simulator roadmap goals i)))
      by (unfold minVertexOf; lia).
    set (m := Z.to_nat (minVertexOf simulator roadmap goals i)) in *.
    destruct (Feqb (vabsSq (vsub (position (getVertex roadmap m))
                (getAgentPosition simulator i))) F0) eqn:Hon.
    + destruct (decide (m = goalOf goals i)) as [Heq|Hne].
      * left. apply steer_arrived; rewrite <- Heq; assumption.
      * right. eexists. split; [|apply (steer_on_vertex _ _ _ _ m); assumption].
        apply (goal_off_agent simulator roadmap goals i m); assumption.
    + right. eexists. split; [|apply (steer_toward_vertex _ _ _ _ m); assumption].
      assumption.
Qed.

(** * The claims *)

(** C1. [buildRoadmap] terminates (any [fuel] of at least the number of
    vertices suffices) and leaves the positions as they were and the
    visibility graph in the neighbour lists; for each of the four goals
    [g] and every vertex [v]: if [v] can be reached from [g] in that
    graph, [distToGoal[v][g]] is the length of a shortest path from [g] to
    [v]; otherwise it is [infinity]. *)
Theorem buildRoadmap_shortest_paths fuel simulator roadmap :
  FloatLaws -> WeightLaws -> finiteLengths roadmap ->
  Forall freshVertex roadmap -> 4 <= length roadmap -> length roadmap <= fuel ->
  exists roadmap',
    buildRoadmap fuel simulator roadmap = Some roadmap' /\
    (forall u, position (getVertex roadmap' u) = position (getVertex roadmap u)) /\
    (forall u j, u < length roadmap ->
       In j (neighbors (getVertex roadmap' u)) <->
       j < length roadmap /\
       queryVisibility (position (getVertex roadmap u))
                       (position (getVertex roadmap j))
                       (getAgentRadius simulator 0) = true) /\
    forall g v, g < 4 -> v < length roadmap ->
      (reachable roadmap' g v -> shortestDist roadmap' g v (getDist roadmap' v g)) /\
      (~ reachable roadmap' g v -> getDist roadmap' v g = Finf).
Proof.
  intros HF HW HFin Hfresh Hn Hfuel.
  destruct (buildRoadmap_spec fuel simulator roadmap HF HW Hfresh Hn Hfuel)
    as (roadmap' & Hrun & Hsame & Hspec).
  apply (connected_finiteLengths simulator) in HFin.
  exists roadmap'. split; [exact Hrun|].
  split.
  { intros u. rewrite (proj1 (proj2 Hsame u)). unfold connected.
    rewrite !position_getVertex, connectRoadmap_positions. reflexivity. }
  split.
  { intros u j Hu. rewrite (proj1 (proj2 (proj2 Hsame u))).
    apply connected_neighbors; assumption. }
  intros g v Hg Hv.
  destruct (Hspec g Hg) as [_ Hlower Hpath].
  rewrite <- (connected_length simulator) in Hv.
  split.
  - intros [c Hw]. apply (sameExcept_walk _ _ _ _ _ _ Hsame) in Hw.
    split.
    + destruct (Hpath v Hv) as [Hinf|Hwalk].
      * exfalso. eapply Fle_not_Fltb; [apply (Hlower v c Hw)|].
        rewrite Hinf. eapply walk_finite; eassumption.
      * apply (sameExcept_walk _ _ _ _ _ _ Hsame). assumption.
    + intros c' Hw'. apply Hlower. apply (sameExcept_walk _ _ _ _ _ _ Hsame). assumption.
  - intros Hnot. destruct (Hpath v Hv) as [Hinf|Hwalk]; [assumption|].
    exfalso. apply Hnot. exists (getDist roadmap' v g).
    apply (sameExcept_walk _ _ _ _ _ _ Hsame). assumption.
Qed.

(** C2. The vertex that the steering policy selects for an agent is
    visible from the agent and has the least value of
    [abs(position - agentPosition) + distToGoal[goal]] among the visible
    vertices; nothing is selected exactly when no visible vertex has a
    value below [infinity]. *)
Theorem steering_selects_visible_minimum simulator roadmap goals i :
  FloatLaws ->
  (minVertexOf simulator roadmap goals i = (-1)%Z /\
   forall k, k < length roadmap -> agentSees simulator roadmap i k = true ->
     Fltb (vertexCost simulator roadmap goals i k) Finf = false) \/
  (exists m,
     minVertexOf simulator roadmap goals i = Z.of_nat m /\
     m < length roadmap /\
     agentSees simulator roadmap i m = true /\
     forall k, k < length roadmap -> agentSees simulator roadmap i k = true ->
       Fle (vertexCost simulator roadmap goals i m)
           (vertexCost simulator roadmap goals i k)).
Proof.
  intros HF. unfold minVertexOf.
  destruct (minVertexOf_inv simulator roadmap goals i HF)
    as [[-> Hnone]|(m & Hm & -> & Hsees & _ & Hmin & _)]; simpl.
  - left. auto.
  - right. exists m. auto.
Qed.

(** C3 (as the code has it). After the first phase of [buildRoadmap], [j]
    is a neighbour of vertex [i] exactly when [j] is a vertex and the
    visibility test succeeds for the positions of [i] and [j]; no pair is
    left out, so [i] is its own neighbour exactly when its position is
    visible from itself. *)
Theorem connected_neighbors_visible simulator roadmap i :
  Forall freshVertex roadmap -> i < length roadmap ->
  (forall j,
     In j (neighbors (getVertex (connectRoadmap simulator roadmap
                                   (seq 0 (length roadmap))) i)) <->
     j < length roadmap /\
     queryVisibility (position (getVertex roadmap i))
                     (position (getVertex roadmap j))
                     (getAgentRadius simulator 0) = true) /\
  (In i (neighbors (getVertex (connectRoadmap simulator roadmap
                                 (seq 0 (length roadmap))) i)) <->
   queryVisibility (position (getVertex roadmap i))
                   (position (getVertex roadmap i))
                   (getAgentRadius simulator 0) = true).
Proof.
  intros Hfresh Hi. split.
  - intros j. apply connected_neighbors; assumption.
  - rewrite (connected_neighbors simulator roadmap i i Hfresh Hi). tauto.
Qed.

(** C4. If the visibility test is symmetric, so are the neighbour lists
    after the first phase of [buildRoadmap]. *)
Theorem connected_neighbors_symmetric simulator roadmap u v :
  (forall a b r, queryVisibility a b r = queryVisibility b a r) ->
  Forall freshVertex roadmap -> u < length roadmap -> v < length roadmap ->
  In v (neighbors (getVertex (connectRoadmap simulator roadmap
                                (seq 0 (length roadmap))) u)) <->
  In u (neighbors (getVertex (connectRoadmap simulator roadmap
                                (seq 0 (length roadmap))) v)).
Proof.
  intros Hsym Hfresh Hu Hv.
  rewrite (connected_neighbors simulator roadmap u v Hfresh Hu).
  rewrite (connected_neighbors simulator roadmap v u Hfresh Hv).
  rewrite (Hsym (position (getVertex roadmap u))). tauto.
Qed.

(** C5. On a roadmap as [setupScenario] makes it (vertices without
    neighbours at pairwise distinct positions) and [buildRoadmap] has
    completed it, an agent whose position is the position of its goal
    vertex, with that vertex visible from it, gets the zero vector from
    the steering policy: the goal vertex has the value [0.0F], every
    other vertex a value above it, so the goal vertex is the selected
    one. *)
Theorem steer_on_goal fuel simulator0 roadmap :
  FloatLaws -> WeightLaws -> ZeroLaws -> PointLaws roadmap ->
  Forall freshVertex roadmap -> 4 <= length roadmap -> length roadmap <= fuel ->
  NoDup (positionsOf roadmap) ->
  exists roadmap',
    buildRoadmap fuel simulator0 roadmap = Some roadmap' /\
    forall simulator goals i,
      goalOf goals i < 4 ->
      getAgentPosition simulator i =
        position (getVertex roadmap' (goalOf goals i)) ->
      agentSees simulator roadmap' i (goalOf goals i) = true ->
      minVertexOf simulator roadmap' goals i = Z.of_nat (goalOf goals i) /\
      steer simulator roadmap' goals i = vzero.
Proof.
  intros HF HW HZ HP Hfresh Hn Hfuel Hnd.
  destruct (buildRoadmap_spec fuel simulator0 roadmap HF HW Hfresh Hn Hfuel)
    as (roadmap' & Hrun & Hsame & Hspec).
  exists roadmap'. split; [exact Hrun|].
  intros simulator goals i Hg Hon Hsees.
  assert (Hlen : length roadmap' = length roadmap)
    by (rewrite (proj1 Hsame); apply connected_length).
  assert (Hpos : forall u,
            position (getVertex roadmap' u) = position (getVertex roadmap u)).
  { intros u. rewrite (proj1 (proj2 Hsame u)). unfold connected.
    rewrite !position_getVertex, connectRoadmap_positions. reflexivity. }
  destruct (Hspec (goalOf goals i) Hg) as [Hgoal _ Hpath].
  assert (Hcost : vertexCost simulator roadmap' goals i (goalOf goals i) = F0).
  { unfold vertexCost. rewrite Hon, Hgoal, Hpos, (vabs_self _ HP) by lia.
    apply (Fadd_F0_F0 HZ). }
  assert (Hothers : forall k, k < length roadmap' -> k <> goalOf goals i ->
            Fltb F0 (vertexCost simulator roadmap' goals i k) = true).
  { intros k Hk Hne. unfold vertexCost. rewrite Hon, !Hpos.
    eapply (Fltb_Fle_trans HF).
    - apply (vabs_apart _ HP k (goalOf goals i)); [lia|lia|].
      intros Heq. apply Hne.
      apply (distinct_positions roadmap); [assumption|lia|lia|assumption].
    - apply (Fadd_nonneg HZ).
      destruct (Hpath k) as [Hinf|Hwalk].
      + rewrite connected_length. lia.
      + rewrite Hinf. apply (Fle_inf HF).
      + eapply walk_cost_ge; eassumption. }
  assert (Hmin : minVertexOf simulator roadmap' goals i = Z.of_nat (goalOf goals i)).
  { apply minVertexOf_least; try assumption.
    - lia.
    - rewrite Hcost. apply (F0_finite HZ).
    - intros k Hk _. rewrite Hcost.
      destruct (decide (k = goalOf goals i)) as [->|Hne].
      + rewrite Hcost. apply (Fle_refl HF).
      + apply (Fltb_Fle HF), Hothers; assumption.
    - intros k Hk _. rewrite Hcost. apply Hothers; lia. }
  split; [exact Hmin|].
  apply steer_arrived; [exact Hmin|].
  rewrite Hon, Hpos. apply (vabsSq_self _ HP). lia.
Qed.



(** C8. After the shortest-path phase of [buildRoadmap], each of the four
    goal vertices is at distance [0.0F] from itself. *)
Theorem buildRoadmap_goal_distance_zero fuel simulator roadmap :
  FloatLaws -> WeightLaws ->
  Forall freshVertex roadmap -> 4 <= length roadmap -> length roadmap <= fuel ->
  exists roadmap',
    buildRoadmap fuel simulator roadmap = Some roadmap' /\
    forall g, g < 4 -> getDist roadmap' g g = F0.
Proof.
  intros HF HW Hfresh Hn Hfuel.
  destruct (buildRoadmap_spec fuel simulator roadmap HF HW Hfresh Hn Hfuel)
    as (roadmap' & Hrun & _ & Hspec).
  exists roadmap'. split; [exact Hrun|]. intros g Hg. apply (Hspec g Hg).
Qed.

(** C9. [reachedGoal] answers [true] exactly when, for every agent, the
    squared distance between its position and the position of its goal
    vertex is not greater than [400.0F]. *)
Theorem reachedGoal_iff_all_within simulator roadmap goals :
  reachedGoal simulator roadmap goals = true <->
  forall i, i < getNumAgents simulator ->
    Fle (vabsSq (vsub (getAgentPosition simulator i)
                      (position (getVertex roadmap (goalOf goals i))))) F400.
Proof.
  unfold reachedGoal. rewrite reachedGoalLoop_true. split.
  - intros Hall i Hi. apply Hall. apply elem_of_seq. lia.
  - intros Hall i Hi. apply Hall. apply elem_of_seq in Hi. lia.
Qed.

(** C10. Among the visible vertices of least value the steering policy
    selects the one of smallest index: if vertex [k] is visible, its
    value is below [infinity] and not greater than that of any visible
    vertex, and no visible vertex before [k] has a value as small (the
    value of [k] is below that of every visible vertex before it), then
    [k] is the selected vertex, however many visible vertices after [k]
    have the same value. *)
Theorem steering_ties_smallest_index simulator roadmap goals i k :
  FloatLaws ->
  k < length roadmap ->
  agentSees simulator roadmap i k = true ->
  Fltb (vertexCost simulator roadmap goals i k) Finf = true ->
  (forall j, j < length roadmap -> agentSees simulator roadmap i j = true ->
     Fle (vertexCost simulator roadmap goals i k)
         (vertexCost simulator roadmap goals i j)) ->
  (forall j, j < k -> agentSees simulator roadmap i j = true ->
     Fltb (vertexCost simulator roadmap goals i k)
          (vertexCost simulator roadmap goals i j) = true) ->
  minVertexOf simulator roadmap goals i = Z.of_nat k.
Proof.
  intros HF Hk Hsees Hfin Hmin Hfirst.
  apply minVertexOf_least; assumption.
Qed.

(** * Further properties of the program *)

(** ** buildRoadmap *)

Lemma filter_StronglySorted {A} (R : A -> A -> Prop) (f : A -> bool) (l : list A) :
  StronglySorted R l -> StronglySorted R (List.filter f l).
Proof.
  induction 1 as [|x l Hl IH Hx]; simpl; [constructor|].
  destruct (f x); [|assumption]. constructor; [assumption|].
  rewrite List.Forall_forall in *. intros y Hy. apply Hx.
  apply filter_In in Hy. apply Hy.
Qed.

Lemma seq_StronglySorted a len : StronglySorted lt (seq a len).
Proof.
  revert a. induction len as [|len IH]; intros a; simpl; constructor; [apply IH|].
  rewrite List.Forall_forall. intros y Hy. apply in_seq in Hy. lia.
Qed.

Lemma visibleFrom_filter simulator roadmap i js :
  visibleFrom simulator (positionsOf roadmap) i js =
  List.filter
    (fun j => queryVisibility (position (getVertex roadmap i))
                (position (getVertex roadmap j)) (getAgentRadius simulator 0))
    js.
Proof.
  unfold visibleFrom. apply filter_ext. intros j.
  rewrite !position_getVertex. reflexivity.
Qed.

(** X3. The first phase of [buildRoadmap] on any roadmap, fresh or not:
    the number of vertices and the positions stay, the indices of the
    vertices visible from vertex [i] are appended in increasing order to
    the neighbours [i] had, and its distances are cut or padded with
    [infinity] to four entries, the ones it had being kept. *)
Theorem connectRoadmap_appends simulator roadmap i :
  i < length roadmap ->
  length (connectRoadmap simulator roadmap (seq 0 (length roadmap))) =
    length roadmap /\
  position (getVertex (connectRoadmap simulator roadmap
                         (seq 0 (length roadmap))) i) =
    position (getVertex roadmap i) /\
  neighbors (getVertex (connectRoadmap simulator roadmap
                          (seq 0 (length roadmap))) i) =
    neighbors (getVertex roadmap i) ++
    List.filter
      (fun j => queryVisibility (position (getVertex roadmap i))
                  (position (getVertex roadmap j)) (getAgentRadius simulator 0))
      (seq 0 (length roadmap)) /\
  distToGoal (getVertex (connectRoadmap simulator roadmap
                           (seq 0 (length roadmap))) i) =
    take 4 (distToGoal (getVertex roadmap i)) ++
    replicate (4 - length (distToGoal (getVertex roadmap i))) Finf.
Proof.
  intros Hi. split; [apply connectRoadmap_length|].
  fold (connected simulator roadmap). rewrite connected_vertex by assumption.
  unfold builtVertex, resizeDist, addNeighbors, resize; simpl.
  rewrite visibleFrom_filter. auto.
Qed.

(** X4. On a roadmap whose vertices start without neighbours, the first
    phase of [buildRoadmap] leaves every neighbour list in strictly
    increasing order, so no vertex is listed twice. *)
Theorem connected_neighbors_increasing simulator roadmap i :
  Forall freshVertex roadmap -> i < length roadmap ->
  StronglySorted lt
    (neighbors (getVertex (connectRoadmap simulator roadmap
                             (seq 0 (length roadmap))) i)).
Proof.
  intros Hfresh Hi.
  fold (connected simulator roadmap). rewrite connected_vertex by assumption.
  unfold builtVertex, resizeDist, addNeighbors; simpl.
  rewrite (proj1 (fresh_getVertex roadmap i Hfresh)). simpl.
  apply filter_StronglySorted, seq_StronglySorted.
Qed.

(** X5. After [buildRoadmap] no edge can shorten a recorded distance: for
    each of the four goals [g] and every neighbour [v] of a vertex [u],
    [distToGoal[v][g]] is not greater than
    [distToGoal[u][g] + abs(position of v - position of u)]. *)
Theorem buildRoadmap_edges_relaxed fuel simulator roadmap :
  FloatLaws -> WeightLaws ->
  Forall freshVertex roadmap -> 4 <= length roadmap -> length roadmap <= fuel ->
  exists roadmap',
    buildRoadmap fuel simulator roadmap = Some roadmap' /\
    forall g u v, g < 4 ->
      In v (neighbors (getVertex roadmap' u)) ->
      Fle (getDist roadmap' v g)
          (Fadd (getDist roadmap' u g) (distUV roadmap' u v)).
Proof.
  intros HF HW Hfresh Hn Hfuel.
  destruct (buildRoadmap_spec fuel simulator roadmap HF HW Hfresh Hn Hfuel)
    as (roadmap' & Hrun & Hsame & Hspec).
  exists roadmap'. split; [exact Hrun|]. intros g u v Hg Hv.
  destruct (Hspec g Hg) as [_ Hlower Hpath].
  assert (Hd : distUV roadmap' u v = distUV (connected simulator roadmap) u v).
  { unfold distUV. rewrite (proj1 (proj2 Hsame u)), (proj1 (proj2 Hsame v)).
    reflexivity. }
  rewrite Hd. rewrite (proj1 (proj2 (proj2 Hsame u))) in Hv.
  apply list_elem_of_In in Hv.
  destruct (decide (u < length (connected simulator roadmap))) as [Hu|Hu].
  - destruct (Hpath u Hu) as [Hinf|Hwalk].
    + rewrite Hinf. eapply (Fle_trans HF); [apply (Fle_inf HF)|apply (Fadd_vabs HW)].
    + apply Hlower. econstructor; eassumption.
  - unfold getVertex in Hv. rewrite lookup_ge_None_2 in Hv by lia.
    apply elem_of_nil in Hv. destruct Hv.
Qed.

(** X6. After [buildRoadmap] no recorded distance is below [0.0F]. *)
Theorem buildRoadmap_distances_nonnegative fuel simulator roadmap :
  FloatLaws -> WeightLaws ->
  Forall freshVertex roadmap -> 4 <= length roadmap -> length roadmap <= fuel ->
  exists roadmap',
    buildRoadmap fuel simulator roadmap = Some roadmap' /\
    forall g v, g < 4 -> v < length roadmap -> Fle F0 (getDist roadmap' v g).
Proof.
  intros HF HW Hfresh Hn Hfuel.
  destruct (buildRoadmap_spec fuel simulator roadmap HF HW Hfresh Hn Hfuel)
    as (roadmap' & Hrun & Hsame & Hspec).
  exists roadmap'. split; [exact Hrun|]. intros g v Hg Hv.
  destruct (Hspec g Hg) as [_ _ Hpath].
  rewrite <- (connected_length simulator) in Hv.
  destruct (Hpath v Hv) as [Hinf|Hwalk].
  - rewrite Hinf. apply (Fle_inf HF).
  - eapply walk_cost_ge; eassumption.
Qed.

(** X7. [buildRoadmap] keeps the number of vertices and leaves every
    vertex with exactly four distances, one per goal. *)
Theorem buildRoadmap_four_distances fuel simulator roadmap :
  FloatLaws -> WeightLaws ->
  Forall freshVertex roadmap -> 4 <= length roadmap -> length roadmap <= fuel ->
  exists roadmap',
    buildRoadmap fuel simulator roadmap = Some roadmap' /\
    length roadmap' = length roadmap /\
    forall v, v < length roadmap ->
      length (distToGoal (getVertex roadmap' v)) = 4.
Proof.
  intros HF HW Hfresh Hn Hfuel.
  destruct (buildRoadmap_spec fuel simulator roadmap HF HW Hfresh Hn Hfuel)
    as (roadmap' & Hrun & Hsame & _).
  exists roadmap'. split; [exact Hrun|]. split.
  - rewrite (proj1 Hsame). apply connected_length.
  - intros v Hv. rewrite (proj1 (proj2 (proj2 (proj2 Hsame v)))).
    rewrite connected_vertex by assumption.
    unfold builtVertex, resizeDist, resize; simpl.
    rewrite length_app, length_take, length_replicate. lia.
Qed.

(** ** setPreferredVelocities *)

(** X8. The vertex that the steering policy selects has a value below
    [infinity]: a visible vertex whose value is not below [infinity] is
    never selected, not even when it is the only visible one. *)
Theorem steering_selected_value_finite simulator roadmap goals i m :
  FloatLaws ->
  minVertexOf simulator roadmap goals i = Z.of_nat m ->
  Fltb (vertexCost simulator roadmap goals i m) Finf = true.
Proof.
  intros HF Hmin. unfold minVertexOf in Hmin.
  destruct (minVertexOf_inv simulator roadmap goals i HF)
    as [[Hst _]|(m' & _ & Hst & _ & Hfin & _)];
    rewrite Hst in Hmin; simpl in Hmin; [lia|].
  apply Nat2Z.inj in Hmin. subst m'. assumption.
Qed.

Lemma setPreferredVelocitiesLoop_frame simulator roadmap goals ids rands :
  length (fst (setPreferredVelocitiesLoop simulator roadmap goals ids rands)) =
    length simulator /\
  (forall k,
     getAgentPosition
       (fst (setPreferredVelocitiesLoop simulator roadmap goals ids rands)) k =
       getAgentPosition simulator k /\
     getAgentRadius
       (fst (setPreferredVelocitiesLoop simulator roadmap goals ids rands)) k =
       getAgentRadius simulator k) /\
  snd (setPreferredVelocitiesLoop simulator roadmap goals ids rands) =
    drop (2 * length ids) rands.
Proof.
  revert simulator rands.
  induction ids as [|i ids IH]; intros simulator rands; simpl.
  - split; [reflexivity|]. split; [auto|]. reflexivity.
  - destruct (IH (setAgentPrefVelocity
                    (setAgentPrefVelocity simulator i (steer simulator roadmap goals i)) i
                    (vadd (getAgentPrefVelocity
                             (setAgentPrefVelocity simulator i
                                (steer simulator roadmap goals i)) i)
                          (perturbation (default 0%Z (rands !! 0))
                                        (default 0%Z (rands !! 1)))))
                 (drop 2 rands)) as (Hlen & Hbody & Hrands).
    split; [rewrite Hlen, !length_setAgentPrefVelocity; reflexivity|].
    split.
    + intros k. destruct (Hbody k) as [Hp Hr]. rewrite Hp, Hr.
      rewrite !(proj1 (getAgent_setAgentPrefVelocity _ _ _ _)).
      rewrite !(proj2 (getAgent_setAgentPrefVelocity _ _ _ _)). auto.
    + rewrite Hrands, drop_drop. f_equal. lia.
Qed.

(** X2. [setPreferredVelocities] changes nothing of the simulator but the
    preferred velocities: the number of agents, their positions and their
    radii stay; and it takes exactly two random numbers per agent from
    the stream. *)
Theorem setPreferredVelocities_frame simulator roadmap goals rands :
  getNumAgents (fst (setPreferredVelocities simulator roadmap goals rands)) =
    getNumAgents simulator /\
  (forall k,
     getAgentPosition (fst (setPreferredVelocities simulator roadmap goals rands)) k =
       getAgentPosition simulator k /\
     getAgentRadius (fst (setPreferredVelocities simulator roadmap goals rands)) k =
       getAgentRadius simulator k) /\
  snd (setPreferredVelocities simulator roadmap goals rands) =
    drop (2 * getNumAgents simulator) rands.
Proof.
  unfold setPreferredVelocities, getNumAgents.
  destruct (setPreferredVelocitiesLoop_frame simulator roadmap goals
              (seq 0 (length simulator)) rands) as (Hlen & Hbody & Hrands).
  rewrite length_seq in Hrands. auto.
Qed.

End Properties.

(** * Properties of the drawing, the driver and the scenario *)

Section DriverProperties.

Context {FA : FloatArith} {VL : VectorLib} {ENV : Environment}.
Context {OBS : Obstacles} {DISP : Display} {SOL : Solver} {LIT : Literals}.

(** ** updateVisualization *)

Lemma drawAgents_concat simulator ids out :
  drawAgents simulator ids out = out ++ concat (agentDrawing simulator <$> ids).
Proof.
  revert out. induction ids as [|i ids IH]; intros out; simpl.
  - rewrite app_nil_r. reflexivity.
  - unfold drawAgents in *. simpl. rewrite IH, <- app_assoc. reflexivity.
Qed.

Lemma orbit_S s k :
  orbit s (S k) = orbit s k ++ [Nat.iter k getNextObstacleVertexNo s].
Proof. unfold orbit. rewrite seq_S, fmap_app. reflexivity. Qed.

Lemma elem_of_orbit s k v :
  v ∈ orbit s k <-> exists j, j < k /\ v = Nat.iter j getNextObstacleVertexNo s.
Proof.
  unfold orbit. rewrite list_elem_of_fmap. split.
  - intros (j & -> & Hj). apply elem_of_seq in Hj. exists j. split; [lia|reflexivity].
  - intros (j & Hj & ->). exists j. split; [reflexivity|]. apply elem_of_seq. lia.
Qed.

Lemma orbit_lookup s k j :
  j < k -> orbit s k !! j = Some (Nat.iter j getNextObstacleVertexNo s).
Proof.
  intros Hj. unfold orbit. rewrite list_lookup_fmap, lookup_seq_lt by assumption.
  reflexivity.
Qed.

Lemma iter_in_range s j :
  closedPolygons -> s < getNumObstacleVertices ->
  Nat.iter j getNextObstacleVertexNo s < getNumObstacleVertices.
Proof.
  intros [Hrange _] Hs. induction j as [|j IH]; simpl; [assumption|].
  apply Hrange. assumption.
Qed.

Lemma iter_not_drawn (vs : list nat) s j :
  closedPolygons -> s < getNumObstacleVertices ->
  (forall v, v < getNumObstacleVertices ->
     (v ∈ vs <-> getNextObstacleVertexNo v ∈ vs)) ->
  s ∉ vs ->
  Nat.iter j getNextObstacleVertexNo s ∉ vs.
Proof.
  intros Hclosed Hs Hvs Hnot. induction j as [|j IH]; simpl; [assumption|].
  intros Hin. apply IH. apply Hvs; [|assumption].
  apply iter_in_range; assumption.
Qed.

(** The loop around one polygon, entered at [s] and now at the vertex [k]
    steps on. *)
Lemma drawPolygon_spec out0 (vs : list nat) s fuel :
  closedPolygons -> s < getNumObstacleVertices ->
  (forall v, v ∈ vs -> v < getNumObstacleVertices) ->
  (forall v, v < getNumObstacleVertices ->
     (v ∈ vs <-> getNextObstacleVertexNo v ∈ vs)) ->
  s ∉ vs ->
  forall k st,
    length (fst st) = getNumObstacleVertices ->
    snd st = out0 ++ (obstacleLine <$> (vs ++ orbit s k)) ->
    NoDup (vs ++ orbit s k) ->
    (forall v, v ∈ vs ++ orbit s k <-> fst st !! v = Some true) ->
    (k = 0 \/ Nat.iter k getNextObstacleVertexNo s <> s) ->
    getNumObstacleVertices <= fuel + length vs + k ->
    exists k' st',
      drawPolygon fuel s (Nat.iter k getNextObstacleVertexNo s) st = Some st' /\
      0 < k' /\ DrawnInv out0 (vs ++ orbit s k') st'.
Proof.
  intros Hclosed Hs Hvsr Hvs Hnot.
  induction fuel as [|fuel IH]; intros k st Hlen Hout Hnd Hmark Hk Hfuel.
  - exfalso.
    assert (Hle : length (vs ++ orbit s k) <= getNumObstacleVertices).
    { apply settled_bound; [assumption|]. intros v Hv.
      apply elem_of_app in Hv as [Hv|Hv]; [auto|].
      apply elem_of_orbit in Hv as (j & _ & ->). apply iter_in_range; assumption. }
    assert (Hc : Nat.iter k getNextObstacleVertexNo s ∉ vs ++ orbit s k).
    { rewrite elem_of_app. intros [Hv|Hv].
      - exact (iter_not_drawn vs s k Hclosed Hs Hvs Hnot Hv).
      - apply elem_of_orbit in Hv as (j & Hj & Heq).
        destruct Hk as [->|Hk]; [lia|].
        destruct j as [|j]; [simpl in Heq; congruence|].
        destruct k as [|k]; [lia|]. simpl in Heq.
        apply (proj2 Hclosed) in Heq; try (apply iter_in_range; assumption).
        apply NoDup_app in Hnd as (_ & _ & Hnd).
        pose proof (NoDup_lookup _ k j _ Hnd
                      (orbit_lookup s (S k) k ltac:(lia))) as Heqi.
        rewrite Heq in Heqi. specialize (Heqi (orbit_lookup s (S k) j ltac:(lia))).
        lia. }
    assert (Hle2 : length ((vs ++ orbit s k) ++
                           [Nat.iter k getNextObstacleVertexNo s]) <=
                   getNumObstacleVertices).
    { apply settled_bound.
      - apply NoDup_app. split; [assumption|]. split; [|apply NoDup_singleton].
        intros v Hv Hv'. apply list_elem_of_singleton in Hv'. subst v. contradiction.
      - intros v Hv. apply elem_of_app in Hv as [Hv|Hv].
        + apply elem_of_app in Hv as [Hv|Hv]; [auto|].
          apply elem_of_orbit in Hv as (j & _ & ->). apply iter_in_range; assumption.
        + apply list_elem_of_singleton in Hv. subst v. apply iter_in_range; assumption. }
    rewrite !length_app in Hle2. unfold orbit in Hle2.
    rewrite length_fmap, length_seq in Hle2. simpl in Hle2. lia.
  - set (c := Nat.iter k getNextObstacleVertexNo s) in *.
    assert (Hcn : c < getNumObstacleVertices) by (apply iter_in_range; assumption).
    assert (Hc : c ∉ vs ++ orbit s k).
    { rewrite elem_of_app. intros [Hv|Hv].
      - exact (iter_not_drawn vs s k Hclosed Hs Hvs Hnot Hv).
      - apply elem_of_orbit in Hv as (j & Hj & Heq).
        destruct Hk as [->|Hk]; [lia|].
        destruct j as [|j]; [simpl in Heq; congruence|].
        destruct k as [|k]; [lia|]. unfold c in Heq. simpl in Heq.
        apply (proj2 Hclosed) in Heq; try (apply iter_in_range; assumption).
        apply NoDup_app in Hnd as (_ & _ & Hnd).
        pose proof (NoDup_lookup _ k j _ Hnd
                      (orbit_lookup s (S k) k ltac:(lia))) as Heqi.
        rewrite Heq in Heqi. specialize (Heqi (orbit_lookup s (S k) j ltac:(lia))).
        lia. }
    assert (Hnd' : NoDup (vs ++ orbit s (S k))).
    { rewrite orbit_S, app_assoc. apply NoDup_app.
      split; [assumption|]. split; [|apply NoDup_singleton].
      intros v Hv Hv'. apply list_elem_of_singleton in Hv'. subst v. contradiction. }
    assert (Hmark' : forall v,
              v ∈ vs ++ orbit s (S k) <-> <[c:=true]> (fst st) !! v = Some true).
    { intros v. rewrite orbit_S, app_assoc, elem_of_app, list_elem_of_singleton.
      destruct (decide (v = c)) as [->|Hne].
      - rewrite list_lookup_insert_eq by lia. tauto.
      - rewrite list_lookup_insert_ne by congruence. rewrite <- Hmark. tauto. }
    assert (Hout' : snd st ++ [obstacleLine c] =
                    out0 ++ (obstacleLine <$> (vs ++ orbit s (S k)))).
    { rewrite Hout, orbit_S, !fmap_app, <- !app_assoc. reflexivity. }
    simpl. fold c.
    destruct (Nat.eqb_spec (getNextObstacleVertexNo c) s) as [Hback|Hon].
    + exists (S k). eexists. split; [reflexivity|]. split; [lia|].
      unfold DrawnInv; simpl. rewrite length_insert.
      split; [assumption|]. split; [assumption|]. split; [assumption|].
      split; [assumption|]. split.
      * intros v Hv. apply elem_of_app in Hv as [Hv|Hv]; [auto|].
        apply elem_of_orbit in Hv as (j & _ & ->). apply iter_in_range; assumption.
      * intros v Hv. rewrite !elem_of_app, !elem_of_orbit. split.
        -- intros [Hin|(j & Hj & ->)]; [left; apply (proj1 (Hvs v Hv)); assumption|right].
           destruct (decide (S j < S k)) as [Hlt|Hge].
           ++ exists (S j). split; [assumption|reflexivity].
           ++ exists 0. split; [lia|]. simpl. assert (j = k) by lia. subst j.
              exact Hback.
        -- intros [Hin|(j & Hj & Heq)]; [left; apply (proj2 (Hvs v Hv)); assumption|right].
           destruct j as [|j].
           ++ simpl in Heq. exists k. split; [lia|].
              apply (proj2 Hclosed); [assumption|assumption|]. fold c. congruence.
           ++ simpl in Heq. exists j. split; [lia|].
              apply (proj2 Hclosed); [assumption|apply iter_in_range; assumption|].
              assumption.
    + apply (IH (S k)); simpl; try assumption.
      * rewrite length_insert. assumption.
      * right. exact Hon.
      * lia.
Qed.

Lemma drawObstacles_spec out0 fuel ids :
  closedPolygons -> getNumObstacleVertices <= fuel ->
  (forall i, i ∈ ids -> i < getNumObstacleVertices) ->
  forall (vs : list nat) st,
    DrawnInv out0 vs st ->
    exists vs' st',
      drawObstacles fuel ids st = Some st' /\
      DrawnInv out0 vs' st' /\
      (forall v, v ∈ vs -> v ∈ vs') /\
      (forall i, i ∈ ids -> i ∈ vs').
Proof.
  intros Hclosed Hfuel. induction ids as [|i ids IH]; intros Hids vs st Hinv; simpl.
  - exists vs, st. split; [reflexivity|]. split; [assumption|]. split; [auto|].
    intros i Hi. apply elem_of_nil in Hi. destruct Hi.
  - assert (Hids' : forall j, j ∈ ids -> j < getNumObstacleVertices)
      by (intros j Hj; apply Hids; right; assumption).
    pose proof Hinv as (Hlen & Hout & Hnd & Hmark & Hrange & Hcl).
    destruct (default false (fst st !! i)) eqn:Hdrawn; simpl.
    + assert (Hi : i ∈ vs).
      { apply Hmark. destruct (fst st !! i) as [[|]|]; simpl in Hdrawn; congruence. }
      destruct (IH Hids' vs st Hinv) as (vs' & st' & Hrun & Hinv' & Hsub & Hall).
      exists vs', st'. split; [assumption|]. split; [assumption|]. split; [assumption|].
      intros j Hj. apply elem_of_cons in Hj as [->|Hj]; auto.
    + assert (Hi : i ∉ vs).
      { intros Hin. apply Hmark in Hin. rewrite Hin in Hdrawn. discriminate. }
      destruct (drawPolygon_spec out0 vs i fuel Hclosed
                  (Hids i (list_elem_of_here _ _)) Hrange Hcl Hi 0 st)
        as (k' & st1 & Hrun1 & Hk' & Hinv1).
      * assumption.
      * unfold orbit. simpl. rewrite app_nil_r. assumption.
      * unfold orbit. simpl. rewrite app_nil_r. assumption.
      * unfold orbit. simpl. rewrite app_nil_r. assumption.
      * left. reflexivity.
      * lia.
      * simpl in Hrun1. rewrite Hrun1.
        destruct (IH Hids' _ st1 Hinv1) as (vs' & st' & Hrun & Hinv' & Hsub & Hall).
        exists vs', st'. split; [assumption|]. split; [assumption|]. split.
        -- intros v Hv. apply Hsub. apply elem_of_app. left. assumption.
        -- intros j Hj. apply elem_of_cons in Hj as [->|Hj]; [|auto].
           apply Hsub. apply elem_of_app. right. apply elem_of_orbit.
           exists 0. split; [assumption|reflexivity].
Qed.

Lemma updateVisualization_spec fuel globalTime simulator :
  closedPolygons -> getNumObstacleVertices <= fuel ->
  exists vs,
    vs ≡ₚ seq 0 getNumObstacleVertices /\
    updateVisualization fuel globalTime simulator =
    Some ([PrintTime globalTime] ++
          concat (agentDrawing simulator <$> seq 0 (getNumAgents simulator)) ++
          (obstacleLine <$> vs) ++ [PrintEndl]).
Proof.
  intros Hclosed Hfuel. unfold updateVisualization.
  rewrite drawAgents_concat.
  set (out0 := [PrintTime globalTime] ++ _).
  destruct (drawObstacles_spec out0 fuel (seq 0 getNumObstacleVertices) Hclosed Hfuel)
    with (vs := @nil nat) (st := (replicate getNumObstacleVertices false, out0))
    as (vs & st & Hrun & Hinv & _ & Hall).
  - intros i Hi. apply elem_of_seq in Hi. lia.
  - unfold DrawnInv; simpl. rewrite length_replicate, app_nil_r.
    split; [reflexivity|]. split; [reflexivity|]. split; [apply NoDup_nil_2|].
    split; [|split].
    + intros v. rewrite elem_of_nil, lookup_replicate.
      split; [contradiction|intros [? _]; discriminate].
    + intros v Hv. apply elem_of_nil in Hv. destruct Hv.
    + intros v _. rewrite !elem_of_nil. tauto.
  - exists vs. destruct Hinv as (_ & Hout & Hnd & _ & Hrange & _). split.
    + apply NoDup_Permutation; [assumption|apply NoDup_seq|].
      intros v. rewrite elem_of_seq. split; [intros Hv; apply Hrange in Hv; lia|].
      intros Hv. apply Hall. apply elem_of_seq. lia.
    + rewrite Hrun, Hout. unfold out0. rewrite <- !app_assoc. reflexivity.
Qed.

(** X12. When the obstacle vertices form closed polygons,
    [updateVisualization] terminates (any [fuel] of at least the number
    of obstacle vertices suffices) and writes, in this order: the global
    time; for every agent in index order its position and its circle; one
    line per obstacle vertex, from it to its next vertex, every vertex
    exactly once; the end of the line. *)
Theorem updateVisualization_draws_each_edge_once fuel globalTime simulator :
  closedPolygons -> getNumObstacleVertices <= fuel ->
  exists vs,
    vs ≡ₚ seq 0 getNumObstacleVertices /\
    updateVisualization fuel globalTime simulator =
    Some ([PrintTime globalTime] ++
          concat (agentDrawing simulator <$> seq 0 (getNumAgents simulator)) ++
          (obstacleLine <$> vs) ++ [PrintEndl]).
Proof. apply updateVisualization_spec. Qed.

(** ** The loop of main *)

Lemma mainLoop_S fuel drawFuel roadmap goals st out :
  mainLoop (S fuel) drawFuel roadmap goals st out =
  match updateVisualization drawFuel (fst (fst st)) (snd (fst st)) with
  | None => None
  | Some drawing =>
      if reachedGoal (snd (fst (tick roadmap goals st))) roadmap goals
      then Some (tick roadmap goals st,
                 out ++ [BeginDrawing; ClearBackground] ++ drawing ++ [EndDrawing])
      else mainLoop fuel drawFuel roadmap goals (tick roadmap goals st)
             (out ++ [BeginDrawing; ClearBackground] ++ drawing ++ [EndDrawing])
  end.
Proof. reflexivity. Qed.

Lemma mainLoop_spec drawFuel roadmap goals k :
  closedPolygons -> getNumObstacleVertices <= drawFuel ->
  forall fuel st out,
    (forall j, j < k ->
       reachedGoal (snd (fst (Nat.iter (S j) (tick roadmap goals) st)))
         roadmap goals = false) ->
    reachedGoal (snd (fst (Nat.iter (S k) (tick roadmap goals) st)))
      roadmap goals = true ->
    k < fuel ->
    exists out',
      mainLoop fuel drawFuel roadmap goals st out =
      Some (Nat.iter (S k) (tick roadmap goals) st, out').
Proof.
  intros Hclosed Hdraw. induction k as [|k IH]; intros fuel st out Hnot Hreached Hfuel.
  - destruct fuel as [|fuel]; [lia|]. rewrite mainLoop_S.
    destruct (updateVisualization_spec drawFuel (fst (fst st)) (snd (fst st))
                Hclosed Hdraw) as (vs & _ & ->).
    change (Nat.iter 1 (tick roadmap goals) st) with (tick roadmap goals st) in *.
    rewrite Hreached. eexists. reflexivity.
  - destruct fuel as [|fuel]; [lia|]. rewrite mainLoop_S.
    destruct (updateVisualization_spec drawFuel (fst (fst st)) (snd (fst st))
                Hclosed Hdraw) as (vs & _ & ->).
    pose proof (Hnot 0 ltac:(lia)) as Hfirst.
    change (Nat.iter 1 (tick roadmap goals) st) with (tick roadmap goals st) in Hfirst.
    rewrite Hfirst. rewrite Nat.iter_succ_r. apply IH.
    + intros j Hj. rewrite <- Nat.iter_succ_r. apply Hnot. lia.
    + rewrite <- Nat.iter_succ_r. assumption.
    + lia.
Qed.

(** X13. The loop of [main] tests [reachedGoal] only after a pass: it
    stops after the first pass (setting the preferred velocities, then
    one step of the solver) that leaves every agent within the tolerance,
    and its final state is the state after that pass -- at least one pass
    is made even when the agents start within the tolerance. *)
Theorem mainLoop_stops_after_first_reached fuel drawFuel roadmap goals k st out :
  closedPolygons -> getNumObstacleVertices <= drawFuel ->
  (forall j, j < k ->
     reachedGoal (snd (fst (Nat.iter (S j) (tick roadmap goals) st)))
       roadmap goals = false) ->
  reachedGoal (snd (fst (Nat.iter (S k) (tick roadmap goals) st)))
    roadmap goals = true ->
  k < fuel ->
  exists out',
    mainLoop fuel drawFuel roadmap goals st out =
    Some (Nat.iter (S k) (tick roadmap goals) st, out').
Proof. intros Hclosed Hdraw. apply mainLoop_spec; assumption. Qed.

(** ** setupScenario *)

Lemma foldl_pushVertex (roadmap : list RoadmapVertex) (l : list (Z * Z)) :
  foldl (fun r xy => pushVertex r (fst xy) (snd xy)) roadmap l =
  roadmap ++ ((fun xy => mkRoadmapVertex (lit2 (fst xy) (snd xy)) [] []) <$> l).
Proof.
  revert roadmap. induction l as [|xy l IH]; intros roadmap; simpl.
  - rewrite app_nil_r. reflexivity.
  - rewrite IH. unfold pushVertex. rewrite <- app_assoc. reflexivity.
Qed.

Lemma addFourAgents_spec i j (st : RVOSimulator * list nat) :
  length (fst (addFourAgents i j st)) = length (fst st) + 4 /\
  snd (addFourAgents i j st) = snd st ++ [0; 1; 2; 3].
Proof.
  unfold addFourAgents, addAgent; simpl. rewrite !length_app. simpl.
  split; [lia|]. rewrite <- !app_assoc. reflexivity.
Qed.

Lemma foldl_adds {A} (f : RVOSimulator * list nat -> A -> RVOSimulator * list nat)
    (n : nat) (gs : list nat) :
  (forall st a,
     length (fst (f st a)) = length (fst st) + n /\ snd (f st a) = snd st ++ gs) ->
  forall l st,
    length (fst (foldl f st l)) = length (fst st) + n * length l /\
    snd (foldl f st l) = snd st ++ concat ((fun _ => gs) <$> l).
Proof.
  intros Hf. induction l as [|a l IH]; intros st; simpl.
  - rewrite app_nil_r. split; [lia|reflexivity].
  - destruct (IH (f st a)) as [Hlen Hgoals]. destruct (Hf st a) as [Hlen1 Hgoals1].
    rewrite Hlen, Hgoals, Hlen1, Hgoals1. split; [lia|].
    rewrite <- app_assoc. reflexivity.
Qed.

Lemma addAgents_spec (st : RVOSimulator * list nat) :
  length (fst (addAgents st)) = length (fst st) + 100 /\
  snd (addAgents st) = snd st ++ ((fun i => i mod 4) <$> seq 0 100).
Proof.
  unfold addAgents.
  destruct (foldl_adds
              (fun st i => foldl (fun st j => addFourAgents i j st) st (seq 0 5))
              20 (concat ((fun _ => [0; 1; 2; 3]) <$> seq 0 5))) with
    (l := seq 0 5) (st := st) as [Hlen Hgoals].
  - intros st' i.
    destruct (foldl_adds (fun st j => addFourAgents i j st) 4 [0; 1; 2; 3])
      with (l := seq 0 5) (st := st') as [Hlen Hgoals].
    + intros st'' j. apply addFourAgents_spec.
    + rewrite Hlen, Hgoals. split; reflexivity.
  - rewrite Hlen, Hgoals. split; reflexivity.
Qed.

Lemma setupScenario_goals simulator roadmap goals :
  scGoals (setupScenario simulator roadmap goals) =
  goals ++ ((fun i => i mod 4) <$> seq 0 100).
Proof.
  unfold setupScenario. cbv beta zeta. unfold scGoals.
  apply (proj2 (addAgents_spec (simulator, goals))).
Qed.

Lemma setupScenario_agents simulator roadmap goals :
  length (scAgents (setupScenario simulator roadmap goals)) =
  length simulator + 100.
Proof.
  unfold setupScenario. cbv beta zeta. unfold scAgents.
  apply (proj1 (addAgents_spec (simulator, goals))).
Qed.

Lemma setupScenario_roadmap simulator roadmap goals :
  exists vertices,
    scRoadmap (setupScenario simulator roadmap goals) = roadmap ++ vertices /\
    length vertices = 20 /\ Forall freshVertex vertices.
Proof.
  unfold setupScenario. cbv beta zeta. unfold scRoadmap.
  rewrite foldl_pushVertex. eexists. split; [reflexivity|].
  split; [reflexivity|].
  apply Forall_fmap, Forall_forall. intros xy _. split; reflexivity.
Qed.

Lemma scenario_ready fuel :
  FloatLaws -> WeightLaws -> 20 <= fuel ->
  exists roadmap',
    buildRoadmap fuel (scAgents (setupScenario [] [] []))
      (scRoadmap (setupScenario [] [] [])) = Some roadmap' /\
    length (scGoals (setupScenario [] [] [])) =
      getNumAgents (scAgents (setupScenario [] [] [])) /\
    forall i, i < getNumAgents (scAgents (setupScenario [] [] [])) ->
      goalOf (scGoals (setupScenario [] [] [])) i < length roadmap' /\
      forall v, v < length roadmap' ->
        goalOf (scGoals (setupScenario [] [] [])) i <
        length (distToGoal (getVertex roadmap' v)).
Proof.
  intros HF HW Hfuel.
  destruct (setupScenario_roadmap [] [] []) as (vertices & Hrm & Hlen & Hfresh).
  rewrite app_nil_l in Hrm.
  pose proof (setupScenario_goals [] [] []) as Hgoals. rewrite app_nil_l in Hgoals.
  pose proof (setupScenario_agents [] [] []) as Hagents.
  change (length (@nil Agent) + 100) with 100 in Hagents.
  unfold getNumAgents. rewrite Hrm, Hgoals, Hagents.
  destruct (buildRoadmap_spec fuel (scAgents (setupScenario [] [] []))
              vertices HF HW Hfresh ltac:(lia) ltac:(lia))
    as (roadmap' & Hrun & Hsame & _).
  exists roadmap'. split; [exact Hrun|].
  split; [rewrite length_fmap, length_seq; reflexivity|].
  assert (Hn : length roadmap' = 20).
  { rewrite (proj1 Hsame), connected_length. assumption. }
  intros i Hi.
  assert (Hgoal : goalOf ((fun i => i mod 4) <$> seq 0 100) i = i mod 4).
  { unfold goalOf. rewrite list_lookup_fmap, lookup_seq_lt by assumption. reflexivity. }
  rewrite Hgoal.
  pose proof (Nat.mod_upper_bound i 4 ltac:(lia)) as Hmod.
  split; [lia|]. intros v Hv.
  rewrite (proj1 (proj2 (proj2 (proj2 Hsame v)))).
  rewrite connected_vertex by lia.
  unfold builtVertex, resizeDist, resize; simpl distToGoal.
  rewrite length_app, length_take, length_replicate. lia.
Qed.

(** X14. In [main], [setupScenario] followed by [buildRoadmap] leaves
    every index that the steering and the termination test use in range:
    [buildRoadmap] terminates on the scenario's roadmap, there is one goal
    per agent, and every [goals[i]] is both a vertex of the roadmap and a
    slot of every vertex's distances. *)
Theorem scenario_indices_in_range fuel :
  FloatLaws -> WeightLaws -> 20 <= fuel ->
  exists roadmap',
    buildRoadmap fuel (scAgents (setupScenario [] [] []))
      (scRoadmap (setupScenario [] [] [])) = Some roadmap' /\
    length (scGoals (setupScenario [] [] [])) =
      getNumAgents (scAgents (setupScenario [] [] [])) /\
    forall i, i < getNumAgents (scAgents (setupScenario [] [] [])) ->
      goalOf (scGoals (setupScenario [] [] [])) i < length roadmap' /\
      forall v, v < length roadmap' ->
        goalOf (scGoals (setupScenario [] [] [])) i <
        length (distToGoal (getVertex roadmap' v)).
Proof. apply scenario_ready. Qed.

Lemma foldl_appends {A} (f : RVOSimulator * list nat -> A -> RVOSimulator * list nat)
    (new : A -> list Agent) :
  (forall st a, fst (f st a) = fst st ++ new a) ->
  forall l st, fst (foldl f st l) = fst st ++ concat (new <$> l).
Proof.
  intros Hf. induction l as [|a l IH]; intros st; simpl.
  - rewrite app_nil_r. reflexivity.
  - rewrite IH, Hf, <- app_assoc. reflexivity.
Qed.

Lemma addAgents_appends (st : RVOSimulator * list nat) :
  exists agents,
    fst (addAgents st) = fst st ++ agents /\
    length agents = 100 /\
    Forall (fun a => agentRadius a = FofZ 2 /\ agentPrefVelocity a = vzero) agents.
Proof.
  unfold addAgents.
  rewrite (foldl_appends _
             (fun i => concat ((fun j =>
                [mkAgent (mkVector2 (farCoord i) (farCoord j)) (FofZ 2) vzero;
                 mkAgent (mkVector2 (nearCoord i) (farCoord j)) (FofZ 2) vzero;
                 mkAgent (mkVector2 (farCoord i) (nearCoord j)) (FofZ 2) vzero;
                 mkAgent (mkVector2 (nearCoord i) (nearCoord j)) (FofZ 2) vzero])
                <$> seq 0 5))).
  - eexists. split; [reflexivity|]. split; [reflexivity|].
    apply Forall_concat, Forall_fmap, Forall_forall. intros i _.
    apply Forall_concat, Forall_fmap, Forall_forall. intros j _.
    repeat constructor.
  - intros st' i. apply foldl_appends. intros st'' j.
    unfold addFourAgents, addAgent. cbv beta zeta. unfold fst at 1.
    rewrite <- !app_assoc. reflexivity.
Qed.

Lemma setupScenario_keeps_agents simulator roadmap goals :
  exists agents,
    scAgents (setupScenario simulator roadmap goals) = simulator ++ agents /\
    length agents = 100 /\
    Forall (fun a => agentRadius a = FofZ 2 /\ agentPrefVelocity a = vzero) agents.
Proof.
  unfold setupScenario. cbv beta zeta. unfold scAgents.
  apply (addAgents_appends (simulator, goals)).
Qed.

(** The twenty positions of the scenario's roadmap are distinct as soon
    as the literals are. *)
Lemma scenario_positions_distinct :
  (forall x y : Z, FofZ x = FofZ y -> x = y) ->
  NoDup (positionsOf (scRoadmap (setupScenario [] [] []))).
Proof.
  intros Hinj. unfold setupScenario. cbv beta zeta. unfold scRoadmap.
  rewrite foldl_pushVertex, app_nil_l. unfold positionsOf.
  rewrite <- list_fmap_compose.
  apply NoDup_fmap_2_strong.
  - intros [x y] [x' y'] _ _ Heq. unfold lit2 in Heq. simpl in Heq.
    injection Heq as Hx Hy. apply Hinj in Hx. apply Hinj in Hy. congruence.
  - apply (bool_decide_unpack _). vm_compute. reflexivity.
Qed.

(** X15. [setupScenario] appends and keeps what it is given: the roadmap
    gains twenty vertices without neighbours or distances, the simulator
    gains one hundred agents of radius [2.0F] without preferred velocity
    after the agents it had, and the goals gain one entry per new agent,
    the [k]-th new agent getting goal [k mod 4]. *)
Theorem setupScenario_appends simulator roadmap goals :
  (exists vertices,
     scRoadmap (setupScenario simulator roadmap goals) = roadmap ++ vertices /\
     length vertices = 20 /\ Forall freshVertex vertices) /\
  (exists agents,
     scAgents (setupScenario simulator roadmap goals) = simulator ++ agents /\
     length agents = 100 /\
     Forall (fun a => agentRadius a = FofZ 2 /\ agentPrefVelocity a = vzero)
            agents) /\
  scGoals (setupScenario simulator roadmap goals) =
    goals ++ ((fun i => i mod 4) <$> seq 0 100).
Proof.
  split; [apply setupScenario_roadmap|].
  split; [apply setupScenario_keeps_agents|apply setupScenario_goals].
Qed.

(** ** The iterations of the loops of buildRoadmap are independent *)

Lemma lookup_getVertex (roadmap : list RoadmapVertex) k :
  k < length roadmap -> roadmap !! k = Some (getVertex roadmap k).
Proof.
  intros Hk. unfold getVertex.
  destruct (lookup_lt_is_Some_2 roadmap k Hk) as [r ->]. reflexivity.
Qed.

Lemma connectRoadmap_in_range simulator roadmap ids k :
  NoDup ids -> (forall i, i ∈ ids -> i < length roadmap) ->
  getVertex (connectRoadmap simulator roadmap ids) k =
  if decide (k ∈ ids) then builtVertex simulator roadmap k
  else getVertex roadmap k.
Proof.
  intros Hnd Hrange. destruct (decide (k ∈ ids)) as [Hin|Hnot].
  - apply connectRoadmap_vertex; [assumption|apply list_elem_of_In; assumption|auto].
  - apply connectRoadmap_other. rewrite <- list_elem_of_In. assumption.
Qed.

Lemma connectRoadmap_permutation simulator roadmap ids ids' :
  NoDup ids -> (forall i, i ∈ ids -> i < length roadmap) -> ids ≡ₚ ids' ->
  connectRoadmap simulator roadmap ids = connectRoadmap simulator roadmap ids'.
Proof.
  intros Hnd Hrange Hperm.
  assert (Hnd' : NoDup ids') by (rewrite <- Hperm; assumption).
  assert (Hrange' : forall i, i ∈ ids' -> i < length roadmap)
    by (intros i Hi; apply Hrange; rewrite Hperm; assumption).
  apply list_eq. intros k.
  destruct (decide (k < length roadmap)) as [Hk|Hk].
  - rewrite !lookup_getVertex by (rewrite connectRoadmap_length; assumption).
    rewrite !connectRoadmap_in_range by assumption.
    destruct (decide (k ∈ ids)) as [Hin|Hnot];
      destruct (decide (k ∈ ids')) as [Hin'|Hnot']; try reflexivity.
    + exfalso. apply Hnot'. rewrite <- Hperm. assumption.
    + exfalso. apply Hnot. rewrite Hperm. assumption.
  - rewrite !lookup_ge_None_2 by (rewrite connectRoadmap_length; lia). reflexivity.
Qed.

(** X16. The rows of the first loop of [buildRoadmap] can be taken in any
    order: whatever order the vertices are connected in, the roadmap is
    the same as in index order. *)
Theorem connectRoadmap_any_order simulator roadmap ids :
  ids ≡ₚ seq 0 (length roadmap) ->
  connectRoadmap simulator roadmap ids =
  connectRoadmap simulator roadmap (seq 0 (length roadmap)).
Proof.
  intros Hperm. apply connectRoadmap_permutation; [| |assumption].
  - rewrite Hperm. apply NoDup_seq.
  - intros i Hi. rewrite Hperm in Hi. apply elem_of_seq in Hi. lia.
Qed.

Lemma getDist_setDist roadmap v i x t c :
  getDist (setDist roadmap v i x) t c =
  if decide (t = v /\ c = i /\ v < length roadmap /\
             i < length (distToGoal (getVertex roadmap v)))
  then x else getDist roadmap t c.
Proof.
  destruct (decide _) as [(-> & -> & Hv & Hi)|Hnot].
  - apply getDist_setDist_eq; assumption.
  - destruct (decide (t = v /\ c = i)) as [[-> ->]|Hne].
    + unfold getDist, setDist.
      destruct (decide (v < length roadmap)) as [Hv|Hv].
      * rewrite getVertex_alter_eq by assumption. simpl.
        rewrite list_insert_ge; [reflexivity|].
        destruct (decide (i < length (distToGoal (getVertex roadmap v)))); [tauto|lia].
      * rewrite getVertex_alter_ge by lia. reflexivity.
    + apply getDist_setDist_ne.
      destruct (decide (t = v)); [right; intros ->; tauto|left; assumption].
Qed.

Lemma agreeOn_refl i roadmap : agreeOn i roadmap roadmap.
Proof. split; [reflexivity|]. intros v. auto. Qed.

Lemma agreeOn_distUV i roadmap1 roadmap2 u v :
  agreeOn i roadmap1 roadmap2 -> distUV roadmap2 u v = distUV roadmap1 u v.
Proof.
  intros [_ H]. unfold distUV. rewrite (proj1 (H u)), (proj1 (H v)). reflexivity.
Qed.

Lemma agreeOn_setDist i roadmap1 roadmap2 v x :
  agreeOn i roadmap1 roadmap2 ->
  agreeOn i (setDist roadmap1 v i x) (setDist roadmap2 v i x).
Proof.
  intros [Hlen H]. split; [rewrite !length_setDist; assumption|].
  intros t. destruct (H t) as (Hp & Hn & Hl & Hd).
  destruct (getVertex_setDist roadmap1 v i x t) as (Hp1 & Hn1 & Hl1).
  destruct (getVertex_setDist roadmap2 v i x t) as (Hp2 & Hn2 & Hl2).
  repeat split; try congruence.
  rewrite !getDist_setDist, Hlen, (proj1 (proj2 (proj2 (H v)))), Hd.
  reflexivity.
Qed.

Lemma sameGraph_agreeOn i j roadmap roadmap' :
  i <> j -> sameGraph i roadmap roadmap' -> agreeOn j roadmap roadmap'.
Proof.
  intros Hne [Hlen H]. split; [assumption|]. intros v.
  destruct (H v) as (Hp & Hn & Hl & Hd). repeat split; auto.
Qed.

Lemma relaxEdge_agree i u v st1 st2 :
  stateAgree i st1 st2 ->
  stateAgree i (relaxEdge i u v st1) (relaxEdge i u v st2).
Proof.
  intros (HQ & HP & Hag). unfold relaxEdge.
  rewrite (agreeOn_distUV i _ _ u v Hag).
  rewrite (proj2 (proj2 (proj2 (proj2 Hag u)))), (proj2 (proj2 (proj2 (proj2 Hag v)))).
  rewrite HQ, HP.
  destruct (Fltb _ _); [|exact (conj HQ (conj HP Hag))].
  pose proof (agreeOn_setDist i _ _ v
                (Fadd (getDist (dsRoadmap st1) u i) (distUV (dsRoadmap st1) u v)) Hag)
    as Hag'.
  rewrite (proj2 (proj2 (proj2 (proj2 Hag' v)))).
  destruct (negb _); (split; [reflexivity|]); (split; [reflexivity|]); exact Hag'.
Qed.

Lemma relaxNeighbors_agree i u vs st1 st2 :
  stateAgree i st1 st2 ->
  stateAgree i (relaxNeighbors i u vs st1) (relaxNeighbors i u vs st2).
Proof.
  revert st1 st2. induction vs as [|v vs IH]; intros st1 st2 Hag; simpl.
  - assumption.
  - apply IH, relaxEdge_agree, Hag.
Qed.

Lemma dijkstraLoop_agree i fuel st1 st2 :
  stateAgree i st1 st2 ->
  bothOr (stateAgree i) (dijkstraLoop fuel i st1) (dijkstraLoop fuel i st2).
Proof.
  revert st1 st2. induction fuel as [|fuel IH]; intros st1 st2 Hag;
    pose proof Hag as (HQ & HP & Hrm); simpl; rewrite HQ.
  - destruct (dsQ st1) as [|[k u] Q']; simpl; [assumption|exact I].
  - destruct (dsQ st1) as [|[k u] Q'] eqn:HQ1; simpl; [assumption|].
    rewrite (proj1 (proj2 (proj2 Hrm u))). apply IH, relaxNeighbors_agree.
    split; [reflexivity|]. split; [simpl; rewrite HP; reflexivity|exact Hrm].
Qed.

Lemma dijkstraInit_agree i roadmap1 roadmap2 :
  agreeOn i roadmap1 roadmap2 ->
  stateAgree i (dijkstraInit i roadmap1) (dijkstraInit i roadmap2).
Proof.
  intros Hag. unfold dijkstraInit. split; [reflexivity|].
  split; [simpl; rewrite (proj1 Hag); reflexivity|].
  apply agreeOn_setDist. assumption.
Qed.

Lemma dijkstraFromGoal_agree i fuel roadmap1 roadmap2 :
  agreeOn i roadmap1 roadmap2 ->
  bothOr (agreeOn i) (dijkstraFromGoal fuel i roadmap1)
         (dijkstraFromGoal fuel i roadmap2).
Proof.
  intros Hag. unfold dijkstraFromGoal.
  pose proof (dijkstraLoop_agree i fuel _ _ (dijkstraInit_agree i _ _ Hag)) as Hloop.
  destruct (dijkstraLoop fuel i (dijkstraInit i roadmap1)) as [st1|];
    destruct (dijkstraLoop fuel i (dijkstraInit i roadmap2)) as [st2|]; simpl in *;
    try assumption.
  apply Hloop.
Qed.

Lemma relaxEdge_frame i u v st :
  sameGraph i (dsRoadmap st) (dsRoadmap (relaxEdge i u v st)).
Proof.
  unfold relaxEdge. destruct (Fltb _ _); [|apply sameGraph_refl].
  destruct (negb _); simpl; apply sameGraph_setDist, sameGraph_refl.
Qed.

Lemma relaxNeighbors_frame i u vs st :
  sameGraph i (dsRoadmap st) (dsRoadmap (relaxNeighbors i u vs st)).
Proof.
  revert st. induction vs as [|v vs IH]; intros st; simpl.
  - apply sameGraph_refl.
  - eapply sameGraph_trans; [apply (relaxEdge_frame i u v)|apply IH].
Qed.

Lemma dijkstraLoop_frame i fuel st st' :
  dijkstraLoop fuel i st = Some st' ->
  sameGraph i (dsRoadmap st) (dsRoadmap st').
Proof.
  revert st. induction fuel as [|fuel IH]; intros st; simpl.
  - destruct (dsQ st) as [|[k u] Q']; [|discriminate].
    intros [= <-]. apply sameGraph_refl.
  - destruct (dsQ st) as [|[k u] Q'].
    + intros [= <-]. apply sameGraph_refl.
    + intros Hrun. apply IH in Hrun.
      eapply sameGraph_trans; [|exact Hrun].
      apply (relaxNeighbors_frame i u _
               (mkDijkstraState (dsRoadmap st) Q' (<[u:=false]> (dsPosInQ st)))).
Qed.

Lemma dijkstraFromGoal_frame i fuel roadmap roadmap' :
  dijkstraFromGoal fuel i roadmap = Some roadmap' ->
  sameGraph i roadmap roadmap'.
Proof.
  unfold dijkstraFromGoal.
  destruct (dijkstraLoop fuel i (dijkstraInit i roadmap)) as [st|] eqn:Hrun;
    simpl; [|discriminate].
  intros [= <-]. apply dijkstraLoop_frame in Hrun.
  eapply sameGraph_trans; [|exact Hrun].
  unfold dijkstraInit; simpl. apply sameGraph_setDist, sameGraph_refl.
Qed.

Lemma roadmap_ext (roadmap1 roadmap2 : list RoadmapVertex) :
  length roadmap2 = length roadmap1 ->
  (forall v,
     position (getVertex roadmap2 v) = position (getVertex roadmap1 v) /\
     neighbors (getVertex roadmap2 v) = neighbors (getVertex roadmap1 v) /\
     length (distToGoal (getVertex roadmap2 v)) =
       length (distToGoal (getVertex roadmap1 v)) /\
     forall c, getDist roadmap2 v c = getDist roadmap1 v c) ->
  roadmap2 = roadmap1.
Proof.
  intros Hlen H. apply list_eq. intros k.
  destruct (decide (k < length roadmap1)) as [Hk|Hk].
  - rewrite !lookup_getVertex by lia. f_equal.
    destruct (H k) as (Hp & Hn & Hl & Hd). unfold getDist in Hd.
    destruct (getVertex roadmap2 k) as [p2 n2 d2], (getVertex roadmap1 k) as [p1 n1 d1].
    simpl in *. f_equal; try assumption.
    apply list_eq. intros c. specialize (Hd c).
    destruct (decide (c < length d1)) as [Hc|Hc].
    + destruct (lookup_lt_is_Some_2 d1 c Hc) as [x1 Hx1].
      destruct (lookup_lt_is_Some_2 d2 c ltac:(lia)) as [x2 Hx2].
      rewrite Hx1, Hx2 in *. simpl in Hd. congruence.
    + rewrite !lookup_ge_None_2 by lia. reflexivity.
  - rewrite !lookup_ge_None_2 by lia. reflexivity.
Qed.

Lemma dijkstraFromGoal_commute fuel i j roadmap :
  i <> j ->
  (dijkstraFromGoal fuel i roadmap ≫= dijkstraFromGoal fuel j) =
  (dijkstraFromGoal fuel j roadmap ≫= dijkstraFromGoal fuel i).
Proof.
  intros Hne.
  destruct (dijkstraFromGoal fuel i roadmap) as [a|] eqn:Hi;
    destruct (dijkstraFromGoal fuel j roadmap) as [b|] eqn:Hj; simpl.
  - pose proof (dijkstraFromGoal_frame _ _ _ _ Hi) as Hfa.
    pose proof (dijkstraFromGoal_frame _ _ _ _ Hj) as Hfb.
    pose proof (dijkstraFromGoal_agree j fuel roadmap a
                  (sameGraph_agreeOn i j _ _ Hne Hfa)) as Hja.
    pose proof (dijkstraFromGoal_agree i fuel roadmap b
                  (sameGraph_agreeOn j i _ _ (not_eq_sym Hne) Hfb)) as Hib.
    rewrite Hj in Hja. rewrite Hi in Hib.
    destruct (dijkstraFromGoal fuel j a) as [A|] eqn:HA; [|destruct Hja].
    destruct (dijkstraFromGoal fuel i b) as [B|] eqn:HB; [|destruct Hib].
    simpl in Hja, Hib. f_equal.
    pose proof (dijkstraFromGoal_frame _ _ _ _ HA) as HfA.
    pose proof (dijkstraFromGoal_frame _ _ _ _ HB) as HfB.
    apply roadmap_ext.
    + rewrite (proj1 HfB), (proj1 Hfb), (proj1 HfA), (proj1 Hfa). reflexivity.
    + intros v.
      destruct (proj2 Hfa v) as (Hpa & Hna & Hla & Hda).
      destruct (proj2 Hfb v) as (Hpb & Hnb & Hlb & Hdb).
      destruct (proj2 HfA v) as (HpA & HnA & HlA & HdA).
      destruct (proj2 HfB v) as (HpB & HnB & HlB & HdB).
      split; [congruence|]. split; [congruence|]. split; [congruence|].
      intros c. destruct (decide (c = i)) as [->|Hci].
      * rewrite (proj2 (proj2 (proj2 (proj2 Hib v)))). apply HdA. assumption.
      * destruct (decide (c = j)) as [->|Hcj].
        -- rewrite (HdB j Hci). apply (proj2 (proj2 (proj2 (proj2 Hja v)))).
        -- rewrite (HdB c Hci), (Hdb c Hcj), (HdA c Hcj), (Hda c Hci). reflexivity.
  - pose proof (dijkstraFromGoal_frame _ _ _ _ Hi) as Hfa.
    pose proof (dijkstraFromGoal_agree j fuel roadmap a
                  (sameGraph_agreeOn i j _ _ Hne Hfa)) as Hja.
    rewrite Hj in Hja. destruct (dijkstraFromGoal fuel j a); [destruct Hja|reflexivity].
  - pose proof (dijkstraFromGoal_frame _ _ _ _ Hj) as Hfb.
    pose proof (dijkstraFromGoal_agree i fuel roadmap b
                  (sameGraph_agreeOn j i _ _ (not_eq_sym Hne) Hfb)) as Hib.
    rewrite Hi in Hib. destruct (dijkstraFromGoal fuel i b); [destruct Hib|reflexivity].
  - reflexivity.
Qed.

Lemma shortestPaths_cons fuel roadmap i ids :
  shortestPaths fuel roadmap (i :: ids) =
  dijkstraFromGoal fuel i roadmap ≫= fun roadmap' => shortestPaths fuel roadmap' ids.
Proof. simpl. destruct (dijkstraFromGoal fuel i roadmap); reflexivity. Qed.

Lemma shortestPaths_cons2 fuel roadmap i j ids :
  shortestPaths fuel roadmap (i :: j :: ids) =
  (dijkstraFromGoal fuel i roadmap ≫= dijkstraFromGoal fuel j) ≫=
    fun roadmap' => shortestPaths fuel roadmap' ids.
Proof.
  rewrite shortestPaths_cons.
  destruct (dijkstraFromGoal fuel i roadmap) as [a|]; simpl; [|reflexivity].
  destruct (dijkstraFromGoal fuel j a); reflexivity.
Qed.

Lemma shortestPaths_permutation fuel ids ids' :
  ids ≡ₚ ids' ->
  forall roadmap, shortestPaths fuel roadmap ids = shortestPaths fuel roadmap ids'.
Proof.
  induction 1 as [|i ids ids' Hperm IH|i j ids|ids1 ids2 ids3 H12 IH12 H23 IH23];
    intros roadmap.
  - reflexivity.
  - rewrite !shortestPaths_cons.
    destruct (dijkstraFromGoal fuel i roadmap); simpl; [apply IH|reflexivity].
  - destruct (decide (i = j)) as [->|Hne]; [reflexivity|].
    rewrite !shortestPaths_cons2, (dijkstraFromGoal_commute fuel i j roadmap Hne).
    reflexivity.
  - rewrite IH12. apply IH23.
Qed.

(** X17. The four runs of Dijkstra's algorithm in [buildRoadmap] can be
    made in any order: a run from goal [i] reads and writes no distance
    but those to goal [i], so every order of the goals gives the same
    roadmap, and runs out of fuel in one order exactly when it does in
    every other. *)
Theorem shortestPaths_any_order fuel roadmap ids :
  ids ≡ₚ seq 0 4 ->
  shortestPaths fuel roadmap ids = shortestPaths fuel roadmap (seq 0 4).
Proof. intros Hperm. apply shortestPaths_permutation. assumption. Qed.

End DriverProperties.

(** * What buildRoadmap reads of the simulator *)

Section Environments.

Context {FA : FloatArith} {VL : VectorLib}.

Lemma connected_ext (ENV1 ENV2 : Environment) simulator1 simulator2 roadmap :
  (forall u v, u < length roadmap -> v < length roadmap ->
     queryVisibility (Environment := ENV1)
                     (position (getVertex roadmap u))
                     (position (getVertex roadmap v))
                     (getAgentRadius simulator1 0) =
     queryVisibility (Environment := ENV2)
                     (position (getVertex roadmap u))
                     (position (getVertex roadmap v))
                     (getAgentRadius simulator2 0)) ->
  connected (ENV := ENV1) simulator1 roadmap =
  connected (ENV := ENV2) simulator2 roadmap.
Proof.
  intros Hvis. unfold connected. apply list_eq. intros k.
  destruct (decide (k < length roadmap)) as [Hk|Hk].
  - rewrite !lookup_getVertex by (rewrite connectRoadmap_length; assumption).
    f_equal.
    rewrite !connectRoadmap_vertex
      by (try apply NoDup_seq; try (apply in_seq; lia); assumption).
    unfold builtVertex. f_equal. f_equal. rewrite !visibleFrom_filter.
    apply List.filter_ext_in. intros j Hj. apply in_seq in Hj.
    apply Hvis; lia.
  - rewrite !lookup_ge_None_2 by (rewrite connectRoadmap_length; lia). reflexivity.
Qed.

(** X9. Of the simulator, agents and obstacles alike, [buildRoadmap]
    reads only the answers of [queryVisibility] for pairs of roadmap
    positions, with the radius of agent 0 as clearance: two simulators
    that give the same answers there give the same roadmap, whatever
    their obstacles are elsewhere and whatever their agents are. *)
Theorem buildRoadmap_reads_visibility (ENV1 ENV2 : Environment)
    fuel simulator1 simulator2 roadmap :
  (forall u v, u < length roadmap -> v < length roadmap ->
     queryVisibility (Environment := ENV1)
                     (position (getVertex roadmap u))
                     (position (getVertex roadmap v))
                     (getAgentRadius simulator1 0) =
     queryVisibility (Environment := ENV2)
                     (position (getVertex roadmap u))
                     (position (getVertex roadmap v))
                     (getAgentRadius simulator2 0)) ->
  buildRoadmap (ENV := ENV1) fuel simulator1 roadmap =
  buildRoadmap (ENV := ENV2) fuel simulator2 roadmap.
Proof.
  intros Hvis. unfold buildRoadmap.
  rewrite (connected_ext ENV1 ENV2 simulator1 simulator2 roadmap Hvis
           : connectRoadmap (ENV := ENV1) simulator1 roadmap
               (seq 0 (length roadmap)) = _).
  reflexivity.
Qed.

End Environments.

(** * The integer library satisfies the laws *)

Lemma gridFloatLaws : @FloatLaws gridArith.
Proof.
  constructor; unfold Fle; simpl.
  - intros [x|]; simpl; [apply Z.ltb_irrefl|reflexivity].
  - intros [x|] [y|] [z|]; simpl; try discriminate; try reflexivity.
    rewrite !Z.ltb_lt. lia.
  - intros [x|] [y|] [z|]; simpl; try discriminate; try reflexivity.
    rewrite !Z.ltb_ge. lia.
  - intros a. reflexivity.
  - intros [x|] [y|] [w|]; simpl; try discriminate; try reflexivity.
    rewrite !Z.ltb_ge. lia.
Qed.

Lemma gridWeightLaws nrm : @WeightLaws gridArith (gridVectors nrm).
Proof.
  constructor. unfold Fle; simpl. intros [a|] [[x|] [y|]]; simpl; try reflexivity.
  rewrite Z.ltb_ge. pose proof (Z.sqrt_nonneg (x * x + y * y)). lia.
Qed.

Lemma gridPositions_getVertex roadmap u :
  gridPositions roadmap ->
  exists x y, position (getVertex roadmap u) = gridVector x y.
Proof.
  intros Hall. unfold getVertex. destruct (roadmap !! u) as [r|] eqn:Hr; simpl.
  - apply (proj1 (Forall_lookup _ _) Hall _ _ Hr).
  - exists 0%Z, 0%Z. reflexivity.
Qed.

Lemma grid_finiteLengths nrm roadmap :
  gridPositions roadmap -> @finiteLengths gridArith (gridVectors nrm) roadmap.
Proof.
  intros Hall. split; [reflexivity|]. intros [a|] u v Ha; [|discriminate].
  unfold distUV.
  destruct (gridPositions_getVertex roadmap u Hall) as (xu & yu & ->).
  destruct (gridPositions_getVertex roadmap v Hall) as (xv & yv & ->).
  reflexivity.
Qed.

Lemma walledField_symmetric a b r :
  @queryVisibility gridArith walledField a b r =
  @queryVisibility gridArith walledField b a r.
Proof.
  simpl. destruct (vx a) as [x|], (vx b) as [y|]; try reflexivity.
  destruct (x <? 0)%Z, (y <? 0)%Z; reflexivity.
Qed.

Lemma gridZeroLaws : @ZeroLaws gridArith.
Proof.
  constructor; [reflexivity|reflexivity|].
  unfold Fle; simpl. intros [a|] [w|]; simpl; try reflexivity.
  rewrite !Z.ltb_ge. lia.
Qed.

Lemma grid_PointLaws nrm roadmap :
  gridPositions roadmap -> @PointLaws gridArith (gridVectors nrm) roadmap.
Proof.
  intros Hall. constructor.
  - intros u _. destruct (gridPositions_getVertex roadmap u Hall) as (x & y & ->).
    simpl. unfold gridAbs; simpl. rewrite !Z.sub_diag. reflexivity.
  - intros u _. destruct (gridPositions_getVertex roadmap u Hall) as (x & y & ->).
    simpl. unfold gridAbsSq; simpl. rewrite !Z.sub_diag. reflexivity.
  - intros u v _ _.
    destruct (gridPositions_getVertex roadmap u Hall) as (x & y & ->).
    destruct (gridPositions_getVertex roadmap v Hall) as (x' & y' & ->).
    intros Hne. simpl. unfold gridAbs; simpl. apply Z.ltb_lt, Z.sqrt_pos.
    pose proof (Z.square_nonneg (x - x')) as Hx2.
    pose proof (Z.square_nonneg (y - y')) as Hy2.
    destruct (decide (x = x')) as [->|Hx].
    + destruct (decide (y = y')) as [->|Hy]; [exfalso; apply Hne; reflexivity|].
      assert ((y - y') * (y - y') <> 0)%Z
        by (intros H0; apply Z.mul_eq_0 in H0; lia).
      lia.
    + assert ((x - x') * (x - x') <> 0)%Z
        by (intros H0; apply Z.mul_eq_0 in H0; lia).
      lia.
Qed.

Lemma gridSeparating nrm : @separating gridArith (gridVectors nrm).
Proof.
  intros [[x|] [y|]] [[x'|] [y'|]]; simpl; unfold gridAbsSq; simpl;
    try discriminate.
  intros Hzero. apply Z.eqb_eq in Hzero.
  pose proof (Z.square_nonneg (x - x')) as Hx2.
  pose proof (Z.square_nonneg (y - y')) as Hy2.
  assert (Hx : ((x - x') * (x - x') = 0)%Z) by lia.
  assert (Hy : ((y - y') * (y - y') = 0)%Z) by lia.
  apply Z.mul_eq_0 in Hx. apply Z.mul_eq_0 in Hy.
  assert (x = x') by lia. assert (y = y') by lia. congruence.
Qed.

Lemma gridNormalizing : @normalizing gridArith gridLib (Num 1).
Proof.
  intros [[x|] [y|]]; simpl; unfold gridAbsSq; simpl; try discriminate.
  intros Hnz _. destruct x as [|x|x], y as [|y|y]; try reflexivity.
  discriminate Hnz.
Qed.

(** * The theorems on the integer library *)

#[local] Existing Instance gridArith.
#[local] Existing Instance gridLib.

Lemma twoRooms_fresh : Forall freshVertex twoRooms.
Proof. repeat constructor. Qed.

Lemma twoRooms_positions : gridPositions twoRooms.
Proof. repeat constructor; eexists _, _; reflexivity. Qed.

Lemma twoRooms_distinct : NoDup (positionsOf twoRooms).
Proof.
  repeat (constructor;
          [intros H; repeat (apply elem_of_cons in H as [H|H]; [discriminate H|]);
           apply elem_of_nil in H; exact H|]).
  constructor.
Qed.

Lemma twoRoomsBuilt_distinct : NoDup (positionsOf twoRoomsBuilt).
Proof. exact twoRooms_distinct. Qed.

(** Witness of C1 on the walled field. *)
Lemma buildRoadmap_shortest_paths_witness :
  exists roadmap',
    buildRoadmap (ENV := walledField)
      5 [gridAgent 6 0] twoRooms = Some roadmap' /\
    (forall u, position (getVertex roadmap' u) = position (getVertex twoRooms u)) /\
    (forall u j, u < length twoRooms ->
       In j (neighbors (getVertex roadmap' u)) <->
       j < length twoRooms /\
       @queryVisibility gridArith walledField
         (position (getVertex twoRooms u)) (position (getVertex twoRooms j))
         (getAgentRadius [gridAgent 6 0] 0) = true) /\
    forall g v, g < 4 -> v < length twoRooms ->
      (reachable roadmap' g v -> shortestDist roadmap' g v (getDist roadmap' v g)) /\
      (~ reachable roadmap' g v -> getDist roadmap' v g = Finf).
Proof.
  apply (buildRoadmap_shortest_paths 
           (ENV := walledField) 5 [gridAgent 6 0] twoRooms).
  - exact gridFloatLaws.
  - exact (gridWeightLaws gridNormalize : WeightLaws).
  - exact (grid_finiteLengths gridNormalize twoRooms twoRooms_positions
           : finiteLengths twoRooms).
  - exact twoRooms_fresh.
  - simpl. lia.
  - simpl. lia.
Defined.

(** Witness of C2: the agent at (6, 0) with goal 3. *)
Lemma steering_selects_visible_minimum_witness :
  (minVertexOf (ENV := walledField)
     [gridAgent 6 0] twoRoomsBuilt [3] 0 = (-1)%Z /\
   forall k, k < length twoRoomsBuilt ->
     agentSees (ENV := walledField)
       [gridAgent 6 0] twoRoomsBuilt 0 k = true ->
     Fltb (vertexCost [gridAgent 6 0] twoRoomsBuilt [3] 0 k) Finf = false) \/
  (exists m,
     minVertexOf (ENV := walledField)
       [gridAgent 6 0] twoRoomsBuilt [3] 0 = Z.of_nat m /\
     m < length twoRoomsBuilt /\
     agentSees (ENV := walledField)
       [gridAgent 6 0] twoRoomsBuilt 0 m = true /\
     forall k, k < length twoRoomsBuilt ->
       agentSees (ENV := walledField)
         [gridAgent 6 0] twoRoomsBuilt 0 k = true ->
       Fle (vertexCost [gridAgent 6 0] twoRoomsBuilt [3] 0 m)
           (vertexCost [gridAgent 6 0] twoRoomsBuilt [3] 0 k)).
Proof.
  apply (steering_selects_visible_minimum 
           (ENV := walledField) [gridAgent 6 0] twoRoomsBuilt [3] 0).
  exact gridFloatLaws.
Defined.

(** Counterexample to C3 as stated: vertex 0 of the walled field, which
    shares its position with no other vertex, is visible from itself and
    is a neighbour of itself after the first phase. *)
Lemma connected_self_loop :
  In 0 (neighbors (getVertex
          (connectRoadmap (ENV := walledField)
             [gridAgent 6 0] twoRooms (seq 0 (length twoRooms))) 0)).
Proof. vm_compute. left. reflexivity. Qed.

(** Witness of C3 (as the code has it). *)
Lemma connected_neighbors_visible_witness :
  (forall j,
     In j (neighbors (getVertex
             (connectRoadmap (ENV := walledField)
                [gridAgent 6 0] twoRooms (seq 0 (length twoRooms))) 1)) <->
     j < length twoRooms /\
     @queryVisibility gridArith walledField (position (getVertex twoRooms 1))
                     (position (getVertex twoRooms j))
                     (getAgentRadius [gridAgent 6 0] 0) = true) /\
  (In 1 (neighbors (getVertex
           (connectRoadmap (ENV := walledField)
              [gridAgent 6 0] twoRooms (seq 0 (length twoRooms))) 1)) <->
   @queryVisibility gridArith walledField (position (getVertex twoRooms 1))
                   (position (getVertex twoRooms 1))
                   (getAgentRadius [gridAgent 6 0] 0) = true).
Proof.
  apply (connected_neighbors_visible 
           (ENV := walledField) [gridAgent 6 0] twoRooms 1).
  - exact twoRooms_fresh.
  - simpl. lia.
Defined.

(** Witness of C4: vertices 1 and 4 of the walled field. *)
Lemma connected_neighbors_symmetric_witness :
  In 4 (neighbors (getVertex
          (connectRoadmap (ENV := walledField)
             [gridAgent 6 0] twoRooms (seq 0 (length twoRooms))) 1)) <->
  In 1 (neighbors (getVertex
          (connectRoadmap (ENV := walledField)
             [gridAgent 6 0] twoRooms (seq 0 (length twoRooms))) 4)).
Proof.
  apply (connected_neighbors_symmetric 
           (ENV := walledField) [gridAgent 6 0] twoRooms 1 4).
  - exact walledField_symmetric.
  - exact twoRooms_fresh.
  - simpl. lia.
  - simpl. lia.
Defined.

(** Witness of C5: the agent on goal vertex 3 of the walled field, which
    sees vertices 1 and 4 as well. *)
Lemma steer_on_goal_witness :
  exists roadmap',
    buildRoadmap (ENV := walledField) 5 [gridAgent 6 0] twoRooms = Some roadmap' /\
    minVertexOf (ENV := walledField) [gridAgent 3 4] roadmap' [3] 0 = 3%Z /\
    steer (ENV := walledField) [gridAgent 3 4] roadmap' [3] 0 = vzero.
Proof.
  destruct (steer_on_goal (ENV := walledField) 5 [gridAgent 6 0] twoRooms
              gridFloatLaws (gridWeightLaws gridNormalize) gridZeroLaws
              (grid_PointLaws gridNormalize twoRooms twoRooms_positions)
              twoRooms_fresh ltac:(simpl; lia) ltac:(simpl; lia)
              twoRooms_distinct)
    as (roadmap' & Hrun & Hsteer).
  exists roadmap'. split; [exact Hrun|].
  assert (Hbuilt : Some roadmap' = Some twoRoomsBuilt)
    by (rewrite <- Hrun; reflexivity).
  injection Hbuilt as ->.
  apply (Hsteer [gridAgent 3 4] [3] 0); [vm_compute; lia|reflexivity|reflexivity].
Defined.



(** Witness of C8 on the walled field. *)
Lemma buildRoadmap_goal_distance_zero_witness :
  exists roadmap',
    buildRoadmap (ENV := walledField)
      5 [gridAgent 6 0] twoRooms = Some roadmap' /\
    forall g, g < 4 -> getDist roadmap' g g = F0.
Proof.
  apply (buildRoadmap_goal_distance_zero 
           (ENV := walledField) 5 [gridAgent 6 0] twoRooms).
  - exact gridFloatLaws.
  - exact (gridWeightLaws gridNormalize : WeightLaws).
  - exact twoRooms_fresh.
  - simpl. lia.
  - simpl. lia.
Defined.

(** Witness of C10: for the agent at (3, 0) with goal 3, vertices 1 and 3
    of the walled field have the same value, the least one; vertex 1 is
    selected. *)
Lemma steering_ties_smallest_index_witness :
  vertexCost [gridAgent 3 0] twoRoomsBuilt [3] 0 1 =
    vertexCost [gridAgent 3 0] twoRoomsBuilt [3] 0 3 /\
  minVertexOf (ENV := walledField) [gridAgent 3 0] twoRoomsBuilt [3] 0 = 1%Z.
Proof.
  split; [reflexivity|].
  apply (steering_ties_smallest_index
           (ENV := walledField) [gridAgent 3 0] twoRoomsBuilt [3] 0 1).
  - exact gridFloatLaws.
  - vm_compute. lia.
  - reflexivity.
  - reflexivity.
  - intros j Hj _. simpl in Hj. do 5 (destruct j as [|j]; [reflexivity|]). lia.
  - intros j Hj Hsees. destruct j as [|j]; [discriminate Hsees|lia].
Defined.

(** * The program on the two example roadmaps *)

Example buildRoadmap_twoRooms :
  buildRoadmap (ENV := walledField) 5 [gridAgent 6 0] twoRooms = Some twoRoomsBuilt.
Proof. reflexivity. Qed.

Example twoRooms_neighbors :
  neighbors <$> twoRoomsBuilt = [[0; 2]; [1; 3; 4]; [0; 2]; [1; 3; 4]; [1; 3; 4]].
Proof. reflexivity. Qed.

Example twoRooms_distances :
  distToGoal <$> twoRoomsBuilt =
  [[Num 0; Infty; Num 4; Infty];
   [Infty; Num 0; Infty; Num 4];
   [Num 4; Infty; Num 0; Infty];
   [Infty; Num 4; Infty; Num 0];
   [Infty; Num 8; Infty; Num 5]].
Proof. reflexivity. Qed.

(** Two iterations of the [while] loop are not enough for the three
    vertices of the right room; three are. *)
Example buildRoadmap_twoRooms_fuel :
  buildRoadmap (ENV := walledField) 2 [gridAgent 6 0] twoRooms = None /\
  buildRoadmap (ENV := walledField) 3 [gridAgent 6 0] twoRooms = Some twoRoomsBuilt.
Proof. split; reflexivity. Qed.

(** Where two vertices share a position the first of them is selected,
    also for an agent that stands on both and has the second as its
    goal: the hypothesis of distinct positions cannot be dropped. *)
Example stacked_selects_first :
  buildRoadmap (ENV := openField) 4 [gridAgent 0 0] stacked = Some stackedBuilt /\
  minVertexOf (ENV := openField) [gridAgent 0 0] stackedBuilt [1] 0 = 0%Z.
Proof. split; reflexivity. Qed.

Example stacked_distances :
  distToGoal <$> stackedBuilt =
  [[Num 0; Num 0; Num 3; Num 4];
   [Num 0; Num 0; Num 3; Num 4];
   [Num 3; Num 3; Num 0; Num 5];
   [Num 4; Num 4; Num 5; Num 0]].
Proof. reflexivity. Qed.

(** The agent at (6, 0) with goal 3 heads for vertex 3 at (3, 4); an
    agent in the left room sees no vertex that leads to goal 3. *)
Example steer_twoRooms :
  minVertexOf (ENV := walledField) [gridAgent 6 0] twoRoomsBuilt [3] 0 = 3%Z /\
  steer (ENV := walledField) [gridAgent 6 0] twoRoomsBuilt [3] 0 = gridVector (-1) 1 /\
  minVertexOf (ENV := walledField) [gridAgent (-6) 0] twoRoomsBuilt [3] 0 = (-1)%Z /\
  steer (ENV := walledField) [gridAgent (-6) 0] twoRoomsBuilt [3] 0 = gridVector 0 0.
Proof. repeat split. Qed.

Example reachedGoal_twoRooms :
  reachedGoal [gridAgent 6 0; gridAgent (-3) 20] twoRoomsBuilt [3; 2] = true /\
  reachedGoal [gridAgent 6 0; gridAgent (-3) 25] twoRoomsBuilt [3; 2] = false.
Proof. split; reflexivity. Qed.

(** * The further properties on the integer library *)

Lemma gridObstacles_closed : @closedPolygons gridArith gridObstacles.
Proof.
  split.
  - intros v Hv. simpl in *. do 7 (destruct v as [|v]; [simpl; lia|]). lia.
  - intros u v Hu Hv. simpl in *.
    do 7 (destruct u as [|u]; [do 7 (destruct v as [|v]; [simpl; lia|]); lia|]).
    lia.
Qed.

Lemma gridNormalize_unit (v : @Vector2 gridArith) :
  Fle (vabs (normalize v)) (Num 1).
Proof. destruct v as [[[|x|x]|] [[|y|y]|]]; reflexivity. Qed.

(** Witness of X1: two agents taken in the order 1, 0. *)
Lemma setPreferredVelocities_any_order_witness :
  getAgentPrefVelocity
    (fst (setPreferredVelocitiesLoop (ENV := doorField)
            [gridAgent 6 0; gridAgent 3 0] twoRoomsBuilt [3; 3] [1; 0]
            [5; 6; 7; 8]%Z)) 1 =
  vadd (steer (ENV := doorField) [gridAgent 6 0; gridAgent 3 0]
          twoRoomsBuilt [3; 3] 1)
       (@perturbation gridArith doorField
          (default 0%Z ([5; 6; 7; 8]%Z !! (2 * 0)))
          (default 0%Z ([5; 6; 7; 8]%Z !! (2 * 0 + 1)))).
Proof.
  apply (setPreferredVelocities_any_order (ENV := doorField)
           [gridAgent 6 0; gridAgent 3 0] twoRoomsBuilt [3; 3] [1; 0]
           [5; 6; 7; 8]%Z 0 1).
  - apply (bool_decide_unpack _). vm_compute. reflexivity.
  - reflexivity.
Defined.

(** Witness of X3: vertex 1 of a roadmap that was built before. *)
Lemma connectRoadmap_appends_witness :
  length (connectRoadmap (ENV := walledField) [gridAgent 6 0] twoRoomsBuilt
            (seq 0 (length twoRoomsBuilt))) = length twoRoomsBuilt /\
  position (getVertex (connectRoadmap (ENV := walledField) [gridAgent 6 0]
                         twoRoomsBuilt (seq 0 (length twoRoomsBuilt))) 1) =
    position (getVertex twoRoomsBuilt 1) /\
  neighbors (getVertex (connectRoadmap (ENV := walledField) [gridAgent 6 0]
                          twoRoomsBuilt (seq 0 (length twoRoomsBuilt))) 1) =
    neighbors (getVertex twoRoomsBuilt 1) ++
    List.filter
      (fun j => @queryVisibility gridArith walledField
                  (position (getVertex twoRoomsBuilt 1))
                  (position (getVertex twoRoomsBuilt j))
                  (getAgentRadius [gridAgent 6 0] 0))
      (seq 0 (length twoRoomsBuilt)) /\
  distToGoal (getVertex (connectRoadmap (ENV := walledField) [gridAgent 6 0]
                           twoRoomsBuilt (seq 0 (length twoRoomsBuilt))) 1) =
    take 4 (distToGoal (getVertex twoRoomsBuilt 1)) ++
    replicate (4 - length (distToGoal (getVertex twoRoomsBuilt 1))) Finf.
Proof.
  apply (connectRoadmap_appends (ENV := walledField)
           [gridAgent 6 0] twoRoomsBuilt 1).
  simpl. lia.
Defined.

(** Witness of X4. *)
Lemma connected_neighbors_increasing_witness :
  StronglySorted lt
    (neighbors (getVertex (connectRoadmap (ENV := walledField) [gridAgent 6 0]
                             twoRooms (seq 0 (length twoRooms))) 1)).
Proof.
  apply (connected_neighbors_increasing (ENV := walledField)
           [gridAgent 6 0] twoRooms 1).
  - exact twoRooms_fresh.
  - simpl. lia.
Defined.

(** Witness of X5. *)
Lemma buildRoadmap_edges_relaxed_witness :
  exists roadmap',
    buildRoadmap (ENV := walledField) 5 [gridAgent 6 0] twoRooms = Some roadmap' /\
    forall g u v, g < 4 ->
      In v (neighbors (getVertex roadmap' u)) ->
      Fle (getDist roadmap' v g)
          (Fadd (getDist roadmap' u g) (distUV roadmap' u v)).
Proof.
  apply (buildRoadmap_edges_relaxed (ENV := walledField) 5 [gridAgent 6 0] twoRooms).
  - exact gridFloatLaws.
  - exact (gridWeightLaws gridNormalize : WeightLaws).
  - exact twoRooms_fresh.
  - simpl. lia.
  - simpl. lia.
Defined.

(** Witness of X6. *)
Lemma buildRoadmap_distances_nonnegative_witness :
  exists roadmap',
    buildRoadmap (ENV := walledField) 5 [gridAgent 6 0] twoRooms = Some roadmap' /\
    forall g v, g < 4 -> v < length twoRooms -> Fle F0 (getDist roadmap' v g).
Proof.
  apply (buildRoadmap_distances_nonnegative (ENV := walledField)
           5 [gridAgent 6 0] twoRooms).
  - exact gridFloatLaws.
  - exact (gridWeightLaws gridNormalize : WeightLaws).
  - exact twoRooms_fresh.
  - simpl. lia.
  - simpl. lia.
Defined.

(** Witness of X7. *)
Lemma buildRoadmap_four_distances_witness :
  exists roadmap',
    buildRoadmap (ENV := walledField) 5 [gridAgent 6 0] twoRooms = Some roadmap' /\
    length roadmap' = length twoRooms /\
    forall v, v < length twoRooms ->
      length (distToGoal (getVertex roadmap' v)) = 4.
Proof.
  apply (buildRoadmap_four_distances (ENV := walledField)
           5 [gridAgent 6 0] twoRooms).
  - exact gridFloatLaws.
  - exact (gridWeightLaws gridNormalize : WeightLaws).
  - exact twoRooms_fresh.
  - simpl. lia.
  - simpl. lia.
Defined.

(** Witness of X8. *)
Lemma steering_selected_value_finite_witness :
  Fltb (vertexCost [gridAgent 6 0] twoRoomsBuilt [3] 0 3) Finf = true.
Proof.
  apply (steering_selected_value_finite (ENV := walledField)
           [gridAgent 6 0] twoRoomsBuilt [3] 0 3).
  - exact gridFloatLaws.
  - reflexivity.
Defined.

(** Witness of X9: the wall with and without the door, which an agent of
    radius 1 does not pass, and different agents. *)
Lemma buildRoadmap_reads_visibility_witness :
  buildRoadmap (ENV := walledField) 5 [gridAgent 6 0] twoRooms =
  buildRoadmap (ENV := doorField) 5 [gridAgent 0 0; gridAgent 1 1] twoRooms.
Proof.
  apply (buildRoadmap_reads_visibility walledField doorField 5
           [gridAgent 6 0] [gridAgent 0 0; gridAgent 1 1] twoRooms).
  intros u v Hu Hv. reflexivity.
Defined.

(** Witness of X10: an agent on goal vertex 3 of the walled field. *)
Lemma steer_at_goal_witness :
  steer (ENV := walledField) [gridAgent 3 4] twoRoomsBuilt [3] 0 = vzero.
Proof.
  apply (steer_at_goal (ENV := walledField) [gridAgent 3 4] twoRoomsBuilt [3] 0).
  - exact gridFloatLaws.
  - vm_compute. lia.
  - reflexivity.
  - reflexivity.
  - reflexivity.
  - intros k Hk Hs. simpl in Hk.
    do 5 (destruct k as [|k];
          [first [reflexivity | vm_compute in Hs; discriminate]|]).
    lia.
  - intros k Hk Hs. change (goalOf [3] 0) with 3 in Hk.
    do 3 (destruct k as [|k];
          [first [reflexivity | vm_compute in Hs; discriminate]|]).
    lia.
Defined.

(** Witness of X11: the agent at (6, 0) with goal 3 and unit speed. *)
Lemma steer_magnitude_witness :
  Fle (vabs (steer (ENV := walledField) [gridAgent 6 0] twoRoomsBuilt [3] 0))
      (Num 1).
Proof.
  apply (steer_magnitude (ENV := walledField)
           [gridAgent 6 0] twoRoomsBuilt [3] 0 (Num 1)).
  - exact gridFloatLaws.
  - reflexivity.
  - intros v _. apply gridNormalize_unit.
  - intros m Hm Hne. exfalso. apply Hne.
    apply Nat2Z.inj. rewrite <- Hm. reflexivity.
Defined.

(** Witness of X12: the square and the triangle. *)
Lemma updateVisualization_draws_each_edge_once_witness :
  exists vs,
    vs ≡ₚ seq 0 (@getNumObstacleVertices gridArith gridObstacles) /\
    updateVisualization (OBS := gridObstacles) (DISP := gridDisplay)
      7 (Num 0) [gridAgent 25 4] =
    Some ([PrintTime (Num 0)] ++
          concat (agentDrawing (DISP := gridDisplay) [gridAgent 25 4] <$>
                    seq 0 (getNumAgents [gridAgent 25 4])) ++
          (obstacleLine (OBS := gridObstacles) (DISP := gridDisplay) <$> vs) ++
          [PrintEndl]).
Proof.
  apply (updateVisualization_draws_each_edge_once (OBS := gridObstacles)
           (DISP := gridDisplay) 7 (Num 0) [gridAgent 25 4]).
  - exact gridObstacles_closed.
  - simpl. lia.
Defined.

(** Witness of X13: the agent at (25, 4) with goal 3 is within the
    tolerance after the second pass. *)
Lemma mainLoop_stops_after_first_reached_witness :
  exists out',
    mainLoop (ENV := walledField) (OBS := gridObstacles) (DISP := gridDisplay)
      (SOL := gridSolver) 5 7 twoRoomsBuilt [3]
      (Num 0, [gridAgent 25 4], [5; 6; 7; 8]%Z) [] =
    Some (Nat.iter 2 (tick (ENV := walledField) (SOL := gridSolver)
                        twoRoomsBuilt [3])
            (Num 0, [gridAgent 25 4], [5; 6; 7; 8]%Z), out').
Proof.
  apply (mainLoop_stops_after_first_reached (ENV := walledField)
           (OBS := gridObstacles) (DISP := gridDisplay) (SOL := gridSolver)
           5 7 twoRoomsBuilt [3] 1 (Num 0, [gridAgent 25 4], [5; 6; 7; 8]%Z) []).
  - exact gridObstacles_closed.
  - simpl. lia.
  - intros j Hj. assert (j = 0) by lia. subst j. reflexivity.
  - reflexivity.
  - lia.
Defined.

(** Witness of X14, with the literals of the grid. *)
Lemma scenario_indices_in_range_witness :
  exists roadmap',
    buildRoadmap (ENV := walledField) 20
      (scAgents (setupScenario (LIT := gridLiterals) [] [] []))
      (scRoadmap (setupScenario (LIT := gridLiterals) [] [] [])) = Some roadmap' /\
    length (scGoals (setupScenario (LIT := gridLiterals) [] [] [])) =
      getNumAgents (scAgents (setupScenario (LIT := gridLiterals) [] [] [])) /\
    forall i, i < getNumAgents (scAgents (setupScenario (LIT := gridLiterals) [] [] [])) ->
      goalOf (scGoals (setupScenario (LIT := gridLiterals) [] [] [])) i <
        length roadmap' /\
      forall v, v < length roadmap' ->
        goalOf (scGoals (setupScenario (LIT := gridLiterals) [] [] [])) i <
        length (distToGoal (getVertex roadmap' v)).
Proof.
  apply (scenario_indices_in_range (ENV := walledField) (LIT := gridLiterals) 20).
  - exact gridFloatLaws.
  - exact (gridWeightLaws gridNormalize : WeightLaws).
  - lia.
Defined.

(** Witness of X16. *)
Lemma connectRoadmap_any_order_witness :
  connectRoadmap (ENV := walledField) [gridAgent 6 0] twoRooms [3; 1; 0; 4; 2] =
  connectRoadmap (ENV := walledField) [gridAgent 6 0] twoRooms
    (seq 0 (length twoRooms)).
Proof.
  apply (connectRoadmap_any_order (ENV := walledField)
           [gridAgent 6 0] twoRooms [3; 1; 0; 4; 2]).
  apply (bool_decide_unpack _). vm_compute. reflexivity.
Defined.

(** Witness of X17. *)
Lemma shortestPaths_any_order_witness :
  shortestPaths 5
    (connectRoadmap (ENV := walledField) [gridAgent 6 0] twoRooms (seq 0 5))
    [3; 1; 0; 2] =
  shortestPaths 5
    (connectRoadmap (ENV := walledField) [gridAgent 6 0] twoRooms (seq 0 5))
    (seq 0 4).
Proof.
  apply (shortestPaths_any_order 5
           (connectRoadmap (ENV := walledField) [gridAgent 6 0] twoRooms (seq 0 5))
           [3; 1; 0; 2]).
  apply (bool_decide_unpack _). vm_compute. reflexivity.
Defined.

